(** * Qblox backend of quantify-scheduler: a shallow embedding

    The development follows the two generations of the Qblox compiler
    backend that live in the repository:

    - [quantify/scheduler/backends/qblox_backend.py] (module
      [qblox_backend] below): mapping indexer, sequencer construction,
      operation distributor, frequency assignment and the Q1ASM emitter;
    - [quantify_scheduler/backends/qblox/helpers.py] (module [helpers]):
      the later indexer, distributor and frequency helper.

    Python values are modelled by the type [value]; Python floats are
    modelled by exact rationals ([Q]), Python ints by [Z]; exceptions by
    the error monad [result]. *)

From Stdlib Require Import ZArith QArith Qround Qabs Lia List String Ascii Bool.
From Stdlib Require Import Permutation Sorted DecimalString Lqa.
From Stdlib Require DecimalZ DecimalPos.
Import ListNotations.

Set Warnings "-register-all".
Local Open Scope string_scope.
Local Open Scope list_scope.
Local Open Scope Z_scope.

(** ** Python values, exceptions and dictionaries *)

Module Py.

(** JSON-like values as found in the hardware mapping and in the
    pulse/acquisition info dictionaries.  A [VDict] keeps its items in
    insertion order, as a Python [dict] does. *)
Inductive value : Type :=
| VNone
| VBool (b : bool)
| VNum (q : Q)
| VStr (s : string)
| VList (l : list value)
| VDict (d : list (string * value)).

Definition pydict := list (string * value).

(** The exceptions raised by the embedded code.  The payload is a short
    tag for the message (or, for [KeyError], the missing key). *)
Inductive exn : Type :=
| ValueError (msg : string)
| KeyError (key : string)
| AttributeError (msg : string)
| NotImplementedError (msg : string)
| RuntimeError (msg : string)
| TypeError (msg : string)
| IndexError (msg : string)
| SyntaxError (msg : string).

Inductive result (A : Type) : Type :=
| Ok (a : A)
| Raise (e : exn).

Arguments Ok {A} a.
Arguments Raise {A} e.

Definition bind {A B} (c : result A) (k : A -> result B) : result B :=
  match c with
  | Ok a => k a
  | Raise e => Raise e
  end.

Definition is_ok {A} (c : result A) : bool :=
  match c with Ok _ => true | Raise _ => false end.

(** [for x in xs: st = body(x, st)] with exceptions. *)
Fixpoint for_each {A S} (body : A -> S -> result S) (xs : list A) (st : S)
  : result S :=
  match xs with
  | [] => Ok st
  | x :: xs' => bind (body x st) (for_each body xs')
  end.

(** *** Dictionaries with arbitrary keys, in insertion order *)

Section Dict.
Context {K V : Type} (eqb : K -> K -> bool).

Fixpoint dget (k : K) (d : list (K * V)) : option V :=
  match d with
  | [] => None
  | (k', v) :: d' => if eqb k k' then Some v else dget k d'
  end.

Definition dmem (k : K) (d : list (K * V)) : bool :=
  match dget k d with Some _ => true | None => false end.

(** [d[k] = v]: replaces the value in place when the key exists,
    appends a new item otherwise. *)
Fixpoint dset (k : K) (v : V) (d : list (K * V)) : list (K * V) :=
  match d with
  | [] => [(k, v)]
  | (k', v') :: d' =>
      if eqb k k' then (k', v) :: d' else (k', v') :: dset k v d'
  end.

(** [d.pop(k)] on a key (nothing is removed when it is absent). *)
Fixpoint dpop (k : K) (d : list (K * V)) : list (K * V) :=
  match d with
  | [] => []
  | (k', v') :: d' => if eqb k k' then d' else (k', v') :: dpop k d'
  end.

Definition dkeys (d : list (K * V)) : list K := map fst d.
Definition dvalues (d : list (K * V)) : list V := map snd d.
End Dict.

(** String-keyed lookups, [d[k]] raising [KeyError]. *)
Definition get (k : string) (d : pydict) : option value := dget String.eqb k d.
Definition has_key (k : string) (d : pydict) : bool := dmem String.eqb k d.
Definition getitem (k : string) (d : pydict) : result value :=
  match get k d with
  | Some v => Ok v
  | None => Raise (KeyError k)
  end.

(** Numbers: [bool] is a subtype of [int] in Python. *)
Definition num_of (v : value) : option Q :=
  match v with
  | VNum q => Some q
  | VBool b => Some (if b then 1%Q else 0%Q)
  | _ => None
  end.

(** [a == b] on the hashable values (None, str, numbers). *)
Definition py_eqb (a b : value) : bool :=
  match a, b with
  | VNone, VNone => true
  | VStr s, VStr t => String.eqb s t
  | _, _ =>
      match num_of a, num_of b with
      | Some x, Some y => Qeq_bool x y
      | _, _ => false
      end
  end.

(** [a - b] on numbers; anything else is a [TypeError]. *)
Definition py_sub (a b : value) : result value :=
  match num_of a, num_of b with
  | Some x, Some y => Ok (VNum (x - y))
  | _, _ => Raise (TypeError "unsupported operand type(s) for -")
  end.

Definition is_dict (v : value) : bool :=
  match v with VDict _ => true | _ => false end.

Definition is_none (v : value) : bool :=
  match v with VNone => true | _ => false end.

(** [str(n)] for an int. *)
Definition str_of_Z (n : Z) : string := NilZero.string_of_int (Z.to_int n).

(** [np.round] / [round]: to the nearest integer, ties to even. *)
Definition round_half_even (q : Q) : Z :=
  let f := Qfloor q in
  match Qcompare (q - inject_Z f) (1 # 2) with
  | Lt => f
  | Gt => f + 1
  | Eq => if Z.even f then f else f + 1
  end.

End Py.

Import Py.

Notation "x <- c ;; k" := (bind c (fun x => k))
  (at level 61, c at next level, right associativity).
Notation "c ;;; k" := (bind c (fun _ => k))
  (at level 61, right associativity).

(** ** The backend of [quantify/scheduler/backends/qblox_backend.py] *)

Module qblox_backend.

(** *** Data classes of [backends/types/qblox.py] *)

Record QASMRuntimeSettings : Type := {
  awg_gain_0 : Q;
  awg_gain_1 : Q;
  awg_offset_0 : Q;
  awg_offset_1 : Q
}.

Record OpInfo : Type := {
  uuid : Z;
  data : pydict;
  timing : Q;
  pulse_settings : option QASMRuntimeSettings
}.

(** [OpInfo.is_acquisition]: ["acq_index" in self.data]. *)
Definition is_acquisition (op : OpInfo) : bool := has_key "acq_index" (data op).

Definition set_pulse_settings (op : OpInfo) (s : QASMRuntimeSettings) : OpInfo :=
  {| uuid := uuid op; data := data op; timing := timing op;
     pulse_settings := Some s |}.

Record SequencerSettings : Type := {
  nco_en : bool;
  sync_en : bool;
  modulation_freq : value;
  awg_offset_path_0 : Q;
  awg_offset_path_1 : Q;
  duration : Z
}.

Record MixerCorrections : Type := {
  amp_ratio : Q;
  phase_error : Q;
  offset_I : Q;
  offset_Q : Q
}.

(** *** Traversal of the hardware mapping *)

(** [find_inner_dicts_containing_key], on any value: a value that is not
    a dict has no [values()], the [AttributeError] is swallowed by the
    caller's [try] and nothing is found. *)
Fixpoint find_inner_value (key : string) (v : value) {struct v} : list pydict :=
  match v with
  | VDict d =>
      (if has_key key d then [d] else []) ++
      (fix over_items (items : list (string * value)) : list pydict :=
         match items with
         | [] => []
         | (_, val) :: rest =>
             match val with
             | VDict _ => find_inner_value key val
             | VList l =>
                 (fix over_list (l : list value) : list pydict :=
                    match l with
                    | [] => []
                    | i_item :: l' => find_inner_value key i_item ++ over_list l'
                    end) l
             | _ => []
             end ++ over_items rest
         end) d
  | _ => []
  end.

Definition find_inner_dicts_containing_key (d : pydict) (key : string)
  : list pydict :=
  find_inner_value key (VDict d).

(** A (port, clock) tuple. *)
Definition portclock := (value * value)%type.

Definition find_all_port_clock_combinations (d : pydict)
  : result (list portclock) :=
  for_each
    (fun inner_dict port_clocks =>
       match get "port" inner_dict with
       | Some port =>
           if is_none port then Ok port_clocks
           else if negb (has_key "clock" inner_dict)
                then Raise (AttributeError "Port missing clock")
                else clock <- getitem "clock" inner_dict ;;
                     Ok (port_clocks ++ [(port, clock)])
       | None => Ok port_clocks
       end)
    (find_inner_dicts_containing_key d "port") [].

(** Dictionaries keyed by (port, clock) tuples.  Tuples compare
    componentwise; a tuple holding a list or a dict is unhashable. *)
Definition pc_eqb (a b : portclock) : bool :=
  py_eqb (fst a) (fst b) && py_eqb (snd a) (snd b).

Definition hashable (v : value) : bool :=
  match v with
  | VList _ | VDict _ => false
  | _ => true
  end.

Definition pc_hashable (pc : portclock) : bool :=
  hashable (fst pc) && hashable (snd pc).

Definition pc_get {V} (pc : portclock) (d : list (portclock * V))
  : result (option V) :=
  if pc_hashable pc then Ok (dget pc_eqb pc d)
  else Raise (TypeError "unhashable type").

Definition pc_getitem {V} (pc : portclock) (d : list (portclock * V))
  : result V :=
  o <- pc_get pc d ;;
  match o with
  | Some v => Ok v
  | None => Raise (KeyError "(port, clock)")
  end.

Definition pc_setitem {V} (pc : portclock) (v : V) (d : list (portclock * V))
  : result (list (portclock * V)) :=
  if pc_hashable pc then Ok (dset pc_eqb pc v d)
  else Raise (TypeError "unhashable type").

(** [generate_port_clock_to_device_map]. *)
Definition generate_port_clock_to_device_map (mapping : pydict)
  : result (list (portclock * string)) :=
  for_each
    (fun item portclock_map =>
       let '(device_name, device_info) := item in
       match device_info with
       | VDict info =>
           portclocks <- find_all_port_clock_combinations info ;;
           for_each (fun pc m => pc_setitem pc device_name m)
                    portclocks portclock_map
       | _ => Ok portclock_map
       end)
    mapping [].

(** *** [InstrumentCompiler] and [LocalOscillator] *)

(** Dictionaries keyed by a hashable value (device and oscillator names). *)
Definition v_get {V} (k : value) (d : list (value * V)) : result (option V) :=
  if hashable k then Ok (dget py_eqb k d)
  else Raise (TypeError "unhashable type").

Definition v_getitem {V} (k : value) (d : list (value * V)) : result V :=
  o <- v_get k d ;;
  match o with
  | Some v => Ok v
  | None => Raise (KeyError "name")
  end.

(** The attributes set by [InstrumentCompiler.__init__]; [_pulses] and
    [_acquisitions] are [defaultdict(list)]. *)
Record InstrumentBase : Type := {
  name : value;
  total_play_time : Q;
  _pulses : list (portclock * list OpInfo);
  _acquisitions : list (portclock * list OpInfo)
}.

Definition InstrumentBase_init (name : value) (total_play_time : Q)
  : InstrumentBase :=
  {| name := name; total_play_time := total_play_time;
     _pulses := []; _acquisitions := [] |}.

(** [self._pulses[(port, clock)].append(pulse_info)]. *)
Definition append_at (pc : portclock) (op : OpInfo)
  (d : list (portclock * list OpInfo)) : result (list (portclock * list OpInfo)) :=
  cur <- pc_get pc d ;;
  pc_setitem pc (match cur with Some l => l | None => [] end ++ [op]) d.

Definition base_add_pulse (port clock : value) (pulse_info : OpInfo)
  (b : InstrumentBase) : result InstrumentBase :=
  p <- append_at (port, clock) pulse_info (_pulses b) ;;
  Ok {| name := name b; total_play_time := total_play_time b;
        _pulses := p; _acquisitions := _acquisitions b |}.

Definition base_add_acquisition (port clock : value) (acq_info : OpInfo)
  (b : InstrumentBase) : result InstrumentBase :=
  a <- append_at (port, clock) acq_info (_acquisitions b) ;;
  Ok {| name := name b; total_play_time := total_play_time b;
        _pulses := _pulses b; _acquisitions := a |}.

(** [portclocks_with_data], as a membership test. *)
Definition in_portclocks_with_data (pc : portclock) (b : InstrumentBase) : bool :=
  dmem pc_eqb pc (_pulses b) || dmem pc_eqb pc (_acquisitions b).

Record LocalOscillator : Type := {
  lo_base : InstrumentBase;
  _lo_freq : value
}.

Definition LocalOscillator_init (name : value) (total_play_time : Q)
  (lo_freq : value) : LocalOscillator :=
  {| lo_base := InstrumentBase_init name total_play_time;
     _lo_freq := lo_freq |}.

Definition LocalOscillator_assign_frequency (freq : value) (lo : LocalOscillator)
  : result LocalOscillator :=
  if negb (is_none (_lo_freq lo)) && negb (py_eqb freq (_lo_freq lo))
  then Raise (ValueError "Attempting to set LO to a new frequency")
  else Ok {| lo_base := lo_base lo; _lo_freq := freq |}.

Definition LocalOscillator_compile (lo : LocalOscillator) : pydict :=
  [("lo_freq", _lo_freq lo)].

(** *** [PulsarInstructions] (the literals the emitter uses) *)

Module PulsarInstructions.
Definition STOP := "stop".
Definition NEW_LINE := "".
Definition LOOP := "loop".
Definition MOVE := "move".
Definition SET_MARKER := "set_mrk".
Definition PLAY := "play".
Definition ACQUIRE := "acquire".
Definition WAIT := "wait".
Definition WAIT_SYNC := "wait_sync".
Definition UPDATE_PARAMETERS := "upd_param".
Definition SET_AWG_GAIN := "set_awg_gain".
End PulsarInstructions.

(** Class constants of [Pulsar_sequencer_base]. *)
Definition IMMEDIATE_SZ : Z := 2 ^ 16 - 1.
Definition GRID_TIME_ns : Z := 4.
Definition SAMPLING_RATE : Z := 1000000000.

(** *** [QASMProgram] *)

(** An operand of an instruction: an int or a str. *)
Inductive arg : Type :=
| AInt (n : Z)
| AStr (s : string).

(** One line of the program.  The source stores the line as four strings
    (see [get_instruction_as_list]); the embedding keeps the operands as
    passed to [emit], the four strings are recovered by [row_text]. *)
Record instr : Type := {
  label : option string;
  instruction : string;
  args : list arg;
  comment : option string
}.

Definition str_of_arg (a : arg) : string :=
  match a with
  | AInt n => str_of_Z n
  | AStr s => s
  end.

Definition get_instruction_as_list (instruction : string) (args : list arg)
  (label comment : option string) : result (list string) :=
  let max_args_amount := 3%nat in
  if (max_args_amount <? List.length args)%nat
  then Raise (SyntaxError "Too many arguments supplied")
  else
    let instr_args := String.concat "," (map str_of_arg args) in
    let label_str :=
      match label with Some l => (l ++ ":")%string | None => "" end in
    let comment_str :=
      match comment with Some c => ("# " ++ c)%string | None => "" end in
    Ok [label_str; instruction; instr_args; comment_str].

Definition row_text (i : instr) : result (list string) :=
  get_instruction_as_list (instruction i) (args i) (label i) (comment i).

Record QASMProgram : Type := {
  instructions : list instr;
  elapsed_time : Z
}.

Definition QASMProgram_new : QASMProgram :=
  {| instructions := []; elapsed_time := 0 |}.

Definition emit (instruction : string) (args : list arg)
  (label comment : option string) (q : QASMProgram) : result QASMProgram :=
  get_instruction_as_list instruction args label comment ;;;
  Ok {| instructions :=
          instructions q ++
          [{| label := label; instruction := instruction;
              args := args; comment := comment |}];
        elapsed_time := elapsed_time q |}.

Definition add_elapsed (t : Z) (q : QASMProgram) : QASMProgram :=
  {| instructions := instructions q; elapsed_time := elapsed_time q + t |}.

(** [for _ in range(n): self.emit(...)]. *)
Fixpoint emit_times (n : nat) (instruction : string) (args : list arg)
  (label comment : option string) (q : QASMProgram) : result QASMProgram :=
  match n with
  | O => Ok q
  | S n' =>
      q' <- emit instruction args label comment q ;;
      emit_times n' instruction args label comment q'
  end.

Definition auto_wait (wait_time : Z) (q : QASMProgram) : result QASMProgram :=
  if wait_time <=? 0 then Raise (ValueError "Invalid wait time")
  else
    let immediate_sz := IMMEDIATE_SZ in
    qt <- (if wait_time >? immediate_sz
           then
             q1 <- emit_times (Z.to_nat (wait_time / immediate_sz))
                     PulsarInstructions.WAIT [AInt immediate_sz]
                     None (Some "auto generated wait") q ;;
             Ok (q1, wait_time mod immediate_sz)
           else Ok (q, wait_time)) ;;
    let '(q1, time_left) := qt in
    q2 <- (if time_left >? 0
           then emit PulsarInstructions.WAIT [AInt time_left] None None q1
           else Ok q1) ;;
    Ok (add_elapsed wait_time q2).

(** [to_pulsar_time]: seconds (a float) to integer nanoseconds. *)
Definition to_pulsar_time (time : Q) : result Z :=
  let time_ns := round_half_even (time * inject_Z 1000000000) in
  if negb (time_ns mod GRID_TIME_ns =? 0)
  then Raise (ValueError "time interval is not a multiple of the grid time")
  else Ok time_ns.

Definition wait_till_start_operation (operation : OpInfo) (q : QASMProgram)
  : result QASMProgram :=
  start_time <- to_pulsar_time (timing operation) ;;
  let wait_time := start_time - elapsed_time q in
  if wait_time >? 0 then auto_wait wait_time q
  else if wait_time <? 0 then Raise (ValueError "Invalid timing")
  else Ok q.

Definition _expand_from_normalised_range (val : Q) : result Z :=
  let immediate_sz := IMMEDIATE_SZ in
  if Qlt_le_dec 1 (Qabs val)
  then Raise (ValueError "Parameter must be in the range -1.0 <= param <= 1.0")
  else Ok (Qfloor (val * inject_Z immediate_sz / 2)).

Definition update_runtime_settings (operation : OpInfo) (q : QASMProgram)
  : result QASMProgram :=
  match pulse_settings operation with
  | None => Raise (RuntimeError "No real-time settings found")
  | Some settings =>
      awg_gain_path0 <- _expand_from_normalised_range (awg_gain_0 settings) ;;
      awg_gain_path1 <- _expand_from_normalised_range (awg_gain_1 settings) ;;
      emit PulsarInstructions.SET_AWG_GAIN
           [AInt awg_gain_path0; AInt awg_gain_path1] None
           (Some ("setting gain for " ++ str_of_Z (uuid operation))%string) q
  end.

Definition wait_till_start_then_play (pulse : OpInfo) (idx0 idx1 : Z)
  (q : QASMProgram) : result QASMProgram :=
  q1 <- wait_till_start_operation pulse q ;;
  q2 <- update_runtime_settings pulse q1 ;;
  q3 <- emit PulsarInstructions.PLAY [AInt idx0; AInt idx1; AInt GRID_TIME_ns]
          None None q2 ;;
  Ok (add_elapsed GRID_TIME_ns q3).

Definition wait_till_start_then_acquire (acquisition : OpInfo) (idx0 idx1 : Z)
  (q : QASMProgram) : result QASMProgram :=
  q1 <- wait_till_start_operation acquisition q ;;
  q2 <- emit PulsarInstructions.ACQUIRE
          [AInt idx0; AInt idx1; AInt GRID_TIME_ns] None None q1 ;;
  Ok (add_elapsed GRID_TIME_ns q2).

(** *** Sorting the operations

    [sorted(op_list, key=lambda p: (p.timing, p.is_acquisition))].  Tuples
    compare lexicographically and [False < True].  Python's sort is
    stable; the stable arrangement of a list under a total preorder is
    unique, so a stable insertion sort computes the same list. *)
Definition key_le (a b : OpInfo) : bool :=
  match Qcompare (timing a) (timing b) with
  | Lt => true
  | Gt => false
  | Eq => implb (is_acquisition a) (is_acquisition b)
  end.

Fixpoint insert_op (x : OpInfo) (l : list OpInfo) : list OpInfo :=
  match l with
  | [] => [x]
  | y :: l' => if key_le x y then x :: y :: l' else y :: insert_op x l'
  end.

Fixpoint sorted (l : list OpInfo) : list OpInfo :=
  match l with
  | [] => []
  | x :: l' => insert_op x (sorted l')
  end.

(** *** Waveform dictionaries *)

Record wf_entry : Type := {
  wf_data : list Q;
  wf_index : Z
}.

Definition wf_dict := list (string * wf_entry).

Definition generate_waveform_names_from_uuid (uuid : Z) : string * string :=
  ((str_of_Z uuid ++ "_I")%string, (str_of_Z uuid ++ "_Q")%string).

(** A complex waveform: the list of (real, imaginary) samples. *)
Definition waveform := list (Q * Q).

Fixpoint _generate_waveform_dict_from (idx : Z)
  (waveforms_complex : list (Z * waveform)) (wf : wf_dict) : wf_dict :=
  match waveforms_complex with
  | [] => wf
  | (uuid, complex_data) :: rest =>
      let '(name_i, name_q) := generate_waveform_names_from_uuid uuid in
      let wf1 := dset String.eqb name_i
                   {| wf_data := map fst complex_data; wf_index := 2 * idx |}
                   wf in
      let wf2 := dset String.eqb name_q
                   {| wf_data := map snd complex_data;
                      wf_index := 2 * idx + 1 |} wf1 in
      _generate_waveform_dict_from (idx + 1) rest wf2
  end.

Definition _generate_waveform_dict (waveforms_complex : list (Z * waveform))
  : wf_dict :=
  _generate_waveform_dict_from 0 waveforms_complex [].

(** [get_indices_from_wf_dict]; subscripting [None] is a [TypeError]. *)
Definition get_indices_from_wf_dict (uuid : Z) (wf : option wf_dict)
  : result (Z * Z) :=
  let '(name_real, name_imag) := generate_waveform_names_from_uuid uuid in
  match wf with
  | None => Raise (TypeError "'NoneType' object is not subscriptable")
  | Some wf =>
      match dget String.eqb name_real wf with
      | None => Raise (KeyError name_real)
      | Some e0 =>
          match dget String.eqb name_imag wf with
          | None => Raise (KeyError name_imag)
          | Some e1 => Ok (wf_index e0, wf_index e1)
          end
      end
  end.

(** *** [generate_qasm_program] *)

(** The body of the [while len(op_queue) > 0] loop. *)
Definition emit_operation (awg_dict acq_dict : option wf_dict)
  (operation : OpInfo) (qasm : QASMProgram) : result QASMProgram :=
  if is_acquisition operation
  then
    idx <- get_indices_from_wf_dict (uuid operation) acq_dict ;;
    wait_till_start_then_acquire operation (fst idx) (snd idx) qasm
  else
    idx <- get_indices_from_wf_dict (uuid operation) awg_dict ;;
    wait_till_start_then_play operation (fst idx) (snd idx) qasm.

(** The program is returned as the [QASMProgram] object; the source
    returns its text, [str(qasm)]. *)
Definition generate_qasm_program (total_sequence_time : Q)
  (pulses : option (list OpInfo)) (awg_dict : option wf_dict)
  (acquisitions : option (list OpInfo)) (acq_dict : option wf_dict)
  (repetitions : Z) : result QASMProgram :=
  let loop_label := "start" in
  let loop_register := "R0" in
  let qasm := QASMProgram_new in
  qasm <- emit PulsarInstructions.WAIT_SYNC [AInt GRID_TIME_ns] None None qasm ;;
  qasm <- emit PulsarInstructions.SET_MARKER [AInt 1] None None qasm ;;
  let pulses := match pulses with None => [] | Some l => l end in
  let acquisitions := match acquisitions with None => [] | Some l => l end in
  let op_list := pulses ++ acquisitions in
  let op_list := sorted op_list in
  qasm <- emit PulsarInstructions.MOVE [AInt repetitions; AStr loop_register]
            None (Some ("iterator for loop with label " ++ loop_label)%string)
            qasm ;;
  qasm <- emit PulsarInstructions.NEW_LINE [] (Some loop_label) None qasm ;;
  qasm <- for_each (emit_operation awg_dict acq_dict) op_list qasm ;;
  end_time <- to_pulsar_time total_sequence_time ;;
  let wait_time := end_time - elapsed_time qasm in
  if wait_time <=? 0 then Raise (RuntimeError "Invalid timing detected")
  else
    qasm <- auto_wait wait_time qasm ;;
    qasm <- emit PulsarInstructions.LOOP
              [AStr loop_register; AStr ("@" ++ loop_label)%string]
              None None qasm ;;
    qasm <- emit PulsarInstructions.SET_MARKER [AInt 0] None None qasm ;;
    qasm <- emit PulsarInstructions.UPDATE_PARAMETERS [AInt GRID_TIME_ns]
              None None qasm ;;
    emit PulsarInstructions.STOP [] None None qasm.

(** *** Sequencers *)

Inductive seq_class : Type := QCM_sequencer | QRM_sequencer.

Definition AWG_OUTPUT_VOLT (c : seq_class) : Q :=
  match c with
  | QCM_sequencer => 5
  | QRM_sequencer => 1
  end.

Record Sequencer : Type := {
  seq_type : seq_class;
  parent_name : string;
  _name : string;
  port : value;
  clock : value;
  pulses : list OpInfo;
  acquisitions : list OpInfo;
  _settings : SequencerSettings;
  mixer_corrections : option MixerCorrections
}.

(** [Pulsar_sequencer_base.__init__]. *)
Definition Sequencer_init (c : seq_class) (parent : string) (name : string)
  (pc : portclock) (modulation_freq : value) : Sequencer :=
  {| seq_type := c; parent_name := parent; _name := name;
     port := fst pc; clock := snd pc;
     pulses := []; acquisitions := [];
     _settings := {| nco_en := false; sync_en := true;
                     modulation_freq := modulation_freq;
                     awg_offset_path_0 := 0; awg_offset_path_1 := 0;
                     duration := 0 |};
     mixer_corrections := None |}.

Definition seq_portclock (s : Sequencer) : portclock := (port s, clock s).

Definition has_data (s : Sequencer) : bool :=
  (0 <? List.length (acquisitions s))%nat || (0 <? List.length (pulses s))%nat.

Definition set_modulation_freq (freq : value) (s : Sequencer) : Sequencer :=
  {| seq_type := seq_type s; parent_name := parent_name s; _name := _name s;
     port := port s; clock := clock s;
     pulses := pulses s; acquisitions := acquisitions s;
     _settings := {| nco_en := nco_en (_settings s);
                     sync_en := sync_en (_settings s);
                     modulation_freq := freq;
                     awg_offset_path_0 := awg_offset_path_0 (_settings s);
                     awg_offset_path_1 := awg_offset_path_1 (_settings s);
                     duration := duration (_settings s) |};
     mixer_corrections := mixer_corrections s |}.

Definition set_pulses (l : list OpInfo) (s : Sequencer) : Sequencer :=
  {| seq_type := seq_type s; parent_name := parent_name s; _name := _name s;
     port := port s; clock := clock s;
     pulses := l; acquisitions := acquisitions s;
     _settings := _settings s; mixer_corrections := mixer_corrections s |}.

Definition set_acquisitions (l : list OpInfo) (s : Sequencer) : Sequencer :=
  {| seq_type := seq_type s; parent_name := parent_name s; _name := _name s;
     port := port s; clock := clock s;
     pulses := pulses s; acquisitions := l;
     _settings := _settings s; mixer_corrections := mixer_corrections s |}.

Definition set_mixer_corrections (m : MixerCorrections) (s : Sequencer)
  : Sequencer :=
  {| seq_type := seq_type s; parent_name := parent_name s; _name := _name s;
     port := port s; clock := clock s;
     pulses := pulses s; acquisitions := acquisitions s;
     _settings := _settings s; mixer_corrections := Some m |}.

(** [Pulsar_sequencer_base.assign_frequency]. *)
Definition Sequencer_assign_frequency (freq : value) (s : Sequencer)
  : result Sequencer :=
  if negb (py_eqb (modulation_freq (_settings s)) freq)
     && negb (is_none (modulation_freq (_settings s)))
  then Raise (ValueError "Attempting to set the modulation frequency again")
  else Ok (set_modulation_freq freq s).

(** *** Pulsars *)

Inductive pulsar_class : Type := Pulsar_QCM | Pulsar_QRM.

Definition SEQ_TYPE (c : pulsar_class) : seq_class :=
  match c with
  | Pulsar_QCM => QCM_sequencer
  | Pulsar_QRM => QRM_sequencer
  end.

Definition MAX_SEQUENCERS (c : pulsar_class) : nat :=
  match c with
  | Pulsar_QCM => 2
  | Pulsar_QRM => 1
  end.

Definition OUTPUT_TO_SEQ : list (string * Z) :=
  [("complex_output_0", 0); ("complex_output_1", 1)].

Record PulsarSettings : Type := {
  ref : value;
  hardware_averages : Z;
  acq_mode : string
}.

Definition extract_settings_from_mapping (mapping : pydict)
  : result PulsarSettings :=
  ref <- getitem "ref" mapping ;;
  Ok {| ref := ref; hardware_averages := 1;
        acq_mode := "SSBIntegrationComplex" |}.

Record Pulsar : Type := {
  pulsar_type : pulsar_class;
  base : InstrumentBase;
  hw_mapping : pydict;
  portclock_map : list (portclock * string);
  sequencers : list (string * Sequencer);
  pulsar_settings : PulsarSettings
}.

Definition set_base (b : InstrumentBase) (p : Pulsar) : Pulsar :=
  {| pulsar_type := pulsar_type p; base := b; hw_mapping := hw_mapping p;
     portclock_map := portclock_map p; sequencers := sequencers p;
     pulsar_settings := pulsar_settings p |}.

Definition set_sequencers (s : list (string * Sequencer)) (p : Pulsar) : Pulsar :=
  {| pulsar_type := pulsar_type p; base := base p; hw_mapping := hw_mapping p;
     portclock_map := portclock_map p; sequencers := s;
     pulsar_settings := pulsar_settings p |}.

Definition seq_name_of (n : Z) : string := ("seq" ++ str_of_Z n)%string.

(** [Pulsar_base._generate_portclock_to_seq_map].  The message of the
    first [NotImplementedError] is an f-string that evaluates
    [output_to_seq[io]], which raises [KeyError] on an unknown output. *)
Definition _generate_portclock_to_seq_map (hw_mapping : pydict)
  : result (list (portclock * string)) :=
  let output_to_seq := OUTPUT_TO_SEQ in
  for_each
    (fun item mapping =>
       let '(io, data) := item in
       match data with
       | VDict data =>
           port_clocks <- find_all_port_clock_combinations data ;;
           if (1 <? List.length port_clocks)%nat
           then match dget String.eqb io output_to_seq with
                | None => Raise (KeyError io)
                | Some _ =>
                    Raise (NotImplementedError
                             "Multiple sequencers per output is not yet supported")
                end
           else
             match port_clocks with
             | port_clock :: _ =>
                 match dget String.eqb io output_to_seq with
                 | None =>
                     Raise (NotImplementedError
                              "Attempting to use non-supported output")
                 | Some n => pc_setitem port_clock (seq_name_of n) mapping
                 end
             | [] => Ok mapping
             end
       | _ => Ok mapping
       end)
    hw_mapping [].

Section External.

(** Helpers of other packages the backend calls: [make_hash] and
    [without] of [quantify.utilities.general], and
    [MixerCorrections.from_dict] of [dataclasses_json]. *)
Variable make_hash : pydict -> Z.
Variable without : pydict -> list string -> result pydict.
Variable MixerCorrections_from_dict : value -> result MixerCorrections.

(** The numerical waveform pipeline of [_generate_awg_dict]
    ([_generate_waveform_data], [_apply_corrections_to_waveform] and
    [normalize_waveform_data]): the normalised samples of a pulse and
    the amplitudes [amp_i], [amp_q]. *)
Variable normalized_waveform :
  Sequencer -> OpInfo -> result (waveform * Q * Q).

(** Body of the loop of [Pulsar_base._construct_sequencers] over
    [self.hw_mapping.items()]. *)
Definition construct_sequencer (c : pulsar_class) (parent : string)
  (item : string * value) (sequencers : list (string * Sequencer))
  : result (list (string * Sequencer)) :=
  let '(io, io_cfg) := item in
  match io_cfg with
  | VDict io_cfg =>
      let portclock_dicts := find_inner_dicts_containing_key io_cfg "port" in
      if (1 <? List.length portclock_dicts)%nat
      then Raise (NotImplementedError
                    "Multiple sequencers per output is not yet supported")
      else
        match portclock_dicts with
        | [] => Raise (IndexError "list index out of range")
        | portclock_dict :: _ =>
            port <- getitem "port" portclock_dict ;;
            clock <- getitem "clock" portclock_dict ;;
            let portclock := (port, clock) in
            freq <- (if has_key "interm_freq" portclock_dict
                     then Ok VNone
                     else getitem "interm_freq" portclock_dict) ;;
            match dget String.eqb io OUTPUT_TO_SEQ with
            | None => Raise (KeyError io)
            | Some n =>
                let seq_name := seq_name_of n in
                let seq :=
                  Sequencer_init (SEQ_TYPE c) parent seq_name portclock freq in
                seq <- (match get "mixer_corrections" io_cfg with
                        | Some mc =>
                            m <- MixerCorrections_from_dict mc ;;
                            Ok (set_mixer_corrections m seq)
                        | None => Ok seq
                        end) ;;
                Ok (dset String.eqb seq_name seq sequencers)
            end
        end
  | _ => Ok sequencers
  end.

(** [Pulsar_base._construct_sequencers]. *)
Definition _construct_sequencers (c : pulsar_class) (parent : string)
  (hw_mapping : pydict) : result (list (string * Sequencer)) :=
  sequencers <- for_each (construct_sequencer c parent) hw_mapping [] ;;
  if (MAX_SEQUENCERS c <? List.length (dkeys sequencers))%nat
  then Raise (ValueError "Attempting to construct too many sequencer compilers")
  else Ok sequencers.

(** [Pulsar_base.__init__]. *)
Definition Pulsar_init (c : pulsar_class) (name : string)
  (total_play_time : Q) (hw_mapping : pydict) : result Pulsar :=
  portclock_map <- _generate_portclock_to_seq_map hw_mapping ;;
  sequencers <- _construct_sequencers c name hw_mapping ;;
  settings <- extract_settings_from_mapping hw_mapping ;;
  Ok {| pulsar_type := c;
        base := InstrumentBase_init (VStr name) total_play_time;
        hw_mapping := hw_mapping;
        portclock_map := portclock_map;
        sequencers := sequencers;
        pulsar_settings := settings |}.

(** [Pulsar_base.assign_modulation_frequency]. *)
Definition assign_modulation_frequency (pc : portclock) (freq : value)
  (p : Pulsar) : result Pulsar :=
  seq_name <- pc_getitem pc (portclock_map p) ;;
  match dget String.eqb seq_name (sequencers p) with
  | None => Raise (KeyError seq_name)
  | Some seq =>
      seq' <- Sequencer_assign_frequency freq seq ;;
      Ok (set_sequencers (dset String.eqb seq_name seq' (sequencers p)) p)
  end.

(** [Pulsar_sequencer_base._generate_awg_dict]: the amplitude check and
    the run-time gains of every pulse; returns the sequencer with the
    updated pulses and the waveform dictionary. *)
Definition _generate_awg_dict (seq : Sequencer) : result (Sequencer * wf_dict) :=
  let volt := AWG_OUTPUT_VOLT (seq_type seq) in
  st <- for_each
          (fun pulse st =>
             let '(done, waveforms_complex) := st in
             r <- normalized_waveform seq pulse ;;
             let '(raw_wf_data, amp_i, amp_q) := r in
             if Qlt_le_dec volt (Qabs amp_i)
             then Raise (ValueError
                           "Attempting to set amplitude to invalid value (I)")
             else if Qlt_le_dec volt (Qabs amp_q)
             then Raise (ValueError
                           "Attempting to set amplitude to invalid value (Q)")
             else
               let pulse' :=
                 set_pulse_settings pulse
                   {| awg_gain_0 := amp_i / volt; awg_gain_1 := amp_q / volt;
                      awg_offset_0 := 0; awg_offset_1 := 0 |} in
               let waveforms_complex' :=
                 if dmem Z.eqb (uuid pulse) waveforms_complex
                 then waveforms_complex
                 else waveforms_complex ++ [(uuid pulse, raw_wf_data)] in
               Ok (done ++ [pulse'], waveforms_complex'))
          (pulses seq) ([], []) ;;
  Ok (set_pulses (fst st) seq, _generate_waveform_dict (snd st)).

(** *** Instrument compilers as handled by the compilation functions *)

Inductive InstrumentCompiler : Type :=
| IC_Pulsar (p : Pulsar)
| IC_LocalOscillator (lo : LocalOscillator).

Definition compiler_base (c : InstrumentCompiler) : InstrumentBase :=
  match c with
  | IC_Pulsar p => base p
  | IC_LocalOscillator lo => lo_base lo
  end.

Definition add_pulse (port clock : value) (pulse_info : OpInfo)
  (c : InstrumentCompiler) : result InstrumentCompiler :=
  match c with
  | IC_Pulsar p =>
      b <- base_add_pulse port clock pulse_info (base p) ;;
      Ok (IC_Pulsar (set_base b p))
  | IC_LocalOscillator lo =>
      b <- base_add_pulse port clock pulse_info (lo_base lo) ;;
      Ok (IC_LocalOscillator {| lo_base := b; _lo_freq := _lo_freq lo |})
  end.

(** [add_acquisition]; [Pulsar_QCM] overrides it to raise. *)
Definition add_acquisition (port clock : value) (acq_info : OpInfo)
  (c : InstrumentCompiler) : result InstrumentCompiler :=
  match c with
  | IC_Pulsar p =>
      match pulsar_type p with
      | Pulsar_QCM =>
          Raise (RuntimeError "Pulsar QCM does not support acquisitions")
      | Pulsar_QRM =>
          b <- base_add_acquisition port clock acq_info (base p) ;;
          Ok (IC_Pulsar (set_base b p))
      end
  | IC_LocalOscillator lo =>
      b <- base_add_acquisition port clock acq_info (lo_base lo) ;;
      Ok (IC_LocalOscillator {| lo_base := b; _lo_freq := _lo_freq lo |})
  end.

(** [Pulsar_base._distribute_data], with the override of [Pulsar_QCM]. *)
Definition _distribute_data (p : Pulsar) : result Pulsar :=
  match pulsar_type p, _acquisitions (base p) with
  | Pulsar_QCM, _ :: _ =>
      Raise (RuntimeError "Attempting to add acquisitions to a QCM")
  | _, _ =>
      let seqs1 :=
        fold_left
          (fun seqs item =>
             let '(portclock, pulse_data_list) := item in
             map (fun kv =>
                    if pc_eqb (seq_portclock (snd kv)) portclock
                    then (fst kv, set_pulses pulse_data_list (snd kv))
                    else kv) seqs)
          (_pulses (base p)) (sequencers p) in
      let seqs2 :=
        fold_left
          (fun seqs item =>
             let '(portclock, acq_data_list) := item in
             map (fun kv =>
                    if pc_eqb (seq_portclock (snd kv)) portclock
                    then (fst kv, set_acquisitions acq_data_list (snd kv))
                    else kv) seqs)
          (_acquisitions (base p)) seqs1 in
      Ok (set_sequencers seqs2 p)
  end.

(** [device_compilers[dev].method(...)] on a dictionary of compilers. *)
Definition update_device (dev : string)
  (f : InstrumentCompiler -> result InstrumentCompiler)
  (device_compilers : list (string * InstrumentCompiler))
  : result (list (string * InstrumentCompiler)) :=
  match dget String.eqb dev device_compilers with
  | None => Raise (KeyError dev)
  | Some c =>
      c' <- f c ;;
      Ok (dset String.eqb dev c' device_compilers)
  end.

(** *** The schedule, as far as the backend reads it *)

Record Operation : Type := {
  valid_pulse : bool;
  valid_acquisition : bool;
  pulse_info : list pydict;
  acquisition_info : list pydict
}.

Record TimingConstraint : Type := {
  operation_hash : Z;
  abs_time : Q
}.

Record Schedule : Type := {
  timing_constraints : list TimingConstraint;
  operations : list (Z * Operation);
  resources : list (string * pydict);
  repetitions : Z
}.

(** [x + d["t0"]] for a float [x]. *)
Definition add_t0 (start : Q) (d : pydict) : result Q :=
  match get "t0" d with
  | Some t0 =>
      match num_of t0 with
      | Some t => Ok (start + t)%Q
      | None => Raise (TypeError "unsupported operand type(s) for +")
      end
  | None => Ok start
  end.

(** [clock in schedule_resources] and [schedule_resources[clock]]. *)
Definition resource_lookup (clock : value) (schedule_resources : list (string * pydict))
  : result (option pydict) :=
  match clock with
  | VStr c => Ok (dget String.eqb c schedule_resources)
  | VList _ | VDict _ => Raise (TypeError "unhashable type")
  | _ => Ok None
  end.

(** *** [generate_ext_local_oscillators] *)

Definition generate_ext_local_oscillators (total_play_time : Q)
  (hardware_cfg : pydict) : result (list (value * LocalOscillator)) :=
  for_each
    (fun device lo_dict =>
       match device with
       | VDict device =>
           for_each
             (fun io_cfg lo_dict =>
                match io_cfg with
                | VDict io_cfg =>
                    match get "lo_name" io_cfg with
                    | Some lo_name =>
                        found <- v_get lo_name lo_dict ;;
                        let lo_dict :=
                          match found with
                          | Some _ => lo_dict
                          | None =>
                              dset py_eqb lo_name
                                (LocalOscillator_init lo_name total_play_time VNone)
                                lo_dict
                          end in
                        match get "lo_freq" io_cfg with
                        | Some lo_freq =>
                            lo <- v_getitem lo_name lo_dict ;;
                            lo' <- LocalOscillator_assign_frequency lo_freq lo ;;
                            Ok (dset py_eqb lo_name lo' lo_dict)
                        | None => Ok lo_dict
                        end
                    | None => Ok lo_dict
                    end
                | _ => Ok lo_dict
                end)
             (dvalues device) lo_dict
       | _ => Ok lo_dict
       end)
    (dvalues hardware_cfg) [].

(** *** [_assign_frequencies] *)

(** The state threaded through the loops: the device compilers, the
    oscillator compilers and the set [los_used]. *)
Definition freq_state : Type :=
  (list (string * InstrumentCompiler) * list (value * LocalOscillator)
   * list value)%type.

(** [lo_obj.assign_frequency(freq)], [lo_obj] being the object stored in
    [lo_compilers] under [lo_key]. *)
Definition lo_assign (lo_key : value) (freq : value)
  (los : list (value * LocalOscillator)) : result (list (value * LocalOscillator)) :=
  lo_obj <- v_getitem lo_key los ;;
  lo' <- LocalOscillator_assign_frequency freq lo_obj ;;
  Ok (dset py_eqb lo_key lo' los).

(** [getattr(device_compilers[dev_name], "assign_modulation_frequency")]
    followed by the call. *)
Definition call_assign_modulation_frequency (pc : portclock) (freq : value)
  (c : InstrumentCompiler) : result InstrumentCompiler :=
  match c with
  | IC_Pulsar p =>
      p' <- assign_modulation_frequency pc freq p ;;
      Ok (IC_Pulsar p')
  | IC_LocalOscillator _ =>
      Raise (AttributeError "assign_modulation_frequency")
  end.

(** The test [(port, clock) in device_compilers[dev_name].portclocks_with_data]
    and the update of [los_used]. *)
Definition mark_used (dev_name : string) (pc : portclock) (lo_obj_name : value)
  (devs : list (string * InstrumentCompiler)) (los_used : list value)
  : result (list value) :=
  match dget String.eqb dev_name devs with
  | None => Raise (KeyError dev_name)
  | Some c =>
      if in_portclocks_with_data pc (compiler_base c)
      then Ok (los_used ++ [lo_obj_name])
      else Ok los_used
  end.

(** Body of the loop over [associated_portclock_dicts] when no LO
    frequency is given. *)
Definition assign_from_interm_freq (lo_key : value)
  (portclock_mapping : list (portclock * string))
  (schedule_resources : list (string * pydict))
  (portclock_dict : pydict) (st : freq_state) : result freq_state :=
  let '(devs, los, los_used) := st in
  port <- getitem "port" portclock_dict ;;
  clock <- getitem "clock" portclock_dict ;;
  interm_freq <- getitem "interm_freq" portclock_dict ;;
  res <- resource_lookup clock schedule_resources ;;
  match res with
  | Some clock_resource =>
      cl_freq <- getitem "freq" clock_resource ;;
      dev_name <- pc_getitem (port, clock) portclock_mapping ;;
      lo_obj <- v_getitem lo_key los ;;
      los_used <- mark_used dev_name (port, clock) (name (lo_base lo_obj))
                    devs los_used ;;
      devs <- update_device dev_name
                (call_assign_modulation_frequency (port, clock) interm_freq)
                devs ;;
      lo_freq <- py_sub cl_freq interm_freq ;;
      los <- lo_assign lo_key lo_freq los ;;
      Ok (devs, los, los_used)
  | None => Ok (devs, los, los_used)
  end.

(** Body of the loop over [associated_portclock_dicts] when the LO
    frequency is given. *)
Definition assign_from_lo_freq (lo_key : value) (lo_freq : value)
  (portclock_mapping : list (portclock * string))
  (schedule_resources : list (string * pydict))
  (portclock_dict : pydict) (st : freq_state) : result freq_state :=
  let '(devs, los, los_used) := st in
  port <- getitem "port" portclock_dict ;;
  clock <- getitem "clock" portclock_dict ;;
  dev_name <- pc_getitem (port, clock) portclock_mapping ;;
  lo_obj <- v_getitem lo_key los ;;
  los_used <- mark_used dev_name (port, clock) (name (lo_base lo_obj))
                devs los_used ;;
  match dget String.eqb dev_name devs with
  | None => Raise (KeyError dev_name)
  | Some (IC_LocalOscillator _) =>
      Raise (AttributeError "assign_modulation_frequency")
  | Some (IC_Pulsar _) =>
      res <- resource_lookup clock schedule_resources ;;
      match res with
      | Some clock_resource =>
          cl_freq <- getitem "freq" clock_resource ;;
          interm_freq <- py_sub cl_freq lo_freq ;;
          devs <- update_device dev_name
                    (call_assign_modulation_frequency (port, clock) interm_freq)
                    devs ;;
          Ok (devs, los, los_used)
      | None => Ok (devs, los, los_used)
      end
  end.

(** Body of the loop over [lo_info_dicts]. *)
Definition assign_for_lo (portclock_mapping : list (portclock * string))
  (schedule_resources : list (string * pydict))
  (lo_info_dict : pydict) (st : freq_state) : result freq_state :=
  let '(devs, los, los_used) := st in
  lo_key <- getitem "lo_name" lo_info_dict ;;
  v_getitem lo_key los ;;;
  let associated_portclock_dicts :=
    find_inner_dicts_containing_key lo_info_dict "port" in
  let lo_freq :=
    match get "lo_freq" lo_info_dict with
    | Some f => f
    | None => VNone
    end in
  if is_none lo_freq
  then for_each
         (assign_from_interm_freq lo_key portclock_mapping schedule_resources)
         associated_portclock_dicts st
  else
    los <- lo_assign lo_key lo_freq los ;;
    for_each
      (assign_from_lo_freq lo_key lo_freq portclock_mapping schedule_resources)
      associated_portclock_dicts (devs, los, los_used).

(** [_assign_frequencies]: returns the device compilers and the pruned
    [lo_compilers], both of which the source updates in place. *)
Definition _assign_frequencies
  (device_compilers : list (string * InstrumentCompiler))
  (lo_compilers : list (value * LocalOscillator))
  (hw_mapping : pydict)
  (portclock_mapping : list (portclock * string))
  (schedule_resources : list (string * pydict))
  : result (list (string * InstrumentCompiler) * list (value * LocalOscillator)) :=
  let lo_info_dicts := find_inner_dicts_containing_key hw_mapping "lo_name" in
  st <- for_each (assign_for_lo portclock_mapping schedule_resources)
          lo_info_dicts (device_compilers, lo_compilers, []) ;;
  let '(devs, los, los_used) := st in
  Ok (devs, filter (fun kv => existsb (py_eqb (fst kv)) los_used) los).

(** *** [_assign_pulse_and_acq_info_to_devices] *)

(** The loop body over [op_data.data["pulse_info"]]. *)
Definition assign_pulse (operation_start_time : Q)
  (portclock_mapping : list (portclock * string))
  (pulse_data : pydict) (device_compilers : list (string * InstrumentCompiler))
  : result (list (string * InstrumentCompiler)) :=
  pulse_start_time <- add_t0 operation_start_time pulse_data ;;
  port <- getitem "port" pulse_data ;;
  clock <- getitem "clock" pulse_data ;;
  if is_none port then Ok device_compilers
  else
    hashed <- without pulse_data ["t0"] ;;
    let uuid := make_hash hashed in
    let combined_data :=
      {| uuid := uuid; data := pulse_data; timing := pulse_start_time;
         pulse_settings := None |} in
    dev <- pc_getitem (port, clock) portclock_mapping ;;
    update_device dev (add_pulse port clock combined_data) device_compilers.

(** The loop body over [op_data.data["acquisition_info"]].  The entries
    of [acq_data["waveforms"]] are dicts ([without] copies them); an entry
    of another type is reported as an [AttributeError]. *)
Definition assign_acquisition (operation_start_time : Q)
  (portclock_mapping : list (portclock * string))
  (acq_data : pydict) (device_compilers : list (string * InstrumentCompiler))
  : result (list (string * InstrumentCompiler)) :=
  acq_start_time <- add_t0 operation_start_time acq_data ;;
  port <- getitem "port" acq_data ;;
  clock <- getitem "clock" acq_data ;;
  if is_none port then Ok device_compilers
  else
    hashed_dict <- without acq_data ["t0"; "waveforms"] ;;
    waveforms <- getitem "waveforms" acq_data ;;
    stripped <-
      match waveforms with
      | VList l =>
          for_each
            (fun acq acc =>
               match acq with
               | VDict acq => w <- without acq ["t0"] ;; Ok (acc ++ [VDict w])
               | _ => Raise (AttributeError "copy")
               end) l []
      | _ => Raise (TypeError "object is not iterable")
      end ;;
    let hashed_dict := dset String.eqb "waveforms" (VList stripped) hashed_dict in
    let uuid := make_hash hashed_dict in
    let combined_data :=
      {| uuid := uuid; data := acq_data; timing := acq_start_time;
         pulse_settings := None |} in
    dev <- pc_getitem (port, clock) portclock_mapping ;;
    update_device dev (add_acquisition port clock combined_data) device_compilers.

Definition _assign_pulse_and_acq_info_to_devices (schedule : Schedule)
  (device_compilers : list (string * InstrumentCompiler))
  (portclock_mapping : list (portclock * string))
  : result (list (string * InstrumentCompiler)) :=
  for_each
    (fun op_timing_constraint device_compilers =>
       let op_hash := operation_hash op_timing_constraint in
       match dget Z.eqb op_hash (operations schedule) with
       | None => Raise (KeyError "operation_hash")
       | Some op_data =>
           if negb (valid_pulse op_data) && negb (valid_acquisition op_data)
           then Raise (RuntimeError "Operation is not a valid pulse or acquisition")
           else
             let operation_start_time := abs_time op_timing_constraint in
             device_compilers <-
               for_each (assign_pulse operation_start_time portclock_mapping)
                        (pulse_info op_data) device_compilers ;;
             for_each (assign_acquisition operation_start_time portclock_mapping)
                      (acquisition_info op_data) device_compilers
       end)
    (timing_constraints schedule) device_compilers.

(** *** [_construct_compiler_objects]

    [getattr(sys.modules[__name__], device_type)] is resolved for the
    compiler classes of the module; any other name is reported as a
    missing attribute. *)
Definition _construct_compiler_objects (total_play_time : Q) (mapping : pydict)
  : result (list (string * InstrumentCompiler)) :=
  for_each
    (fun item device_compilers =>
       let '(device, dev_cfg) := item in
       match dev_cfg with
       | VDict cfg =>
           device_type <- getitem "type" cfg ;;
           match device_type with
           | VStr "Pulsar_QCM" =>
               p <- Pulsar_init Pulsar_QCM device total_play_time cfg ;;
               Ok (dset String.eqb device (IC_Pulsar p) device_compilers)
           | VStr "Pulsar_QRM" =>
               p <- Pulsar_init Pulsar_QRM device total_play_time cfg ;;
               Ok (dset String.eqb device (IC_Pulsar p) device_compilers)
           | VStr "LocalOscillator" =>
               Ok (dset String.eqb device
                     (IC_LocalOscillator
                        (LocalOscillator_init (VStr device) total_play_time dev_cfg))
                     device_compilers)
           | VStr _ => Raise (AttributeError "module has no such compiler class")
           | _ => Raise (TypeError "getattr(): attribute name must be string")
           end
       | _ => Ok device_compilers
       end)
    mapping [].

End External.

(** *** Utility functions *)

(** [s.replace(char, new)] for single characters. *)
Fixpoint replace_char (char new : ascii) (s : string) : string :=
  match s with
  | EmptyString => EmptyString
  | String a s' =>
      String (if Ascii.eqb a char then new else a) (replace_char char new s')
  end.

(** The characters of [invalid]: comma, angle brackets, colon, double
    quote (character 34), slash, backslash, bar, exclamation and question
    marks, star and space. *)
Definition invalid_chars : list ascii :=
  list_ascii_of_string ",<>:" ++ [ascii_of_nat 34]
  ++ list_ascii_of_string "/\|!?* ".

(** [_sanitize_file_name]: the loop [for char in invalid] replaces one
    character at a time.  A file name is taken as its bytes; the invalid
    characters are ASCII, so no byte of a multi-byte character is touched. *)
Definition _sanitize_file_name (filename : string) : string :=
  let invalid := invalid_chars in
  fold_left (fun sanitized_fn char => replace_char char "_"%char sanitized_fn)
            invalid filename.

End qblox_backend.

(** ** The helpers of [quantify_scheduler/backends/qblox/helpers.py] *)

Module helpers.

Import qblox_backend.

(** [constants.GRID_TIME]. *)
Definition GRID_TIME : Z := 4.

(** [to_grid_time]. *)
Definition to_grid_time (time : Q) (grid_time_ns : Z) : result Z :=
  let time_ns := round_half_even (time * inject_Z 1000000000) in
  if negb (time_ns mod grid_time_ns =? 0)
  then Raise (ValueError "time interval is not a multiple of the grid time")
  else Ok time_ns.

(** *** [determine_clock_lo_interm_freqs] *)

Record Frequencies : Type := {
  Frequencies_clock : option Q;
  LO : option Q;
  IF : option Q
}.

(** The nested function [_downconvert_clock]; the boolean tells whether
    the [RuntimeWarning] about a zero downconverter frequency is issued. *)
Definition _downconvert_clock (downconverter_freq clock_freq : Q)
  : result (Q * bool) :=
  let warned := Qeq_bool downconverter_freq 0 in
  if Qlt_le_dec downconverter_freq 0
  then Raise (ValueError "Downconverter frequency must be positive")
  else if Qlt_le_dec downconverter_freq clock_freq
  then Raise (ValueError
                "Downconverter frequency must be greater than clock frequency")
  else Ok ((downconverter_freq - clock_freq)%Q, warned).

(** Returns the frequencies and whether a warning was issued. *)
Definition determine_clock_lo_interm_freqs (clock_freq : Q)
  (lo_freq interm_freq : option Q) (downconverter_freq : option Q)
  (mix_lo : bool) : result (Frequencies * bool) :=
  cw <- match downconverter_freq with
        | Some d =>
            r <- _downconvert_clock d clock_freq ;;
            Ok (fst r, snd r)
        | None => Ok (clock_freq, false)
        end ;;
  let '(clock, warned) := cw in
  if negb mix_lo
  then Ok ({| Frequencies_clock := Some clock; LO := Some clock; IF := None |},
           warned)
  else
    let lo1 := match interm_freq with
               | Some i => Some (clock - i)%Q
               | None => lo_freq
               end in
    let if1 := match lo_freq with
               | Some l => Some (clock - l)%Q
               | None => interm_freq
               end in
    Ok ({| Frequencies_clock := Some clock; LO := lo1; IF := if1 |}, warned).

(** *** The schedule and the compilers seen by the distributor *)

Record OpInfo : Type := {
  name : string;
  data : pydict;
  timing : Q
}.

Record Operation : Type := {
  is_WindowOperation : bool;
  op_name : string;
  valid_pulse : bool;
  valid_acquisition : bool;
  pulse_info : list pydict;
  acquisition_info : list pydict
}.

Record Schedulable : Type := {
  operation_repr : string;
  abs_time : Q
}.

Record Schedule : Type := {
  schedulables : list (string * Schedulable);
  operations : list (string * Operation)
}.

(** Modelled from the spec: the compiler class whose [add_pulse] and
    [add_acquisition] the distributor calls ([compiler_abc.InstrumentCompiler])
    is not among the sources.  As for the class of the same name in
    [qblox_backend.py], and as the tests of [test_compiler_abc.py] read
    [component._pulses[(port, clock)]], a compiler keeps the lists of
    pulses and acquisitions it received under their (port, clock). *)
Record InstrumentCompiler : Type := {
  _pulses : list (portclock * list OpInfo);
  _acquisitions : list (portclock * list OpInfo)
}.

Definition append_at (pc : portclock) (op : OpInfo)
  (d : list (portclock * list OpInfo))
  : result (list (portclock * list OpInfo)) :=
  cur <- pc_get pc d ;;
  pc_setitem pc (match cur with Some l => l | None => [] end ++ [op]) d.

Definition add_pulse (port clock : value) (pulse_info : OpInfo)
  (c : InstrumentCompiler) : result InstrumentCompiler :=
  p <- append_at (port, clock) pulse_info (_pulses c) ;;
  Ok {| _pulses := p; _acquisitions := _acquisitions c |}.

Definition add_acquisition (port clock : value) (acq_info : OpInfo)
  (c : InstrumentCompiler) : result InstrumentCompiler :=
  a <- append_at (port, clock) acq_info (_acquisitions c) ;;
  Ok {| _pulses := _pulses c; _acquisitions := a |}.

Definition update_device (dev : string)
  (f : InstrumentCompiler -> result InstrumentCompiler)
  (device_compilers : list (string * InstrumentCompiler))
  : result (list (string * InstrumentCompiler)) :=
  match dget String.eqb dev device_compilers with
  | None => Raise (KeyError dev)
  | Some c =>
      c' <- f c ;;
      Ok (dset String.eqb dev c' device_compilers)
  end.

Definition add_t0 (start : Q) (d : pydict) : result Q :=
  match get "t0" d with
  | Some t0 =>
      match num_of t0 with
      | Some t => Ok (start + t)%Q
      | None => Raise (TypeError "unsupported operand type(s) for +")
      end
  | None => Ok start
  end.

Section External.

(** [find_all_port_clock_combinations] is imported from
    [quantify_scheduler.helpers.collections] and [without] from
    [quantify_core.utilities.general]; neither is among the sources. *)
Variable find_all_port_clock_combinations : pydict -> result (list portclock).
Variable without : pydict -> list string -> result pydict.

(** [generate_port_clock_to_device_map]. *)
Definition generate_port_clock_to_device_map (hardware_cfg : pydict)
  : result (list (portclock * string)) :=
  for_each
    (fun item portclock_map =>
       let '(device_name, device_info) := item in
       match device_info with
       | VDict info =>
           portclocks <- find_all_port_clock_combinations info ;;
           for_each (fun pc m => pc_setitem pc device_name m)
                    portclocks portclock_map
       | _ => Ok portclock_map
       end)
    hardware_cfg [].

(** The branch [if port is None]: the loop over
    [portclock_mapping.items()]. *)
Definition distribute_clock_operation (clock : value) (combined_data : OpInfo)
  (portclock_mapping : list (portclock * string))
  (device_compilers : list (string * InstrumentCompiler))
  : result (list (string * InstrumentCompiler)) :=
  for_each
    (fun item device_compilers =>
       let '((map_port, map_clock), device_name) := item in
       if py_eqb map_clock clock
       then update_device device_name (add_pulse map_port clock combined_data)
                          device_compilers
       else Ok device_compilers)
    portclock_mapping device_compilers.

(** The loop body over [op_data.data["pulse_info"]]. *)
Definition assign_pulse (op_data : Operation) (operation_start_time : Q)
  (portclock_mapping : list (portclock * string))
  (pulse_data : pydict) (device_compilers : list (string * InstrumentCompiler))
  : result (list (string * InstrumentCompiler)) :=
  pulse_start_time <- add_t0 operation_start_time pulse_data ;;
  match to_grid_time pulse_start_time GRID_TIME with
  | Raise (ValueError _) =>
      Raise (ValueError "operation start time does not align with the grid time")
  | Raise e => Raise e
  | Ok _ =>
      if negb (is_none (match get "reference_magnitude" pulse_data with
                        | Some v => v
                        | None => VNone
                        end))
      then Raise (NotImplementedError "reference_magnitude")
      else
        port <- getitem "port" pulse_data ;;
        clock <- getitem "clock" pulse_data ;;
        let combined_data :=
          {| name := op_name op_data; data := pulse_data;
             timing := pulse_start_time |} in
        if is_none port
        then distribute_clock_operation clock combined_data portclock_mapping
                                        device_compilers
        else
          found <- pc_get (port, clock) portclock_mapping ;;
          match found with
          | None => Raise (KeyError "Could not assign pulse data to device")
          | Some device_name =>
              update_device device_name (add_pulse port clock combined_data)
                            device_compilers
          end
  end.

(** The loop body over [op_data.data["acquisition_info"]].  The entries
    of [acq_data["waveforms"]] are dicts; an entry of another type is
    reported as a [TypeError]. *)
Definition assign_acquisition (op_data : Operation) (operation_start_time : Q)
  (portclock_mapping : list (portclock * string))
  (acq_data : pydict) (device_compilers : list (string * InstrumentCompiler))
  : result (list (string * InstrumentCompiler)) :=
  acq_start_time <- add_t0 operation_start_time acq_data ;;
  port <- getitem "port" acq_data ;;
  clock <- getitem "clock" acq_data ;;
  if is_none port then Ok device_compilers
  else
    without acq_data ["t0"; "waveforms"] ;;;
    waveforms <- getitem "waveforms" acq_data ;;
    match waveforms with
    | VList l =>
        for_each
          (fun acq (acc : list value) =>
             match acq with
             | VDict d =>
                 if has_key "t0" d
                 then w <- without d ["t0"] ;; Ok (acc ++ [VDict w])
                 else Ok (acc ++ [acq])
             | _ => Raise (TypeError "weighting waveform is not a dict")
             end) l []
    | _ => Raise (TypeError "object is not iterable")
    end ;;;
    let combined_data :=
      {| name := op_name op_data; data := acq_data;
         timing := acq_start_time |} in
    found <- pc_get (port, clock) portclock_mapping ;;
    match found with
    | None => Raise (KeyError "Could not assign acquisition data to device")
    | Some device_name =>
        update_device device_name (add_acquisition port clock combined_data)
                      device_compilers
    end.

Definition assign_pulse_and_acq_info_to_devices (schedule : Schedule)
  (device_compilers : list (string * InstrumentCompiler))
  (hardware_cfg : pydict) : result (list (string * InstrumentCompiler)) :=
  portclock_mapping <- generate_port_clock_to_device_map hardware_cfg ;;
  for_each
    (fun schedulable device_compilers =>
       let op_hash := operation_repr schedulable in
       match dget String.eqb op_hash (operations schedule) with
       | None => Raise (KeyError op_hash)
       | Some op_data =>
           if is_WindowOperation op_data then Ok device_compilers
           else if negb (valid_pulse op_data) && negb (valid_acquisition op_data)
           then Raise (RuntimeError "Operation is not a valid pulse or acquisition")
           else
             let operation_start_time := abs_time schedulable in
             device_compilers <-
               for_each
                 (assign_pulse op_data operation_start_time portclock_mapping)
                 (pulse_info op_data) device_compilers ;;
             for_each
               (assign_acquisition op_data operation_start_time portclock_mapping)
               (acquisition_info op_data) device_compilers
       end)
    (dvalues (schedulables schedule)) device_compilers.

End External.

(** *** Grid time *)


(** *** Output and input names *)

(** [sub in s] for strings. *)
Fixpoint contains (sub s : string) : bool :=
  prefix sub s ||
  match s with
  | EmptyString => false
  | String _ s' => contains sub s'
  end.

(** [output_name_to_outputs]: [None] without ["output"] in the name, the
    tuple of the table otherwise ([KeyError] for a name not in the table). *)
Definition output_name_to_outputs (name : string) : result (option (list Z)) :=
  if negb (contains "output" name) then Ok None
  else
    match dget String.eqb name
            [("complex_output_0", [0; 1]);
             ("complex_output_1", [2; 3]);
             ("real_output_0", [0]);
             ("real_output_1", [1]);
             ("real_output_2", [2]);
             ("real_output_3", [3])] with
    | Some io => Ok (Some io)
    | None => Raise (KeyError name)
    end.

(** [input_name_to_inputs]. *)
Definition input_name_to_inputs (name : string) : result (option (list Z)) :=
  if negb (contains "input" name) then Ok None
  else
    match dget String.eqb name
            [("complex_input_0", [0; 1]);
             ("real_input_0", [0]);
             ("real_input_1", [1])] with
    | Some io => Ok (Some io)
    | None => Raise (KeyError name)
    end.

(** The outcome of a function that also checks conditions with [assert]:
    a failed assertion is kept apart from the exceptions of [exn]. *)
Inductive checked (A : Type) : Type :=
| Returns (a : A)
| Raises (e : exn)
| AssertionError (msg : string).

Arguments Returns {A} a.
Arguments Raises {A} e.
Arguments AssertionError {A} msg.

(** [io_mode_from_ios], on the tuple [io]. *)
Definition io_mode_from_ios (io : list Z) : checked string :=
  if (2 <? List.length io)%nat
  then Raises (RuntimeError "Too many io specified for this channel.")
  else if (List.length io =? 2)%nat
  then
    let io0 := nth 0 io 0 in
    let io1 := nth 1 io 0 in
    if negb ((io0 - io1) ^ 2 =? 1)
    then AssertionError
           "Attempting to use two outputs that are not next to each other."
    else if existsb (Z.eqb 1) io && existsb (Z.eqb 2) io
    then AssertionError
           "Attempting to use output 1 and output 2 together"
    else Returns "complex"
  else
    match io with
    | output :: _ => Returns (if output mod 2 =? 0 then "real" else "imag")
    | [] => Raises (IndexError "tuple index out of range")
    end.

(** *** Waveform dictionaries *)

(** [generate_waveform_names_from_uuid], for a [str] identifier. *)
Definition generate_waveform_names_from_uuid (uuid : string) : string * string :=
  ((uuid ++ "_I")%string, (uuid ++ "_Q")%string).

(** [generate_waveform_dict]: the loop over
    [enumerate(waveforms_complex.items())], from index [idx] on. *)
Fixpoint generate_waveform_dict_from (idx : Z)
  (waveforms_complex : list (string * waveform)) (wf : wf_dict) : wf_dict :=
  match waveforms_complex with
  | [] => wf
  | (uuid, complex_data) :: rest =>
      let '(name_i, name_q) := generate_waveform_names_from_uuid uuid in
      let wf1 := dset String.eqb name_i
                   {| wf_data := map fst complex_data; wf_index := 2 * idx |}
                   wf in
      let wf2 := dset String.eqb name_q
                   {| wf_data := map snd complex_data;
                      wf_index := 2 * idx + 1 |} wf1 in
      generate_waveform_dict_from (idx + 1) rest wf2
  end.

Definition generate_waveform_dict (waveforms_complex : list (string * waveform))
  : wf_dict :=
  generate_waveform_dict_from 0 waveforms_complex [].

(** A numpy array is real or complex by its dtype ([np.isrealobj]). *)
Inductive ndarray : Type :=
| RealArray (samples : list Q)
| ComplexArray (samples : waveform).

Section Hashing.

(** [generate_uuid_from_wf_data] is the text of Python's [hash] of the
    rounded samples; the hash is a function of the samples within one
    process, nothing more is known of it. *)
Variable generate_uuid_from_wf_data : list Q -> string.

(** [add_to_wf_dict_if_unique]: returns the (updated) dictionary, the
    uuid and the index. *)
Definition add_to_wf_dict_if_unique (wf_dict : qblox_backend.wf_dict)
  (waveform : ndarray) : result (qblox_backend.wf_dict * string * Z) :=
  match waveform with
  | ComplexArray _ => Raise (RuntimeError "This function only accepts real arrays.")
  | RealArray samples =>
      let uuid := generate_uuid_from_wf_data samples in
      match dget String.eqb uuid wf_dict with
      | Some entry => Ok (wf_dict, uuid, wf_index entry)
      | None =>
          let index := Z.of_nat (List.length wf_dict) in
          Ok (dset String.eqb uuid
                {| wf_data := samples; wf_index := index |} wf_dict,
              uuid, index)
      end
  end.

End Hashing.

End helpers.

(** ** Statements of the specification, for comparison with the code *)

Module Spec.

Import qblox_backend.

Definition wait_row (n : Z) (c : option string) : instr :=
  {| label := None; instruction := "wait"; args := [AInt n]; comment := c |}.

(** Wait expansion as the specification words it: [wait W] when
    [W <= 65535], else [W / 65535] times [wait 65535] and a final
    [wait (W mod 65535)] when that is not zero. *)
Definition spec_wait_expansion (W : Z) : list instr :=
  if W <=? 65535 then [wait_row W None]
  else
    repeat (wait_row 65535 (Some "auto generated wait")) (Z.to_nat (W / 65535))
    ++ (if W mod 65535 =? 0 then [] else [wait_row (W mod 65535) None]).



(** The lines of a program that start an operation. *)
Definition is_op_row (i : instr) : bool :=
  String.eqb (instruction i) "play" || String.eqb (instruction i) "acquire".

(** The line that starts an operation: [play] for a pulse, [acquire] for
    an acquisition, with its two waveform indices and the grid time. *)
Definition op_row (awg_dict acq_dict : option wf_dict) (op : OpInfo)
  : option instr :=
  match get_indices_from_wf_dict (uuid op)
          (if is_acquisition op then acq_dict else awg_dict) with
  | Ok (idx0, idx1) =>
      Some {| label := None;
              instruction := if is_acquisition op then "acquire" else "play";
              args := [AInt idx0; AInt idx1; AInt 4];
              comment := None |}
  | Raise _ => None
  end.


(** Device [dev] holds the record [x] in the pulse list it keeps under
    the (port, clock) [k]. *)
Definition holds_pulse (dev : string) (k : portclock) (x : helpers.OpInfo)
  (device_compilers : list (string * helpers.InstrumentCompiler)) : Prop :=
  exists c l,
    dget String.eqb dev device_compilers = Some c /\
    dget pc_eqb k (helpers._pulses c) = Some l /\
    In x l.

(** Device [dev] is a pulsar whose port-clock-to-sequencer map is [m]. *)
Definition dev_is (dev : string) (m : list (portclock * string))
  (device_compilers : list (string * InstrumentCompiler)) : Prop :=
  exists p,
    dget String.eqb dev device_compilers = Some (IC_Pulsar p) /\
    portclock_map p = m.

(** The sequencer that pulsar [dev] assigns to [pc] has a modulation
    frequency equal to the number [v]. *)
Definition seq_has (dev : string) (m : list (portclock * string))
  (pc : portclock) (v : Q)
  (device_compilers : list (string * InstrumentCompiler)) : Prop :=
  exists p n s,
    dget String.eqb dev device_compilers = Some (IC_Pulsar p) /\
    portclock_map p = m /\
    pc_getitem pc m = Ok n /\
    dget String.eqb n (sequencers p) = Some s /\
    py_eqb (VNum v) (modulation_freq (_settings s)) = true.

(** The local oscillator stored under [lo] has a frequency equal to the
    number [v]. *)
Definition lo_has (lo : value) (v : Q)
  (lo_compilers : list (value * LocalOscillator)) : Prop :=
  exists l,
    dget py_eqb lo lo_compilers = Some l /\
    py_eqb (VNum v) (_lo_freq l) = true.

(** Device [dev] holds data for the (port, clock) [pc]. *)
Definition dev_active (dev : string) (pc : portclock)
  (device_compilers : list (string * InstrumentCompiler)) : Prop :=
  exists c,
    dget String.eqb dev device_compilers = Some c /\
    in_portclocks_with_data pc (compiler_base c) = true.

(** The oscillator stored under [lo] carries [lo] as its name, as the
    oscillators made by [generate_ext_local_oscillators] do. *)
Definition lo_named (lo : value)
  (lo_compilers : list (value * LocalOscillator)) : Prop :=
  exists l,
    dget py_eqb lo lo_compilers = Some l /\
    py_eqb lo (name (lo_base l)) = true.

(** The invariant of the loops of [_assign_frequencies] built from a
    property of the device compilers and a property of the oscillators. *)
Definition freq_inv (Pd : list (string * InstrumentCompiler) -> Prop)
  (Pl : list (value * LocalOscillator) -> Prop) (st : freq_state) : Prop :=
  Pd (fst (fst st)) /\ Pl (snd (fst st)).

End Spec.

(** ** Notions used in the statements about the code *)

Module Inv.

Import qblox_backend.

Fixpoint value_size (v : value) {struct v} : nat :=
  match v with
  | VList l => S (fold_right (fun x n => (value_size x + n)%nat) O l)
  | VDict d => S (fold_right (fun kv n => (value_size (snd kv) + n)%nat) O d)
  | _ => 1%nat
  end.

(** The dictionaries the traversal of [find_inner_dicts_containing_key]
    visits: the dictionary itself, the dictionaries among its values and
    the dictionaries that are items of a list among its values, and so
    on from each of them. *)
Inductive visited (d : pydict) : pydict -> Prop :=
| visited_self : visited d d
| visited_value (k : string) (d' x : pydict) :
    In (k, VDict d') d -> visited d' x -> visited d x
| visited_item (k : string) (l : list value) (d' x : pydict) :
    In (k, VList l) d -> In (VDict d') l -> visited d' x -> visited d x.

(** The time a line of a program takes on the sequencer, as the emitter
    accounts for it: the operand of a [wait], the third operand of a
    [play] or an [acquire]; the other lines are not counted. *)
Definition row_time (i : instr) : Z :=
  if String.eqb (instruction i) PulsarInstructions.WAIT
  then match args i with
       | [AInt n] => n
       | _ => 0
       end
  else if String.eqb (instruction i) PulsarInstructions.PLAY
          || String.eqb (instruction i) PulsarInstructions.ACQUIRE
  then match args i with
       | [_; _; AInt n] => n
       | _ => 0
       end
  else 0.

Definition program_time (rows : list instr) : Z :=
  fold_right (fun i t => row_time i + t) 0 rows.

(** The lines of the body of a program: waits, gain settings, plays and
    acquires, without a label. *)
Definition is_body_row (i : instr) : bool :=
  match label i with
  | Some _ => false
  | None =>
      existsb (String.eqb (instruction i))
        [PulsarInstructions.WAIT; PulsarInstructions.SET_AWG_GAIN;
         PulsarInstructions.PLAY; PulsarInstructions.ACQUIRE]
  end.

(** The four lines that open a program and the four that close it. *)
Definition program_header (repetitions : Z) : list instr :=
  [ {| label := None; instruction := "wait_sync"; args := [AInt 4];
       comment := None |};
    {| label := None; instruction := "set_mrk"; args := [AInt 1];
       comment := None |};
    {| label := None; instruction := "move";
       args := [AInt repetitions; AStr "R0"];
       comment := Some "iterator for loop with label start" |};
    {| label := Some "start"; instruction := ""; args := [];
       comment := None |} ].

Definition program_footer : list instr :=
  [ {| label := None; instruction := "loop"; args := [AStr "R0"; AStr "@start"];
       comment := None |};
    {| label := None; instruction := "set_mrk"; args := [AInt 0];
       comment := None |};
    {| label := None; instruction := "upd_param"; args := [AInt 4];
       comment := None |};
    {| label := None; instruction := "stop"; args := []; comment := None |} ].

(** One output of one device, as [generate_ext_local_oscillators]
    handles it. *)
Definition lo_step (total_play_time : Q) (io_cfg : value)
  (lo_dict : list (value * LocalOscillator))
  : result (list (value * LocalOscillator)) :=
  match io_cfg with
  | VDict io_cfg =>
      match get "lo_name" io_cfg with
      | Some lo_name =>
          found <- v_get lo_name lo_dict ;;
          let lo_dict :=
            match found with
            | Some _ => lo_dict
            | None =>
                dset py_eqb lo_name
                  (LocalOscillator_init lo_name total_play_time VNone)
                  lo_dict
            end in
          match get "lo_freq" io_cfg with
          | Some lo_freq => lo_assign lo_name lo_freq lo_dict
          | None => Ok lo_dict
          end
      | None => Ok lo_dict
      end
  | _ => Ok lo_dict
  end.

(** The keys of a dictionary are pairwise different (for the comparison
    [eqb] of its keys), as in any Python [dict]. *)
Definition distinct_keys {K V} (eqb : K -> K -> bool) (d : list (K * V)) : Prop :=
  ForallOrdPairs (fun a b => eqb (fst a) (fst b) = false) d.

(** The pulses ([acq = false]) or the acquisitions ([acq = true]) that a
    compiler stores by (port, clock). *)
Definition stored (acq : bool) (b : InstrumentBase)
  : list (portclock * list OpInfo) :=
  if acq then _acquisitions b else _pulses b.

(** Device [dev] holds the record [x] in the list it stores under the
    (port, clock) [k]. *)
Definition device_holds (acq : bool) (dev : string) (k : portclock) (x : OpInfo)
  (device_compilers : list (string * InstrumentCompiler)) : Prop :=
  exists c l,
    dget String.eqb dev device_compilers = Some c /\
    dget pc_eqb k (stored acq (compiler_base c)) = Some l /\
    In x l.

(** The entries of a waveform dictionary carry the indices 0, 1, 2, ...
    in the order of insertion. *)
Definition dense_indices (d : wf_dict) : Prop :=
  map (fun kv => wf_index (snd kv)) d = map Z.of_nat (seq 0 (List.length d)).

(** Some device compiler holds data for some (port, clock). *)
Definition some_data (device_compilers : list (string * InstrumentCompiler))
  : Prop :=
  exists dev c pc,
    dget String.eqb dev device_compilers = Some c /\
    in_portclocks_with_data pc (compiler_base c) = true.

(** The compilers of [devs'] have the data (name, play time, pulses and
    acquisitions) of the compilers of [devs] of the same name. *)
Definition same_data (devs devs' : list (string * InstrumentCompiler)) : Prop :=
  forall dev c',
    dget String.eqb dev devs' = Some c' ->
    exists c, dget String.eqb dev devs = Some c /\
              compiler_base c' = compiler_base c.

(** The operands of a line fit the immediates of the sequencer: a wait
    of 1 to 65535 ns, gains in the signed 16-bit range, a play or an
    acquire of one grid step; the other lines carry no such operand. *)
Definition row_fits (i : instr) : bool :=
  if String.eqb (instruction i) PulsarInstructions.WAIT
  then match args i with
       | [AInt n] => (1 <=? n) && (n <=? 65535)
       | _ => false
       end
  else if String.eqb (instruction i) PulsarInstructions.SET_AWG_GAIN
  then match args i with
       | [AInt g0; AInt g1] =>
           (-32768 <=? g0) && (g0 <=? 32767) && (-32768 <=? g1) && (g1 <=? 32767)
       | _ => false
       end
  else if String.eqb (instruction i) PulsarInstructions.PLAY
          || String.eqb (instruction i) PulsarInstructions.ACQUIRE
  then match args i with
       | [_; _; AInt n] => n =? 4
       | _ => false
       end
  else true.

(** Device [dev] is a pulsar with the sequencers [seqs], and the
    dictionaries of pulses and acquisitions it stores have distinct
    keys. *)
Definition pulsar_with (dev : string) (seqs : list (string * Sequencer))
  (device_compilers : list (string * InstrumentCompiler)) : Prop :=
  exists p,
    dget String.eqb dev device_compilers = Some (IC_Pulsar p) /\
    sequencers p = seqs /\
    distinct_keys pc_eqb (_pulses (base p)) /\
    distinct_keys pc_eqb (_acquisitions (base p)).

End Inv.

(** ** Examples: mappings, schedules and operations used below *)

Import qblox_backend.


Definition qcm_seq_with (ops : list OpInfo) : Sequencer :=
  set_pulses ops
    (Sequencer_init QCM_sequencer "qcm0" "seq0" (VStr "q0:mw", VStr "q0.01") VNone).

Definition qrm_seq_with (ops : list OpInfo) : Sequencer :=
  set_pulses ops
    (Sequencer_init QRM_sequencer "qrm0" "seq0" (VStr "q0:res", VStr "q0.ro") VNone).

Definition bare_pulse : OpInfo :=
  {| uuid := 7; data := [("duration", VNum (1 # 50000000))]; timing := 0;
     pulse_settings := None |}.

Definition seq0_cfg (interm_freq : list (string * value)) : pydict :=
  [("port", VStr "q0:mw"); ("clock", VStr "q0.01")] ++ interm_freq.

Definition output0_cfg (interm_freq : list (string * value)) : pydict :=
  [("line_gain_db", VNum 0); ("lo_name", VStr "lo0"); ("lo_freq", VNone);
   ("seq0", VDict (seq0_cfg interm_freq))].

Definition qcm0_mapping (interm_freq : list (string * value)) : pydict :=
  [("name", VStr "qcm0"); ("type", VStr "Pulsar_QCM"); ("ref", VStr "int");
   ("complex_output_0", VDict (output0_cfg interm_freq))].

Definition gains_1 : option QASMRuntimeSettings :=
  Some {| awg_gain_0 := 1; awg_gain_1 := 1 # 2;
          awg_offset_0 := 0; awg_offset_1 := 0 |}.

(** A pulse with fingerprint 7 at [t] seconds and an acquisition with
    fingerprint 9. *)
Definition pulse_at (t : Q) : OpInfo :=
  {| uuid := 7;
     data := [("wf_func", VStr "quantify.scheduler.waveforms.square");
              ("duration", VNum (1 # 50000000));
              ("port", VStr "q0:res"); ("clock", VStr "q0.ro")];
     timing := t; pulse_settings := gains_1 |}.

Definition acquisition_at (t : Q) : OpInfo :=
  {| uuid := 9;
     data := [("duration", VNum (1 # 10000000)); ("acq_index", VNum 0);
              ("port", VStr "q0:res"); ("clock", VStr "q0.ro")];
     timing := t; pulse_settings := None |}.

Definition awg_dict_7 : option wf_dict :=
  Some [("7_I", {| wf_data := [1%Q]; wf_index := 0 |});
        ("7_Q", {| wf_data := [0%Q]; wf_index := 1 |})].

Definition acq_dict_9 : option wf_dict :=
  Some [("9_I", {| wf_data := [1%Q]; wf_index := 0 |});
        ("9_Q", {| wf_data := [0%Q]; wf_index := 1 |})].


Definition acquire_row : instr :=
  {| label := None; instruction := "acquire";
     args := [AInt 0; AInt 1; AInt 4]; comment := None |}.

Definition seq_cfg (port clock : string) : value :=
  VDict [("port", VStr port); ("clock", VStr clock);
         ("interm_freq", VNum 50000000)].

(** Two sequencer slots of one module, and two modules, that declare the
    same (port, clock). *)
Definition duplicate_in_module : pydict :=
  [("backend", VStr "quantify.scheduler.backends.qblox_backend.hardware_compile");
   ("qcm0",
    VDict [("name", VStr "qcm0"); ("type", VStr "Pulsar_QCM"); ("ref", VStr "int");
           ("complex_output_0",
            VDict [("line_gain_db", VNum 0); ("seq0", seq_cfg "q0:mw" "q0.01")]);
           ("complex_output_1",
            VDict [("line_gain_db", VNum 0); ("seq1", seq_cfg "q0:mw" "q0.01")])])].

Definition duplicate_across_modules : pydict :=
  [("backend", VStr "quantify.scheduler.backends.qblox_backend.hardware_compile");
   ("qcm0",
    VDict [("name", VStr "qcm0"); ("type", VStr "Pulsar_QCM"); ("ref", VStr "int");
           ("complex_output_0",
            VDict [("line_gain_db", VNum 0); ("seq0", seq_cfg "q0:mw" "q0.01")])]);
   ("qcm1",
    VDict [("name", VStr "qcm1"); ("type", VStr "Pulsar_QCM"); ("ref", VStr "int");
           ("complex_output_0",
            VDict [("line_gain_db", VNum 0); ("seq0", seq_cfg "q0:mw" "q0.01")])])].

(** Instances of the external helpers for the examples. *)
Definition example_make_hash (d : pydict) : Z := 7.

Definition example_without (d : pydict) (keys : list string) : result pydict :=
  Ok (filter (fun kv => negb (existsb (String.eqb (fst kv)) keys)) d).

Definition example_from_dict (v : value) : result MixerCorrections :=
  Ok {| amp_ratio := 1; phase_error := 0; offset_I := 0; offset_Q := 0 |}.

(** The steps of [hardware_compile] up to and including
    [_assign_frequencies]. *)
Definition frequency_stage (total_play_time : Q) (schedule : Schedule)
  (hardware_map : pydict)
  : result (list (string * InstrumentCompiler) * list (value * LocalOscillator)) :=
  portclock_map <- generate_port_clock_to_device_map hardware_map ;;
  device_compilers <-
    _construct_compiler_objects example_from_dict total_play_time hardware_map ;;
  device_compilers <-
    _assign_pulse_and_acq_info_to_devices example_make_hash example_without
      schedule device_compilers portclock_map ;;
  lo_compilers <- generate_ext_local_oscillators total_play_time hardware_map ;;
  _assign_frequencies device_compilers lo_compilers hardware_map portclock_map
                      (resources schedule).

(** The modulation frequency of sequencer [seq] of pulsar [dev]. *)
Definition modulation_freq_of (dev seq : string)
  (device_compilers : list (string * InstrumentCompiler)) : option value :=
  match dget String.eqb dev device_compilers with
  | Some (IC_Pulsar p) =>
      match dget String.eqb seq (sequencers p) with
      | Some s => Some (modulation_freq (_settings s))
      | None => None
      end
  | _ => None
  end.

Definition lo_freq_of (lo : value) (lo_compilers : list (value * LocalOscillator))
  : option value :=
  match dget py_eqb lo lo_compilers with
  | Some l => Some (_lo_freq l)
  | None => None
  end.

(** One QCM output with the given [lo_freq] and [interm_freq] entries. *)
Definition mapping_with (lo_freq interm_freq : value) : pydict :=
  [("backend", VStr "quantify.scheduler.backends.qblox_backend.hardware_compile");
   ("qcm0",
    VDict [("name", VStr "qcm0"); ("type", VStr "Pulsar_QCM"); ("ref", VStr "int");
           ("complex_output_0",
            VDict [("line_gain_db", VNum 0); ("lo_name", VStr "lo0");
                   ("lo_freq", lo_freq);
                   ("seq0",
                    VDict [("port", VStr "q0:mw"); ("clock", VStr "q0.01");
                           ("interm_freq", interm_freq)])])])].

(** One square pulse on (q0:mw, q0.01) at 4 ns; the clock has frequency
    [clock_freq]. *)
Definition schedule_with (clock_freq : Q) : Schedule :=
  {| timing_constraints := [{| operation_hash := 1; abs_time := 0 |}];
     operations :=
       [(1, {| valid_pulse := true; valid_acquisition := false;
               pulse_info :=
                 [[("wf_func", VStr "quantify.scheduler.waveforms.square");
                   ("amp", VNum (1 # 2));
                   ("duration", VNum (1 # 50000000));
                   ("t0", VNum (4 # 1000000000));
                   ("port", VStr "q0:mw"); ("clock", VStr "q0.01")]];
               acquisition_info := [] |})];
     resources := [("q0.01", [("name", VStr "q0.01"); ("freq", VNum clock_freq)])];
     repetitions := 1 |}.

(** Two ports driven on the same clock, and a clock-only operation
    (port null) on that clock. *)
Definition two_ports_one_clock : pydict :=
  [("backend", VStr "quantify_scheduler.backends.qblox_backend.hardware_compile");
   ("qcm0",
    VDict [("name", VStr "qcm0"); ("type", VStr "Pulsar_QCM"); ("ref", VStr "int");
           ("complex_output_0",
            VDict [("line_gain_db", VNum 0); ("seq0", seq_cfg "q0:mw" "q0.01")]);
           ("complex_output_1",
            VDict [("line_gain_db", VNum 0); ("seq1", seq_cfg "q1:mw" "q0.01")])])].

Definition reset_clock_phase_data : pydict :=
  [("wf_func", VNone); ("clock", VStr "q0.01"); ("port", VNone);
   ("duration", VNum 0); ("t0", VNum 0); ("reset_clock_phase", VBool true)].

Definition reset_schedulable : helpers.Schedulable :=
  {| helpers.operation_repr := "ResetClockPhase(clock='q0.01')";
     helpers.abs_time := 0 |}.

Definition reset_operation : helpers.Operation :=
  {| helpers.is_WindowOperation := false;
     helpers.op_name := "ResetClockPhase";
     helpers.valid_pulse := true; helpers.valid_acquisition := false;
     helpers.pulse_info := [reset_clock_phase_data];
     helpers.acquisition_info := [] |}.

Definition clock_only_schedule : helpers.Schedule :=
  {| helpers.schedulables := [("s0", reset_schedulable)];
     helpers.operations :=
       [("ResetClockPhase(clock='q0.01')", reset_operation)] |}.

Definition empty_compiler : helpers.InstrumentCompiler :=
  {| helpers._pulses := []; helpers._acquisitions := [] |}.

Definition clock_only_record : helpers.OpInfo :=
  {| helpers.name := "ResetClockPhase"; helpers.data := reset_clock_phase_data;
     helpers.timing := 0 + 0 |}.

Definition two_ports_index : list (portclock * string) :=
  [((VStr "q0:mw", VStr "q0.01"), "qcm0");
   ((VStr "q1:mw", VStr "q0.01"), "qcm0")].

Definition legacy_clock_only_schedule : Schedule :=
  {| timing_constraints := [{| operation_hash := 1; abs_time := 0 |}];
     operations :=
       [(1, {| valid_pulse := true; valid_acquisition := false;
               pulse_info := [reset_clock_phase_data];
               acquisition_info := [] |})];
     resources := [("q0.01", [("name", VStr "q0.01"); ("freq", VNum 5000000000)])];
     repetitions := 1 |}.

(** The inputs of [_assign_frequencies] for a mapping and a schedule, as
    [hardware_compile] prepares them. *)
Definition prepared (schedule : Schedule) (hardware_map : pydict)
  : result (list (portclock * string) * list (string * InstrumentCompiler)
            * list (value * LocalOscillator)) :=
  portclock_map <- generate_port_clock_to_device_map hardware_map ;;
  device_compilers <-
    _construct_compiler_objects example_from_dict (1 # 1000000) hardware_map ;;
  device_compilers <-
    _assign_pulse_and_acq_info_to_devices example_make_hash example_without
      schedule device_compilers portclock_map ;;
  lo_compilers <- generate_ext_local_oscillators (1 # 1000000) hardware_map ;;
  Ok (portclock_map, device_compilers, lo_compilers).

Definition index_of {A B C} (r : result (list A * list B * list C)) : list A :=
  match r with Ok (a, _, _) => a | Raise _ => [] end.
Definition devices_of {A B C} (r : result (list A * list B * list C)) : list B :=
  match r with Ok (_, b, _) => b | Raise _ => [] end.
Definition oscillators_of {A B C} (r : result (list A * list B * list C)) : list C :=
  match r with Ok (_, _, c) => c | Raise _ => [] end.

(** S1, microwave side: IF = 50 MHz declared, LO frequency left open,
    clock at 5 GHz. *)
Definition if_only_mapping : pydict := mapping_with VNone (VNum 50000000).
Definition if_only_schedule : Schedule := schedule_with 5000000000.
Definition if_only_index : list (portclock * string) :=
  Eval vm_compute in index_of (prepared if_only_schedule if_only_mapping).
Definition if_only_devices : list (string * InstrumentCompiler) :=
  Eval vm_compute in devices_of (prepared if_only_schedule if_only_mapping).
Definition if_only_oscillators : list (value * LocalOscillator) :=
  Eval vm_compute in oscillators_of (prepared if_only_schedule if_only_mapping).

(** S1, readout side transposed to the same output: LO = 7 GHz declared,
    IF null, clock at 7.04 GHz. *)
Definition lo_only_mapping : pydict := mapping_with (VNum 7000000000) VNone.
Definition lo_only_schedule : Schedule := schedule_with 7040000000.
Definition lo_only_index : list (portclock * string) :=
  Eval vm_compute in index_of (prepared lo_only_schedule lo_only_mapping).
Definition lo_only_devices : list (string * InstrumentCompiler) :=
  Eval vm_compute in devices_of (prepared lo_only_schedule lo_only_mapping).
Definition lo_only_oscillators : list (value * LocalOscillator) :=
  Eval vm_compute in oscillators_of (prepared lo_only_schedule lo_only_mapping).

Definition if_only_output : pydict :=
  [("line_gain_db", VNum 0); ("lo_name", VStr "lo0"); ("lo_freq", VNone);
   ("seq0",
    VDict [("port", VStr "q0:mw"); ("clock", VStr "q0.01");
           ("interm_freq", VNum 50000000)])].

Definition lo_only_output : pydict :=
  [("line_gain_db", VNum 0); ("lo_name", VStr "lo0");
   ("lo_freq", VNum 7000000000);
   ("seq0",
    VDict [("port", VStr "q0:mw"); ("clock", VStr "q0.01");
           ("interm_freq", VNone)])].

Import Inv.

(** One QCM module of the name [name] with one sequencer for
    (q0:mw, q0.01), as in [duplicate_across_modules]. *)
Definition qcm_module (name : string) : pydict :=
  [("name", VStr name); ("type", VStr "Pulsar_QCM"); ("ref", VStr "int");
   ("complex_output_0",
    VDict [("line_gain_db", VNum 0); ("seq0", seq_cfg "q0:mw" "q0.01")])].

(** Two complex waveforms, by fingerprint and by name. *)
Definition ramp : waveform := [(1 # 2, 1 # 4); (0, 1)]%Q.

Definition two_waveforms : list (Z * waveform) :=
  [(7, [(1, 0)%Q]); (9, ramp)].

Definition two_named_waveforms : list (string * waveform) :=
  [("square", [(1, 0)%Q]); ("ramp", ramp)].

(** The description of the device [qcm0] in a mapping. *)
Definition qcm0_mapping_of (mapping : pydict) : pydict :=
  match get "qcm0" mapping with
  | Some (VDict device) => device
  | _ => []
  end.

(** A Pulsar QRM that holds a pulse and an acquisition for the
    (port, clock) of its sequencer. *)
Definition qrm_with_data : Pulsar :=
  {| pulsar_type := Pulsar_QRM;
     base := {| name := VStr "qrm0"; total_play_time := 1 # 1000000;
                _pulses := [((VStr "q0:res", VStr "q0.ro"), [pulse_at 0])];
                _acquisitions :=
                  [((VStr "q0:res", VStr "q0.ro"),
                    [acquisition_at (1 # 10000000)])] |};
     hw_mapping := [];
     portclock_map := [((VStr "q0:res", VStr "q0.ro"), "seq0")];
     sequencers := [("seq0", qrm_seq_with [])];
     pulsar_settings := {| ref := VStr "int"; hardware_averages := 1;
                           acq_mode := "SSBIntegrationComplex" |} |}.

(** The compilers constructed for [if_only_mapping], before any data is
    assigned to them, and the pulse of [if_only_schedule]. *)
Definition if_only_constructed : list (string * InstrumentCompiler) :=
  Eval vm_compute in
    match _construct_compiler_objects example_from_dict (1 # 1000000)
            if_only_mapping with
    | Ok devs => devs
    | Raise _ => []
    end.

Definition if_only_pulse : pydict :=
  [("wf_func", VStr "quantify.scheduler.waveforms.square");
   ("amp", VNum (1 # 2));
   ("duration", VNum (1 # 50000000));
   ("t0", VNum (4 # 1000000000));
   ("port", VStr "q0:mw"); ("clock", VStr "q0.01")].

(** A stand-in for the hash of the samples: their number. *)
Definition example_uuid (samples : list Q) : string :=
  str_of_Z (Z.of_nat (List.length samples)).

Definition one_waveform : wf_dict :=
  [("2", {| wf_data := [1; 0]%Q; wf_index := 0 |})].

(** Two outputs of one QCM that share the oscillator [lo0]: IF = 50 MHz
    for a clock at 5 GHz and IF = 100 MHz for a clock at 5.05 GHz, so
    both ask for an LO frequency of 4.95 GHz. *)
Definition shared_lo_output (seq port clock : string) (interm_freq : Q)
  : pydict :=
  [("line_gain_db", VNum 0); ("lo_name", VStr "lo0"); ("lo_freq", VNone);
   (seq, VDict [("port", VStr port); ("clock", VStr clock);
                ("interm_freq", VNum interm_freq)])].

Definition shared_lo_mapping : pydict :=
  [("backend", VStr "quantify.scheduler.backends.qblox_backend.hardware_compile");
   ("qcm0",
    VDict [("name", VStr "qcm0"); ("type", VStr "Pulsar_QCM"); ("ref", VStr "int");
           ("complex_output_0",
            VDict (shared_lo_output "seq0" "q0:mw" "q0.01" 50000000));
           ("complex_output_1",
            VDict (shared_lo_output "seq1" "q1:mw" "q1.01" 100000000))])].

Definition square_pulse_on (port clock : string) : pydict :=
  [("wf_func", VStr "quantify.scheduler.waveforms.square");
   ("amp", VNum (1 # 2));
   ("duration", VNum (1 # 50000000));
   ("t0", VNum 0);
   ("port", VStr port); ("clock", VStr clock)].

Definition shared_lo_schedule : Schedule :=
  {| timing_constraints := [{| operation_hash := 1; abs_time := 0 |}];
     operations :=
       [(1, {| valid_pulse := true; valid_acquisition := false;
               pulse_info := [square_pulse_on "q0:mw" "q0.01";
                              square_pulse_on "q1:mw" "q1.01"];
               acquisition_info := [] |})];
     resources :=
       [("q0.01", [("name", VStr "q0.01"); ("freq", VNum 5000000000)]);
        ("q1.01", [("name", VStr "q1.01"); ("freq", VNum 5050000000)])];
     repetitions := 1 |}.

Definition shared_lo_index : list (portclock * string) :=
  Eval vm_compute in index_of (prepared shared_lo_schedule shared_lo_mapping).
Definition shared_lo_devices : list (string * InstrumentCompiler) :=
  Eval vm_compute in devices_of (prepared shared_lo_schedule shared_lo_mapping).
Definition shared_lo_oscillators : list (value * LocalOscillator) :=
  Eval vm_compute in
    oscillators_of (prepared shared_lo_schedule shared_lo_mapping).

(** A schedule of [helpers.py] with one square pulse on (q0:mw, q0.01). *)
Definition square_schedulable : helpers.Schedulable :=
  {| helpers.operation_repr := "SquarePulse"; helpers.abs_time := 0 |}.

Definition square_operation : helpers.Operation :=
  {| helpers.is_WindowOperation := false;
     helpers.op_name := "SquarePulse";
     helpers.valid_pulse := true; helpers.valid_acquisition := false;
     helpers.pulse_info := [square_pulse_on "q0:mw" "q0.01"];
     helpers.acquisition_info := [] |}.

Definition square_schedule : helpers.Schedule :=
  {| helpers.schedulables := [("s0", square_schedulable)];
     helpers.operations := [("SquarePulse", square_operation)] |}.

(** ** Properties *)

(** *** Loops and dictionaries *)

Lemma for_each_app {A S} (body : A -> S -> result S) (xs ys : list A) (st : S) :
  for_each body (xs ++ ys) st = bind (for_each body xs st) (for_each body ys).
Proof.
  revert st. induction xs as [|x xs IH]; intros st; simpl.
  - reflexivity.
  - destruct (body x st) as [s1|e]; simpl; [apply IH | reflexivity].
Qed.

(** A property kept by every successful iteration holds after the loop. *)
Lemma for_each_inv {A S} (P : S -> Prop) (body : A -> S -> result S)
  (xs : list A) :
  (forall x s s', In x xs -> P s -> body x s = Ok s' -> P s') ->
  forall st st', P st -> for_each body xs st = Ok st' -> P st'.
Proof.
  induction xs as [|x xs IH]; intros Hstep st st' HP Hrun; simpl in Hrun.
  - inversion Hrun; subst; exact HP.
  - destruct (body x st) as [s1|e] eqn:Hb; simpl in Hrun; [|discriminate].
    apply (IH (fun y s s' Hin => Hstep y s s' (or_intror Hin)) s1 st').
    + apply (Hstep x st s1); [left; reflexivity | exact HP | exact Hb].
    + exact Hrun.
Qed.

Lemma dset_In {K V} (eqb : K -> K -> bool) (k : K) (v : V) (d : list (K * V))
  (k' : K) (v' : V) :
  In (k', v') (dset eqb k v d) -> In (k', v') d \/ v' = v.
Proof.
  induction d as [|[k0 v0] d IH]; simpl.
  - intros [H|[]]. inversion H; auto.
  - destruct (eqb k k0).
    + intros [H|H]; [inversion H; auto | left; right; exact H].
    + intros [H|H]; [left; left; exact H|].
      destruct (IH H) as [H'|H']; [left; right; exact H' | right; exact H'].
Qed.

Lemma bind_Ok {A B} (c : result A) (k : A -> result B) (b : B) :
  bind c k = Ok b -> exists a, c = Ok a /\ k a = Ok b.
Proof.
  destruct c as [a|e]; simpl; intros H; [exists a; auto | discriminate].
Qed.

(** Once an iteration on [x] has established [P] (from the loop
    invariant [I]) and every iteration keeps [P], [P] holds after the loop. *)
Lemma for_each_establish {A S} (I P : S -> Prop) (body : A -> S -> result S)
  (xs : list A) (x : A) :
  In x xs ->
  (forall y s s', I s -> body y s = Ok s' -> I s') ->
  (forall s s', I s -> body x s = Ok s' -> P s') ->
  (forall y s s', P s -> body y s = Ok s' -> P s') ->
  forall st st', I st -> for_each body xs st = Ok st' -> P st'.
Proof.
  intros Hin HI Hx HP. induction xs as [|y ys IH]; [destruct Hin|].
  intros st st' Hst Hrun. simpl in Hrun.
  destruct (body y st) as [s1|e] eqn:Hb; simpl in Hrun; [|discriminate].
  destruct Hin as [Heq|Hin].
  - subst y.
    apply (for_each_inv P body ys (fun z s s' _ => HP z s s') s1 st');
      [apply (Hx st s1 Hst Hb) | exact Hrun].
  - apply (IH Hin s1 st'); [apply (HI y st s1 Hst Hb) | exact Hrun].
Qed.

(** Lookups after updates, for a key comparison that is symmetric and
    transitive. *)
Section DictLemmas.
Context {K V : Type} (eqb : K -> K -> bool).
Hypothesis eqb_sym : forall a b, eqb a b = eqb b a.
Hypothesis eqb_trans :
  forall a b c, eqb a b = true -> eqb b c = true -> eqb a c = true.

Lemma eqb_respects (k k' k0 : K) : eqb k k' = true -> eqb k k0 = eqb k' k0.
Proof.
  intros H. destruct (eqb k' k0) eqn:E.
  - apply (eqb_trans k k' k0); assumption.
  - destruct (eqb k k0) eqn:E'; [|reflexivity].
    rewrite <- E. symmetry. apply (eqb_trans k' k k0); [|exact E'].
    rewrite eqb_sym. exact H.
Qed.

Lemma dget_respects (k k' : K) (d : list (K * V)) :
  eqb k k' = true -> dget eqb k d = dget eqb k' d.
Proof.
  intros H. induction d as [|[k0 v0] d IH]; simpl; [reflexivity|].
  rewrite (eqb_respects k k' k0 H), IH. reflexivity.
Qed.

Lemma dget_dset_eq (k k' : K) (v : V) (d : list (K * V)) :
  eqb k k' = true -> dget eqb k (dset eqb k' v d) = Some v.
Proof.
  intros H. induction d as [|[k0 v0] d IH]; simpl.
  - rewrite H. reflexivity.
  - destruct (eqb k' k0) eqn:E; simpl.
    + rewrite (eqb_respects k k' k0 H), E. reflexivity.
    + rewrite (eqb_respects k k' k0 H), E. exact IH.
Qed.

Lemma dget_dset_neq (k k' : K) (v : V) (d : list (K * V)) :
  eqb k k' = false -> dget eqb k (dset eqb k' v d) = dget eqb k d.
Proof.
  intros H. induction d as [|[k0 v0] d IH]; simpl.
  - rewrite H. reflexivity.
  - destruct (eqb k' k0) eqn:E; simpl.
    + destruct (eqb k k0) eqn:E'; [|reflexivity].
      exfalso. rewrite eqb_sym in E.
      rewrite (eqb_trans k k0 k' E' E) in H. discriminate.
    + destruct (eqb k k0); [reflexivity | exact IH].
Qed.

End DictLemmas.

Lemma string_eqb_trans (a b c : string) :
  String.eqb a b = true -> String.eqb b c = true -> String.eqb a c = true.
Proof.
  intros H1 H2. apply String.eqb_eq in H1, H2. subst. apply String.eqb_refl.
Qed.

(** [==] on values is symmetric and transitive. *)
Lemma py_eqb_sym (a b : value) : py_eqb a b = py_eqb b a.
Proof.
  destruct a, b; simpl; try reflexivity;
    try apply String.eqb_sym;
    unfold Qeq_bool; apply Z.eqb_sym.
Qed.

Lemma Qeq_bool_trans (x y z : Q) :
  Qeq_bool x y = true -> Qeq_bool y z = true -> Qeq_bool x z = true.
Proof.
  intros H1 H2. apply Qeq_bool_iff in H1, H2. apply Qeq_bool_iff.
  rewrite H1. exact H2.
Qed.

Lemma py_eqb_trans (a b c : value) :
  py_eqb a b = true -> py_eqb b c = true -> py_eqb a c = true.
Proof.
  destruct a, b, c; simpl; try discriminate; try (intros; reflexivity);
    try apply Qeq_bool_trans; try apply string_eqb_trans.
Qed.

Lemma py_eqb_refl (a : value) : qblox_backend.hashable a = true -> py_eqb a a = true.
Proof.
  destruct a; simpl; try discriminate; intros _; try reflexivity.
  - apply Qeq_bool_iff; reflexivity.
  - apply Qeq_bool_iff; reflexivity.
  - apply String.eqb_refl.
Qed.

Lemma pc_eqb_sym (a b : qblox_backend.portclock) :
  qblox_backend.pc_eqb a b = qblox_backend.pc_eqb b a.
Proof.
  unfold qblox_backend.pc_eqb.
  rewrite (py_eqb_sym (fst a)), (py_eqb_sym (snd a)). reflexivity.
Qed.

Lemma pc_eqb_trans (a b c : qblox_backend.portclock) :
  qblox_backend.pc_eqb a b = true -> qblox_backend.pc_eqb b c = true ->
  qblox_backend.pc_eqb a c = true.
Proof.
  unfold qblox_backend.pc_eqb. intros H1 H2.
  apply andb_true_iff in H1, H2. destruct H1 as [H1 H1'], H2 as [H2 H2'].
  apply andb_true_iff. split; eapply py_eqb_trans; eassumption.
Qed.

Lemma pc_eqb_refl (a : qblox_backend.portclock) :
  qblox_backend.pc_hashable a = true -> qblox_backend.pc_eqb a a = true.
Proof.
  unfold qblox_backend.pc_hashable, qblox_backend.pc_eqb. intros H.
  apply andb_true_iff in H. destruct H as [H1 H2].
  rewrite (py_eqb_refl _ H1), (py_eqb_refl _ H2). reflexivity.
Qed.

(** *** The emitter: [emit] and [auto_wait] *)

Lemma emit_times_repeat (n : nat) (i : string) (a : list arg)
  (l c : option string) (q : QASMProgram) :
  (List.length a <= 3)%nat ->
  emit_times n i a l c q =
  Ok {| instructions :=
          instructions q ++
          repeat {| label := l; instruction := i; args := a; comment := c |} n;
        elapsed_time := elapsed_time q |}.
Proof.
  intros Hlen. revert q.
  induction n as [|n IH]; intros q; simpl.
  - rewrite app_nil_r. destruct q; reflexivity.
  - unfold emit, get_instruction_as_list.
    replace (3 <? List.length a)%nat with false
      by (symmetry; apply Nat.ltb_ge; exact Hlen).
    simpl. rewrite IH. simpl. rewrite <- app_assoc. reflexivity.
Qed.

(** C4. A wait of [W > 0] ns is emitted as the specification describes
    (one [wait W] up to 65535 ns, otherwise [W / 65535] maximal waits and
    the non-zero remainder), and the elapsed time advances by exactly [W]. *)
Theorem auto_wait_expansion (W : Z) (q : QASMProgram) :
  0 < W ->
  auto_wait W q =
  Ok {| instructions := instructions q ++ Spec.spec_wait_expansion W;
        elapsed_time := elapsed_time q + W |}.
Proof.
  intros HW. unfold auto_wait, Spec.spec_wait_expansion, IMMEDIATE_SZ.
  change (2 ^ 16 - 1) with 65535.
  destruct (W <=? 0) eqn:E0; [apply Z.leb_le in E0; lia|].
  destruct (W >? 65535) eqn:E1.
  - assert (Hgt : 65535 < W) by (apply Z.gtb_lt; exact E1).
    replace (W <=? 65535) with false by (symmetry; apply Z.leb_gt; exact Hgt).
    rewrite emit_times_repeat by (simpl; lia).
    cbn [bind].
    assert (Hm : 0 <= W mod 65535 < 65535) by (apply Z.mod_pos_bound; lia).
    destruct (W mod 65535 >? 0) eqn:E2.
    + replace (W mod 65535 =? 0) with false
        by (symmetry; apply Z.eqb_neq; apply Z.gtb_lt in E2; lia).
      unfold emit, add_elapsed; simpl. rewrite <- app_assoc. reflexivity.
    + replace (W mod 65535 =? 0) with true
        by (symmetry; apply Z.eqb_eq;
            assert (~ 0 < W mod 65535)
              by (intro H; apply Z.gtb_lt in H; congruence); lia).
      unfold add_elapsed; simpl. rewrite app_nil_r. reflexivity.
  - assert (Hle : W <= 65535)
      by (destruct (Z_le_gt_dec W 65535) as [H|H]; [exact H|];
          apply Z.gt_lt, Z.gtb_lt in H; congruence).
    replace (W <=? 65535) with true by (symmetry; apply Z.leb_le; exact Hle).
    cbn [bind].
    replace (W >? 0) with true by (symmetry; apply Z.gtb_lt; exact HW).
    unfold emit, add_elapsed; simpl. reflexivity.
Qed.

Lemma auto_wait_expansion_witness :
  auto_wait 70000 QASMProgram_new =
  Ok {| instructions :=
          [Spec.wait_row 65535 (Some "auto generated wait");
           Spec.wait_row 4465 None];
        elapsed_time := 70000 |}.
Proof.
  rewrite (auto_wait_expansion 70000 QASMProgram_new); [reflexivity | lia].
Defined.

(** *** Gain immediates *)

Lemma expand_from_normalised_range_ok (v : Q) :
  (Qabs v <= 1)%Q ->
  _expand_from_normalised_range v = Ok (Qfloor (v * inject_Z 65535 / 2)%Q).
Proof.
  intros H. unfold _expand_from_normalised_range.
  destruct (Qlt_le_dec 1 (Qabs v)) as [Hlt|Hle].
  - exfalso. apply (Qlt_not_le _ _ Hlt). exact H.
  - reflexivity.
Qed.


Lemma expand_from_normalised_range_int16 (v : Q) :
  (Qabs v <= 1)%Q ->
  -32768 <= Qfloor (v * inject_Z 65535 / 2)%Q <= 32767.
Proof.
  intros H. apply Qabs_Qle_condition in H. destruct H as [Hlo Hhi].
  split.
  - change (-32768) with (Qfloor (- (65535 # 2))%Q).
    apply Qfloor_resp_le. unfold inject_Z, Qdiv.
    change (/ 2)%Q with (1 # 2)%Q. lra.
  - change 32767 with (Qfloor (65535 # 2)%Q).
    apply Qfloor_resp_le. unfold inject_Z, Qdiv.
    change (/ 2)%Q with (1 # 2)%Q. lra.
Qed.




(** *** Amplitude check of [_generate_awg_dict] *)

(** The first pulse of a sequencer is rejected when one of its amplitudes
    exceeds the class constant [AWG_OUTPUT_VOLT]. *)
Lemma generate_awg_dict_rejects (nw : Sequencer -> OpInfo -> result (waveform * Q * Q))
  (seq : Sequencer) (p : OpInfo) (rest : list OpInfo) (w : waveform) (a_i a_q : Q) :
  pulses seq = p :: rest ->
  nw seq p = Ok (w, a_i, a_q) ->
  (AWG_OUTPUT_VOLT (seq_type seq) < Qabs a_i)%Q \/
  (AWG_OUTPUT_VOLT (seq_type seq) < Qabs a_q)%Q ->
  exists msg, _generate_awg_dict nw seq = Raise (ValueError msg).
Proof.
  intros Hp Hn H. unfold _generate_awg_dict. rewrite Hp. simpl. rewrite Hn. simpl.
  destruct (Qlt_le_dec (AWG_OUTPUT_VOLT (seq_type seq)) (Qabs a_i)) as [Hi|Hi].
  - simpl. eexists; reflexivity.
  - destruct (Qlt_le_dec (AWG_OUTPUT_VOLT (seq_type seq)) (Qabs a_q)) as [Hq|Hq].
    + simpl. eexists; reflexivity.
    + exfalso. destruct H as [H|H];
        [apply (Qlt_not_le _ _ H); exact Hi | apply (Qlt_not_le _ _ H); exact Hq].
Qed.

(** C6 (the code at the failing inputs). The voltage the check uses is
    5 V for a QCM sequencer and 1 V for a QRM sequencer: a pulse of
    amplitude 3 V (above 2.5 V) is accepted on a QCM with gain 3/5, and a
    pulse of amplitude 0.75 V (above 0.5 V) on a QRM with gain 3/4. *)
Theorem awg_output_volt_accepts_above_spec_peak :
  AWG_OUTPUT_VOLT QCM_sequencer = 5%Q /\
  AWG_OUTPUT_VOLT QRM_sequencer = 1%Q /\
  ((5 # 2) < 3)%Q /\ ((1 # 2) < (3 # 4))%Q /\
  (exists seq' wf,
     _generate_awg_dict (fun _ _ => Ok ([(1, 0)], 3, 0)%Q) (qcm_seq_with [bare_pulse])
     = Ok (seq', wf) /\
     map pulse_settings (pulses seq') =
     [Some {| awg_gain_0 := 3 # 5; awg_gain_1 := 0 # 5;
              awg_offset_0 := 0; awg_offset_1 := 0 |}]) /\
  (exists seq' wf,
     _generate_awg_dict (fun _ _ => Ok ([(1, 0)], 3 # 4, 0)%Q)
                        (qrm_seq_with [bare_pulse])
     = Ok (seq', wf) /\
     map pulse_settings (pulses seq') =
     [Some {| awg_gain_0 := 3 # 4; awg_gain_1 := 0;
              awg_offset_0 := 0; awg_offset_1 := 0 |}]).
Proof.
  split; [reflexivity|]. split; [reflexivity|].
  split; [reflexivity|]. split; [reflexivity|].
  split; eexists; eexists; split; vm_compute; reflexivity.
Qed.

(** *** Construction of the sequencers *)

Lemma construct_sequencer_keeps_none (fd : value -> result MixerCorrections)
  (c : pulsar_class) (parent : string) (item : string * value)
  (seqs seqs' : list (string * Sequencer)) :
  (forall n s, In (n, s) seqs -> modulation_freq (_settings s) = VNone) ->
  construct_sequencer fd c parent item seqs = Ok seqs' ->
  forall n s, In (n, s) seqs' -> modulation_freq (_settings s) = VNone.
Proof.
  intros Hinv Hrun. destruct item as [io io_cfg].
  unfold construct_sequencer in Hrun.
  destruct io_cfg as [| | | | |cfg];
    try (inversion Hrun; subst; exact Hinv).
  destruct (1 <? List.length (find_inner_dicts_containing_key cfg "port"))%nat;
    [discriminate|].
  destruct (find_inner_dicts_containing_key cfg "port") as [|pcd rest];
    [discriminate|].
  apply bind_Ok in Hrun. destruct Hrun as [port [_ Hrun]].
  apply bind_Ok in Hrun. destruct Hrun as [clock [_ Hrun]].
  apply bind_Ok in Hrun. destruct Hrun as [freq [Hfreq Hrun]].
  assert (Hnone : freq = VNone).
  { unfold has_key, dmem, getitem, get in Hfreq.
    destruct (dget String.eqb "interm_freq" pcd);
      [inversion Hfreq; reflexivity | discriminate]. }
  subst freq.
  destruct (dget String.eqb io OUTPUT_TO_SEQ) as [k|]; [|discriminate].
  apply bind_Ok in Hrun. destruct Hrun as [seq [Hseq Hrun]].
  inversion Hrun; subst seqs'; clear Hrun.
  assert (Hs : modulation_freq (_settings seq) = VNone).
  { destruct (get "mixer_corrections" cfg) as [mc|].
    - apply bind_Ok in Hseq. destruct Hseq as [m [_ Hseq]].
      inversion Hseq; subst seq; reflexivity.
    - inversion Hseq; subst seq; reflexivity. }
  intros n s Hin. apply dset_In in Hin. destruct Hin as [Hin|Hin].
  - apply (Hinv n s Hin).
  - subst s. exact Hs.
Qed.

(** C10. Whenever the sequencers of a pulsar are constructed, each of
    them starts with modulation frequency [None], whatever [interm_freq]
    the mapping declares; and when the port-clock dict of an output has
    no [interm_freq] key (the outputs before it being accepted), the
    construction raises [KeyError] for that key. *)
Theorem construct_sequencers_interm_freq
  (fd : value -> result MixerCorrections) (c : pulsar_class) (parent : string) :
  (forall hw seqs,
     _construct_sequencers fd c parent hw = Ok seqs ->
     forall n s, In (n, s) seqs -> modulation_freq (_settings s) = VNone)
  /\
  (forall total_play_time hw p,
     Pulsar_init fd c parent total_play_time hw = Ok p ->
     forall n s, In (n, s) (sequencers p) ->
                 modulation_freq (_settings s) = VNone)
  /\
  (forall pre io io_cfg post pcd acc,
     for_each (construct_sequencer fd c parent) pre [] = Ok acc ->
     find_inner_dicts_containing_key io_cfg "port" = [pcd] ->
     has_key "port" pcd = true ->
     has_key "clock" pcd = true ->
     has_key "interm_freq" pcd = false ->
     _construct_sequencers fd c parent (pre ++ (io, VDict io_cfg) :: post)
     = Raise (KeyError "interm_freq")).
Proof.
  assert (Hnone : forall hw seqs,
     _construct_sequencers fd c parent hw = Ok seqs ->
     forall n s, In (n, s) seqs -> modulation_freq (_settings s) = VNone);
  [| split; [exact Hnone | split] ].
  - intros hw seqs Hrun. unfold _construct_sequencers in Hrun.
    apply bind_Ok in Hrun. destruct Hrun as [acc [Hloop Hrun]].
    destruct (MAX_SEQUENCERS c <? List.length (dkeys acc))%nat; [discriminate|].
    inversion Hrun; subst seqs; clear Hrun.
    apply (for_each_inv
             (fun d => forall n s, In (n, s) d ->
                                   modulation_freq (_settings s) = VNone)
             (construct_sequencer fd c parent) hw) with (st := []).
    + intros x s0 s1 _ HP Hb. exact (construct_sequencer_keeps_none _ _ _ _ _ _ HP Hb).
    + intros n s [].
    + exact Hloop.
  - intros tpt hw p Hrun. unfold Pulsar_init in Hrun.
    apply bind_Ok in Hrun. destruct Hrun as [pcm [_ Hrun]].
    apply bind_Ok in Hrun. destruct Hrun as [seqs [Hseqs Hrun]].
    apply bind_Ok in Hrun. destruct Hrun as [st [_ Hrun]].
    inversion Hrun; subst p; simpl. exact (Hnone hw seqs Hseqs).
  - intros pre io io_cfg post pcd acc Hpre Hfind Hport Hclock Hif.
    unfold _construct_sequencers. rewrite for_each_app, Hpre. simpl.
    rewrite Hfind. simpl.
    unfold has_key, dmem in Hport, Hclock, Hif. unfold getitem, get, has_key, dmem.
    destruct (dget String.eqb "port" pcd); [|discriminate].
    destruct (dget String.eqb "clock" pcd); [|discriminate].
    destruct (dget String.eqb "interm_freq" pcd); [discriminate|].
    reflexivity.
Qed.

Lemma construct_sequencers_interm_freq_witness :
  (exists s,
     _construct_sequencers (fun _ => Raise (TypeError "from_dict"))
       Pulsar_QCM "qcm0" (qcm0_mapping [("interm_freq", VNum 50000000)])
     = Ok [("seq0", s)] /\ modulation_freq (_settings s) = VNone)
  /\
  _construct_sequencers (fun _ => Raise (TypeError "from_dict"))
    Pulsar_QCM "qcm0" (qcm0_mapping [])
  = Raise (KeyError "interm_freq").
Proof.
  destruct (construct_sequencers_interm_freq
              (fun _ => Raise (TypeError "from_dict")) Pulsar_QCM "qcm0")
    as [Hnone [_ Hkey]].
  split.
  - eexists. split; [vm_compute; reflexivity|].
    eapply (Hnone (qcm0_mapping [("interm_freq", VNum 50000000)]));
      [vm_compute; reflexivity | left; reflexivity].
  - apply (Hkey [("name", VStr "qcm0"); ("type", VStr "Pulsar_QCM");
                 ("ref", VStr "int")]
                "complex_output_0" (output0_cfg []) [] (seq0_cfg []) []);
      reflexivity.
Defined.

(** *** Lines emitted by the program body *)

Lemma emit_ok (i : string) (a : list arg) (l c : option string) (q : QASMProgram) :
  (List.length a <= 3)%nat ->
  emit i a l c q =
  Ok {| instructions :=
          instructions q ++
          [{| label := l; instruction := i; args := a; comment := c |}];
        elapsed_time := elapsed_time q |}.
Proof.
  intros H. unfold emit, get_instruction_as_list.
  replace (3 <? List.length a)%nat with false
    by (symmetry; apply Nat.ltb_ge; exact H).
  reflexivity.
Qed.

Lemma filter_none {A} (f : A -> bool) (l : list A) :
  (forall x, In x l -> f x = false) -> filter f l = [].
Proof.
  induction l as [|x l IH]; intros H; simpl; [reflexivity|].
  rewrite (H x (or_introl eq_refl)). apply IH. intros y Hy. apply H. right; exact Hy.
Qed.

Lemma spec_wait_expansion_no_op (W : Z) :
  filter Spec.is_op_row (Spec.spec_wait_expansion W) = [].
Proof.
  apply filter_none. intros r Hr. unfold Spec.spec_wait_expansion in Hr.
  destruct (W <=? 65535).
  - destruct Hr as [Hr|[]]; subst r; reflexivity.
  - apply in_app_or in Hr. destruct Hr as [Hr|Hr].
    + apply repeat_spec in Hr. subst r; reflexivity.
    + destruct (W mod 65535 =? 0); [destruct Hr|].
      destruct Hr as [Hr|[]]; subst r; reflexivity.
Qed.

(** The successful run of [auto_wait], written out. *)
Lemma auto_wait_unfolds (W : Z) (q : QASMProgram) :
  0 < W ->
  auto_wait W q =
  Ok {| instructions := instructions q ++ Spec.spec_wait_expansion W;
        elapsed_time := elapsed_time q + W |}.
Proof.
  intros HW. unfold auto_wait, Spec.spec_wait_expansion, IMMEDIATE_SZ.
  change (2 ^ 16 - 1) with 65535.
  destruct (W <=? 0) eqn:E0; [apply Z.leb_le in E0; lia|].
  destruct (W >? 65535) eqn:E1.
  - assert (Hgt : 65535 < W) by (apply Z.gtb_lt; exact E1).
    replace (W <=? 65535) with false by (symmetry; apply Z.leb_gt; exact Hgt).
    rewrite emit_times_repeat by (simpl; lia).
    cbn [bind].
    assert (Hm : 0 <= W mod 65535 < 65535) by (apply Z.mod_pos_bound; lia).
    destruct (W mod 65535 >? 0) eqn:E2.
    + replace (W mod 65535 =? 0) with false
        by (symmetry; apply Z.eqb_neq; apply Z.gtb_lt in E2; lia).
      unfold emit, add_elapsed; simpl. rewrite <- app_assoc. reflexivity.
    + replace (W mod 65535 =? 0) with true
        by (symmetry; apply Z.eqb_eq;
            assert (~ 0 < W mod 65535)
              by (intro H; apply Z.gtb_lt in H; congruence); lia).
      unfold add_elapsed; simpl. rewrite app_nil_r. reflexivity.
  - assert (Hle : W <= 65535)
      by (destruct (Z_le_gt_dec W 65535) as [H|H]; [exact H|];
          apply Z.gt_lt, Z.gtb_lt in H; congruence).
    replace (W <=? 65535) with true by (symmetry; apply Z.leb_le; exact Hle).
    cbn [bind].
    replace (W >? 0) with true by (symmetry; apply Z.gtb_lt; exact HW).
    unfold emit, add_elapsed; simpl. reflexivity.
Qed.

Lemma auto_wait_rows (W : Z) (q q' : QASMProgram) :
  auto_wait W q = Ok q' ->
  0 < W /\
  instructions q' = instructions q ++ Spec.spec_wait_expansion W /\
  elapsed_time q' = elapsed_time q + W.
Proof.
  intros H. assert (HW : 0 < W).
  { unfold auto_wait in H. destruct (W <=? 0) eqn:E; [discriminate|].
    apply Z.leb_gt in E. exact E. }
  rewrite (auto_wait_unfolds W q HW) in H. inversion H; subst q'; simpl.
  auto.
Qed.

(** Waiting for the start of an operation leaves the program at the
    operation's start time and adds only [wait] lines. *)
Lemma wait_till_start_operation_rows (op : OpInfo) (q q' : QASMProgram) :
  wait_till_start_operation op q = Ok q' ->
  exists extra start_time,
    to_pulsar_time (timing op) = Ok start_time /\
    elapsed_time q <= start_time /\
    instructions q' = instructions q ++ extra /\
    filter Spec.is_op_row extra = [] /\
    elapsed_time q' = start_time.
Proof.
  unfold wait_till_start_operation. intros H.
  apply bind_Ok in H. destruct H as [st [Hst H]].
  destruct (st - elapsed_time q >? 0) eqn:E1.
  - apply auto_wait_rows in H. destruct H as [HW [Hi He]].
    exists (Spec.spec_wait_expansion (st - elapsed_time q)), st.
    repeat split; try assumption; try lia.
    apply spec_wait_expansion_no_op.
  - destruct (st - elapsed_time q <? 0) eqn:E2; [discriminate|].
    inversion H; subst q'. exists [], st.
    apply Z.ltb_ge in E2.
    assert (~ 0 < st - elapsed_time q)
      by (intro Hc; apply Z.gtb_lt in Hc; congruence).
    repeat split; try assumption; try lia.
    rewrite app_nil_r; reflexivity.
Qed.

(** One operation of the body: it adds exactly one operation line, the
    one of [Spec.op_row], and leaves the elapsed time one grid step after
    the operation's start. *)
Lemma emit_operation_rows (awg_dict acq_dict : option wf_dict) (op : OpInfo)
  (q q' : QASMProgram) :
  emit_operation awg_dict acq_dict op q = Ok q' ->
  exists extra start_time,
    to_pulsar_time (timing op) = Ok start_time /\
    elapsed_time q <= start_time /\
    instructions q' = instructions q ++ extra /\
    map Some (filter Spec.is_op_row extra) = [Spec.op_row awg_dict acq_dict op] /\
    elapsed_time q' = start_time + 4.
Proof.
  unfold emit_operation, Spec.op_row. intros H.
  destruct (is_acquisition op) eqn:Eacq.
  - apply bind_Ok in H. destruct H as [[i0 i1] [Hidx H]]. rewrite Hidx.
    unfold wait_till_start_then_acquire in H.
    apply bind_Ok in H. destruct H as [q1 [Hw H]].
    apply wait_till_start_operation_rows in Hw.
    destruct Hw as [extra [st [Hst [Hle [Hi [Hf He]]]]]].
    rewrite emit_ok in H by (simpl; lia). simpl in H.
    inversion H; subst q'; simpl.
    exists (extra ++ [{| label := None; instruction := PulsarInstructions.ACQUIRE;
                         args := [AInt i0; AInt i1; AInt GRID_TIME_ns];
                         comment := None |}]), st.
    repeat split; try assumption.
    + rewrite Hi, app_assoc; reflexivity.
    + rewrite filter_app, Hf. reflexivity.
    + rewrite He. reflexivity.
  - apply bind_Ok in H. destruct H as [[i0 i1] [Hidx H]]. rewrite Hidx.
    unfold wait_till_start_then_play in H.
    apply bind_Ok in H. destruct H as [q1 [Hw H]].
    apply wait_till_start_operation_rows in Hw.
    destruct Hw as [extra [st [Hst [Hle [Hi [Hf He]]]]]].
    apply bind_Ok in H. destruct H as [q2 [Hu H]].
    unfold update_runtime_settings in Hu.
    destruct (pulse_settings op) as [settings|]; [|discriminate].
    apply bind_Ok in Hu. destruct Hu as [g0 [_ Hu]].
    apply bind_Ok in Hu. destruct Hu as [g1 [_ Hu]].
    rewrite emit_ok in Hu by (simpl; lia). inversion Hu; subst q2; clear Hu.
    rewrite emit_ok in H by (simpl; lia). simpl in H.
    inversion H; subst q'; simpl.
    eexists; exists st.
    split; [exact Hst|]. split; [exact Hle|].
    split; [rewrite Hi, <- !app_assoc; reflexivity|].
    split; [|rewrite He; reflexivity].
    rewrite filter_app, Hf. reflexivity.
Qed.


(** *** The order of the operations *)



Lemma insert_op_perm (x : OpInfo) (l : list OpInfo) :
  Permutation (insert_op x l) (x :: l).
Proof.
  induction l as [|y l IH]; simpl; [apply Permutation_refl|].
  destruct (key_le x y); [apply Permutation_refl|].
  eapply Permutation_trans; [apply perm_skip, IH | apply perm_swap].
Qed.

Lemma sorted_perm (l : list OpInfo) : Permutation (sorted l) l.
Proof.
  induction l as [|x l IH]; simpl; [apply Permutation_refl|].
  eapply Permutation_trans; [apply insert_op_perm | apply perm_skip, IH].
Qed.







(** A pulse and an acquisition at the same instant are put in the order
    pulse, acquisition; the emitter then rejects the acquisition, since the
    pulse has already consumed one grid step. *)
Lemma same_instant_rejected :
  sorted [acquisition_at 0; pulse_at 0] = [pulse_at 0; acquisition_at 0] /\
  generate_qasm_program (1 # 1000000) (Some [pulse_at 0]) awg_dict_7
    (Some [acquisition_at 0]) acq_dict_9 1
  = Raise (ValueError "Invalid timing").
Proof. split; vm_compute; reflexivity. Qed.

(** *** Grid alignment *)

Lemma to_pulsar_time_on_grid (t : Q) (n : Z) :
  to_pulsar_time t = Ok n -> n mod 4 = 0.
Proof.
  unfold to_pulsar_time, GRID_TIME_ns.
  destruct (round_half_even (t * inject_Z 1000000000) mod 4 =? 0) eqn:E;
    simpl; intros H; [|discriminate].
  inversion H; subst n. apply Z.eqb_eq. exact E.
Qed.

(** After every operation of the body the elapsed time is on the grid. *)
Lemma emit_operation_elapsed_on_grid (awg_dict acq_dict : option wf_dict)
  (op : OpInfo) (q q' : QASMProgram) :
  emit_operation awg_dict acq_dict op q = Ok q' ->
  elapsed_time q' mod 4 = 0.
Proof.
  intros H. apply emit_operation_rows in H.
  destruct H as [extra [st [Hst [_ [_ [_ He]]]]]].
  apply to_pulsar_time_on_grid in Hst. rewrite He.
  rewrite Z.add_mod, Hst by lia. reflexivity.
Qed.


(** *** The port-clock index *)

Lemma for_each_raise {A S} (body : A -> S -> result S) (xs : list A) (st : S)
  (e : exn) :
  for_each body xs st = Raise e ->
  exists x s, In x xs /\ body x s = Raise e.
Proof.
  revert st. induction xs as [|x xs IH]; intros st H; simpl in H; [discriminate|].
  destruct (body x st) as [s1|e1] eqn:Hb; simpl in H.
  - destruct (IH s1 H) as [y [s [Hin Hy]]]. exists y, s. split; [right|]; assumption.
  - inversion H; subst e1. exists x, st. split; [left; reflexivity | exact Hb].
Qed.

(** The indexer has no failure for a repeated (port, clock): it can only
    fail on a port without clock or on an unhashable port or clock. *)
Lemma generate_port_clock_to_device_map_errors (mapping : pydict) (e : exn) :
  generate_port_clock_to_device_map mapping = Raise e ->
  e = AttributeError "Port missing clock" \/ e = TypeError "unhashable type".
Proof.
  intros H. unfold generate_port_clock_to_device_map in H.
  apply for_each_raise in H. destruct H as [[dev info] [m [_ H]]].
  destruct info as [| | | | |d]; try discriminate.
  destruct (find_all_port_clock_combinations d) as [pcs|e'] eqn:Hf; simpl in H.
  - apply for_each_raise in H. destruct H as [pc [m' [_ H]]].
    unfold pc_setitem in H. destruct (pc_hashable pc); [discriminate|].
    inversion H; auto.
  - inversion H; subst e'. unfold find_all_port_clock_combinations in Hf.
    apply for_each_raise in Hf. destruct Hf as [inner [acc [_ Hf]]].
    destruct (get "port" inner) as [port|]; [|discriminate].
    destruct (is_none port); [discriminate|].
    destruct (has_key "clock" inner) eqn:Hc; simpl in Hf.
    + unfold has_key, dmem in Hc. unfold getitem, get in Hf.
      destruct (dget String.eqb "clock" inner); [discriminate|discriminate].
    + inversion Hf; auto.
Qed.

(** C1 (the code at the failing inputs). A (port, clock) declared by two
    sequencer slots is accepted by both indexers: no error is raised, and
    the pair is mapped to the device that declares it last. *)
Theorem duplicate_portclock_accepted :
  generate_port_clock_to_device_map duplicate_in_module
  = Ok [((VStr "q0:mw", VStr "q0.01"), "qcm0")] /\
  generate_port_clock_to_device_map duplicate_across_modules
  = Ok [((VStr "q0:mw", VStr "q0.01"), "qcm1")] /\
  helpers.generate_port_clock_to_device_map find_all_port_clock_combinations
    duplicate_in_module
  = Ok [((VStr "q0:mw", VStr "q0.01"), "qcm0")] /\
  helpers.generate_port_clock_to_device_map find_all_port_clock_combinations
    duplicate_across_modules
  = Ok [((VStr "q0:mw", VStr "q0.01"), "qcm1")].
Proof. repeat split; vm_compute; reflexivity. Qed.

(** *** Frequencies *)

(** With both frequencies given, no check is made: each of LO and IF is
    recomputed from the other declared value. *)
Lemma determine_clock_lo_interm_freqs_both_given (clock_freq lo_freq interm_freq : Q) :
  helpers.determine_clock_lo_interm_freqs clock_freq (Some lo_freq)
    (Some interm_freq) None true
  = Ok ({| helpers.Frequencies_clock := Some clock_freq;
           helpers.LO := Some (clock_freq - interm_freq)%Q;
           helpers.IF := Some (clock_freq - lo_freq)%Q |}, false).
Proof. reflexivity. Qed.

(** C3 (the code at the failing input). With [lo_freq = 5 GHz] and
    [interm_freq = 50 MHz] declared for a clock of 5.01 GHz, neither
    resolver raises: [determine_clock_lo_interm_freqs] returns LO = 4.96 GHz
    and IF = 10 MHz (whose sum is not the clock frequency), and
    [_assign_frequencies] keeps LO = 5 GHz and sets the sequencer to
    IF = 10 MHz, the declared 50 MHz being ignored. *)
Theorem over_constrained_not_detected :
  helpers.determine_clock_lo_interm_freqs 5010000000 (Some 5000000000%Q)
    (Some 50000000%Q) None true
  = Ok ({| helpers.Frequencies_clock := Some 5010000000%Q;
           helpers.LO := Some 4960000000%Q;
           helpers.IF := Some 10000000%Q |}, false) /\
  ~ (4960000000 + 10000000 == 5010000000)%Q /\
  exists devs los,
    frequency_stage (1 # 1000000) (schedule_with 5010000000)
      (mapping_with (VNum 5000000000) (VNum 50000000)) = Ok (devs, los) /\
    modulation_freq_of "qcm0" "seq0" devs = Some (VNum 10000000) /\
    lo_freq_of (VStr "lo0") los = Some (VNum 5000000000).
Proof.
  split; [reflexivity|]. split; [intro H; vm_compute in H; discriminate|].
  eexists; eexists. split; [vm_compute; reflexivity|].
  split; reflexivity.
Qed.

(** *** The operation distributor *)

Lemma append_at_keeps (pc k : portclock) (op x : helpers.OpInfo)
  (d d' : list (portclock * list helpers.OpInfo)) (l : list helpers.OpInfo) :
  helpers.append_at pc op d = Ok d' ->
  dget pc_eqb k d = Some l -> In x l ->
  exists l', dget pc_eqb k d' = Some l' /\ In x l'.
Proof.
  unfold helpers.append_at, pc_get, pc_setitem. intros H Hk Hx.
  destruct (pc_hashable pc); simpl in H; [|discriminate].
  inversion H; subst d'; clear H.
  destruct (pc_eqb k pc) eqn:E.
  - rewrite (dget_dset_eq pc_eqb pc_eqb_sym pc_eqb_trans k pc _ d E).
    rewrite <- (dget_respects pc_eqb pc_eqb_sym pc_eqb_trans k pc d E), Hk.
    eexists. split; [reflexivity|]. apply in_or_app. left. exact Hx.
  - rewrite (dget_dset_neq pc_eqb pc_eqb_sym pc_eqb_trans k pc _ d E).
    exists l. split; assumption.
Qed.

Lemma append_at_adds (pc : portclock) (op : helpers.OpInfo)
  (d d' : list (portclock * list helpers.OpInfo)) :
  helpers.append_at pc op d = Ok d' ->
  exists l', dget pc_eqb pc d' = Some l' /\ In op l'.
Proof.
  unfold helpers.append_at, pc_get, pc_setitem. intros H.
  destruct (pc_hashable pc) eqn:Hh; simpl in H; [|discriminate].
  inversion H; subst d'; clear H.
  rewrite (dget_dset_eq pc_eqb pc_eqb_sym pc_eqb_trans pc pc _ d
             (pc_eqb_refl pc Hh)).
  eexists. split; [reflexivity|]. apply in_or_app. right. left. reflexivity.
Qed.

(** A device update that keeps the pulse lists growing keeps
    [Spec.holds_pulse]. *)
Lemma update_device_keeps (dev d' : string) (k : portclock) (x : helpers.OpInfo)
  (f : helpers.InstrumentCompiler -> result helpers.InstrumentCompiler)
  (devs devs' : list (string * helpers.InstrumentCompiler)) :
  (forall c c' l, f c = Ok c' ->
     dget pc_eqb k (helpers._pulses c) = Some l -> In x l ->
     exists l', dget pc_eqb k (helpers._pulses c') = Some l' /\ In x l') ->
  helpers.update_device d' f devs = Ok devs' ->
  Spec.holds_pulse dev k x devs -> Spec.holds_pulse dev k x devs'.
Proof.
  intros Hf H [c [l [Hc [Hl Hx]]]]. unfold helpers.update_device in H.
  destruct (dget String.eqb d' devs) as [c0|] eqn:Hd; [|discriminate].
  apply bind_Ok in H. destruct H as [c1 [Hc1 H]]. inversion H; subst devs'; clear H.
  unfold Spec.holds_pulse.
  destruct (String.eqb dev d') eqn:E.
  - rewrite (dget_dset_eq String.eqb String.eqb_sym string_eqb_trans dev d' _ devs E).
    rewrite (dget_respects String.eqb String.eqb_sym string_eqb_trans dev d' devs E)
      in Hc.
    rewrite Hd in Hc. inversion Hc; subst c0.
    destruct (Hf c c1 l Hc1 Hl Hx) as [l' [Hl' Hx']].
    exists c1, l'. auto.
  - rewrite (dget_dset_neq String.eqb String.eqb_sym string_eqb_trans dev d' _ devs E).
    exists c, l. auto.
Qed.

Lemma add_pulse_keeps (port clock : value) (op x : helpers.OpInfo) (k : portclock)
  (c c' : helpers.InstrumentCompiler) (l : list helpers.OpInfo) :
  helpers.add_pulse port clock op c = Ok c' ->
  dget pc_eqb k (helpers._pulses c) = Some l -> In x l ->
  exists l', dget pc_eqb k (helpers._pulses c') = Some l' /\ In x l'.
Proof.
  unfold helpers.add_pulse. intros H Hl Hx.
  apply bind_Ok in H. destruct H as [p [Hp H]]. inversion H; subst c'; simpl.
  exact (append_at_keeps _ _ _ _ _ _ _ Hp Hl Hx).
Qed.

Lemma add_acquisition_keeps (port clock : value) (op x : helpers.OpInfo)
  (k : portclock) (c c' : helpers.InstrumentCompiler) (l : list helpers.OpInfo) :
  helpers.add_acquisition port clock op c = Ok c' ->
  dget pc_eqb k (helpers._pulses c) = Some l -> In x l ->
  exists l', dget pc_eqb k (helpers._pulses c') = Some l' /\ In x l'.
Proof.
  unfold helpers.add_acquisition. intros H Hl Hx.
  apply bind_Ok in H. destruct H as [p [Hp H]]. inversion H; subst c'; simpl.
  exists l. auto.
Qed.

Lemma update_device_add_pulse_adds (dev : string) (port clock : value)
  (op : helpers.OpInfo) (devs devs' : list (string * helpers.InstrumentCompiler)) :
  helpers.update_device dev (helpers.add_pulse port clock op) devs = Ok devs' ->
  Spec.holds_pulse dev (port, clock) op devs'.
Proof.
  unfold helpers.update_device. intros H.
  destruct (dget String.eqb dev devs) as [c0|]; [|discriminate].
  apply bind_Ok in H. destruct H as [c1 [Hc1 H]]. inversion H; subst devs'; clear H.
  unfold helpers.add_pulse in Hc1.
  apply bind_Ok in Hc1. destruct Hc1 as [p [Hp Hc1]]. inversion Hc1; subst c1.
  destruct (append_at_adds _ _ _ _ Hp) as [l' [Hl' Hin]].
  exists {| helpers._pulses := p; helpers._acquisitions := helpers._acquisitions c0 |}, l'.
  split; [|split; assumption].
  apply (dget_dset_eq String.eqb String.eqb_sym string_eqb_trans).
  apply String.eqb_refl.
Qed.

Lemma distribute_clock_operation_keeps (dev : string) (k : portclock)
  (x : helpers.OpInfo) (clock : value) (op : helpers.OpInfo)
  (pcm : list (portclock * string))
  (devs devs' : list (string * helpers.InstrumentCompiler)) :
  helpers.distribute_clock_operation clock op pcm devs = Ok devs' ->
  Spec.holds_pulse dev k x devs -> Spec.holds_pulse dev k x devs'.
Proof.
  unfold helpers.distribute_clock_operation. intros H Hh.
  refine (for_each_inv (Spec.holds_pulse dev k x) _ _ _ _ _ Hh H).
  intros [[mp mc] d] s s' _ Hs Hb. simpl in Hb.
  destruct (py_eqb mc clock); [|inversion Hb; subst; exact Hs].
  eapply update_device_keeps; [|exact Hb|exact Hs].
  intros c c' l. apply add_pulse_keeps.
Qed.

(** The loop of the branch [if port is None] reaches every entry of the
    index whose clock equals the record's clock. *)
Lemma distribute_clock_operation_adds (clock : value) (op : helpers.OpInfo)
  (pcm : list (portclock * string)) (map_port map_clock : value) (dev : string)
  (devs devs' : list (string * helpers.InstrumentCompiler)) :
  In ((map_port, map_clock), dev) pcm ->
  py_eqb map_clock clock = true ->
  helpers.distribute_clock_operation clock op pcm devs = Ok devs' ->
  Spec.holds_pulse dev (map_port, clock) op devs'.
Proof.
  intros Hin Hclk H. unfold helpers.distribute_clock_operation in H.
  refine (for_each_establish (fun _ => True)
            (Spec.holds_pulse dev (map_port, clock) op) _ _
            ((map_port, map_clock), dev) Hin _ _ _ _ _ I H).
  - auto.
  - intros s s' _ Hb. simpl in Hb. rewrite Hclk in Hb.
    apply update_device_add_pulse_adds in Hb. exact Hb.
  - intros [[mp mc] d] s s' Hs Hb. simpl in Hb.
    destruct (py_eqb mc clock); [|inversion Hb; subst; exact Hs].
    eapply update_device_keeps; [|exact Hb|exact Hs].
    intros c c' l. apply add_pulse_keeps.
Qed.

Lemma helpers_assign_pulse_keeps (op_data : helpers.Operation) (start : Q)
  (pcm : list (portclock * string)) (pulse_data : pydict)
  (dev : string) (k : portclock) (x : helpers.OpInfo)
  (devs devs' : list (string * helpers.InstrumentCompiler)) :
  helpers.assign_pulse op_data start pcm pulse_data devs = Ok devs' ->
  Spec.holds_pulse dev k x devs -> Spec.holds_pulse dev k x devs'.
Proof.
  unfold helpers.assign_pulse. intros H Hh.
  apply bind_Ok in H. destruct H as [t [_ H]].
  destruct (helpers.to_grid_time t helpers.GRID_TIME) as [n|e];
    [|destruct e; discriminate].
  destruct (negb _); [discriminate|].
  apply bind_Ok in H. destruct H as [port [_ H]].
  apply bind_Ok in H. destruct H as [clock [_ H]].
  destruct (is_none port).
  - exact (distribute_clock_operation_keeps _ _ _ _ _ _ _ _ H Hh).
  - apply bind_Ok in H. destruct H as [found [_ H]].
    destruct found as [device_name|]; [|discriminate].
    eapply update_device_keeps; [|exact H|exact Hh].
    intros c c' l. apply add_pulse_keeps.
Qed.

Lemma helpers_assign_acquisition_keeps
  (wo : pydict -> list string -> result pydict)
  (op_data : helpers.Operation) (start : Q)
  (pcm : list (portclock * string)) (acq_data : pydict)
  (dev : string) (k : portclock) (x : helpers.OpInfo)
  (devs devs' : list (string * helpers.InstrumentCompiler)) :
  helpers.assign_acquisition wo op_data start pcm acq_data devs = Ok devs' ->
  Spec.holds_pulse dev k x devs -> Spec.holds_pulse dev k x devs'.
Proof.
  unfold helpers.assign_acquisition. intros H Hh.
  apply bind_Ok in H. destruct H as [t [_ H]].
  apply bind_Ok in H. destruct H as [port [_ H]].
  apply bind_Ok in H. destruct H as [clock [_ H]].
  destruct (is_none port); [inversion H; subst; exact Hh|].
  apply bind_Ok in H. destruct H as [h [_ H]].
  apply bind_Ok in H. destruct H as [w [_ H]].
  apply bind_Ok in H. destruct H as [stripped [_ H]].
  apply bind_Ok in H. destruct H as [found [_ H]].
  destruct found as [device_name|]; [|discriminate].
  eapply update_device_keeps; [|exact H|exact Hh].
  intros c c' l. apply add_acquisition_keeps.
Qed.

(** The loop body of the distributor over the schedulables. *)
Lemma helpers_schedulable_keeps
  (wo : pydict -> list string -> result pydict)
  (schedule : helpers.Schedule) (pcm : list (portclock * string))
  (sch : helpers.Schedulable) (dev : string) (k : portclock) (x : helpers.OpInfo)
  (devs devs' : list (string * helpers.InstrumentCompiler)) :
  match dget String.eqb (helpers.operation_repr sch) (helpers.operations schedule) with
  | None => Raise (KeyError (helpers.operation_repr sch))
  | Some op_data =>
      if helpers.is_WindowOperation op_data then Ok devs
      else if negb (helpers.valid_pulse op_data)
              && negb (helpers.valid_acquisition op_data)
      then Raise (RuntimeError "Operation is not a valid pulse or acquisition")
      else
        ds <- for_each (helpers.assign_pulse op_data (helpers.abs_time sch) pcm)
                (helpers.pulse_info op_data) devs ;;
        for_each (helpers.assign_acquisition wo op_data (helpers.abs_time sch) pcm)
                 (helpers.acquisition_info op_data) ds
  end = Ok devs' ->
  Spec.holds_pulse dev k x devs -> Spec.holds_pulse dev k x devs'.
Proof.
  intros H Hh.
  destruct (dget String.eqb (helpers.operation_repr sch) (helpers.operations schedule))
    as [op_data|]; [|discriminate].
  destruct (helpers.is_WindowOperation op_data); [inversion H; subst; exact Hh|].
  destruct (negb (helpers.valid_pulse op_data) && negb (helpers.valid_acquisition op_data));
    [discriminate|].
  apply bind_Ok in H. destruct H as [ds [Hp Ha]].
  assert (Hds : Spec.holds_pulse dev k x ds).
  { refine (for_each_inv (Spec.holds_pulse dev k x) _ _ _ _ _ Hh Hp).
    intros y s s' _ Hs Hb.
    exact (helpers_assign_pulse_keeps _ _ _ _ _ _ _ _ _ Hb Hs). }
  refine (for_each_inv (Spec.holds_pulse dev k x) _ _ _ _ _ Hds Ha).
  intros y s s' _ Hs Hb.
  exact (helpers_assign_acquisition_keeps _ _ _ _ _ _ _ _ _ _ Hb Hs).
Qed.

(** C9 (as amended). In the distributor of [helpers.py], a pulse record
    whose port is null is added, under (map_port, clock), to the device of
    every entry (map_port, map_clock) of the port-clock index whose clock
    equals the record's clock; in the distributor of [qblox_backend.py] a
    pulse record whose port is null is skipped and leaves the device
    compilers unchanged. *)
Theorem null_port_pulse_distribution :
  (forall (fa : pydict -> result (list portclock))
          (wo : pydict -> list string -> result pydict)
          (schedule : helpers.Schedule) (hardware_cfg : pydict)
          (devs devs' : list (string * helpers.InstrumentCompiler))
          (pcm : list (portclock * string))
          (key : string) (sch : helpers.Schedulable) (op : helpers.Operation)
          (pulse_data : pydict) (clock : value) (start : Q)
          (map_port map_clock : value) (dev : string),
     helpers.generate_port_clock_to_device_map fa hardware_cfg = Ok pcm ->
     helpers.assign_pulse_and_acq_info_to_devices fa wo schedule devs hardware_cfg
     = Ok devs' ->
     In (key, sch) (helpers.schedulables schedule) ->
     dget String.eqb (helpers.operation_repr sch) (helpers.operations schedule)
     = Some op ->
     helpers.is_WindowOperation op = false ->
     In pulse_data (helpers.pulse_info op) ->
     get "port" pulse_data = Some VNone ->
     get "clock" pulse_data = Some clock ->
     helpers.add_t0 (helpers.abs_time sch) pulse_data = Ok start ->
     In ((map_port, map_clock), dev) pcm ->
     py_eqb map_clock clock = true ->
     Spec.holds_pulse dev (map_port, clock)
       {| helpers.name := helpers.op_name op; helpers.data := pulse_data;
          helpers.timing := start |} devs')
  /\
  (forall (mh : pydict -> Z) (wo : pydict -> list string -> result pydict)
          (start : Q) (pcm : list (portclock * string)) (pulse_data : pydict)
          (clock : value) (t : Q)
          (devs : list (string * InstrumentCompiler)),
     get "port" pulse_data = Some VNone ->
     get "clock" pulse_data = Some clock ->
     add_t0 start pulse_data = Ok t ->
     assign_pulse mh wo start pcm pulse_data devs = Ok devs).
Proof.
  split.
  - intros fa wo schedule hardware_cfg devs devs' pcm key sch op pulse_data
           clock start map_port map_clock dev
           Hpcm Hrun Hsch Hop Hwin Hpd Hport Hclock Hstart Hin Hclk.
    unfold helpers.assign_pulse_and_acq_info_to_devices in Hrun.
    rewrite Hpcm in Hrun. cbn [bind] in Hrun.
    set (P := Spec.holds_pulse dev (map_port, clock)
                {| helpers.name := helpers.op_name op; helpers.data := pulse_data;
                   helpers.timing := start |}).
    assert (Hsch' : In sch (dvalues (helpers.schedulables schedule))).
    { unfold dvalues. change sch with (snd (key, sch)). apply in_map. exact Hsch. }
    refine (for_each_establish (fun _ => True) P _ _ sch Hsch' _ _ _ _ _ I Hrun).
    + auto.
    + intros s s' _ Hb. rewrite Hop, Hwin in Hb.
      destruct (negb (helpers.valid_pulse op) && negb (helpers.valid_acquisition op));
        [discriminate|].
      apply bind_Ok in Hb. destruct Hb as [ds [Hp Ha]].
      assert (Hds : P ds); [|
        refine (for_each_inv P _ _ _ _ _ Hds Ha);
        intros y s0 s1 _ Hs Hb;
        exact (helpers_assign_acquisition_keeps _ _ _ _ _ _ _ _ _ _ Hb Hs)].
      refine (for_each_establish (fun _ => True) P _ _ pulse_data Hpd _ _ _ _ _ I Hp).
      * auto.
      * intros s0 s1 _ Hb. unfold helpers.assign_pulse in Hb.
        rewrite Hstart in Hb. cbn [bind] in Hb.
        destruct (helpers.to_grid_time start helpers.GRID_TIME) as [n|e];
          [|destruct e; discriminate].
        destruct (negb _); [discriminate|].
        unfold getitem in Hb. rewrite Hport, Hclock in Hb. simpl in Hb.
        exact (distribute_clock_operation_adds _ _ _ _ _ _ _ _ Hin Hclk Hb).
      * intros y s0 s1 Hs Hb.
        exact (helpers_assign_pulse_keeps _ _ _ _ _ _ _ _ _ Hb Hs).
    + intros y s s' Hs Hb.
      exact (helpers_schedulable_keeps wo schedule pcm y _ _ _ _ _ Hb Hs).
  - intros mh wo start pcm pulse_data clock t devs Hport Hclock Hstart.
    unfold assign_pulse. rewrite Hstart. unfold getitem.
    rewrite Hport, Hclock. reflexivity.
Qed.

Lemma null_port_pulse_distribution_witness :
  exists devs',
    helpers.assign_pulse_and_acq_info_to_devices
      find_all_port_clock_combinations example_without clock_only_schedule
      [("qcm0", empty_compiler)] two_ports_one_clock = Ok devs' /\
    Spec.holds_pulse "qcm0" (VStr "q0:mw", VStr "q0.01") clock_only_record devs' /\
    Spec.holds_pulse "qcm0" (VStr "q1:mw", VStr "q0.01") clock_only_record devs'.
Proof.
  destruct (helpers.assign_pulse_and_acq_info_to_devices
              find_all_port_clock_combinations example_without clock_only_schedule
              [("qcm0", empty_compiler)] two_ports_one_clock)
    as [devs'|e] eqn:E; [|vm_compute in E; discriminate].
  exists devs'. split; [reflexivity|].
  destruct null_port_pulse_distribution as [Hfan _].
  assert (Hpcm : helpers.generate_port_clock_to_device_map
                   find_all_port_clock_combinations two_ports_one_clock
                 = Ok two_ports_index) by (vm_compute; reflexivity).
  split.
  - apply (Hfan find_all_port_clock_combinations example_without
             clock_only_schedule two_ports_one_clock [("qcm0", empty_compiler)]
             devs' two_ports_index "s0" reset_schedulable reset_operation
             reset_clock_phase_data (VStr "q0.01") (0 + 0)%Q
             (VStr "q0:mw") (VStr "q0.01") "qcm0" Hpcm E);
      try reflexivity; simpl; auto.
  - apply (Hfan find_all_port_clock_combinations example_without
             clock_only_schedule two_ports_one_clock [("qcm0", empty_compiler)]
             devs' two_ports_index "s0" reset_schedulable reset_operation
             reset_clock_phase_data (VStr "q0.01") (0 + 0)%Q
             (VStr "q1:mw") (VStr "q0.01") "qcm0" Hpcm E);
      try reflexivity; simpl; auto.
Defined.

(** C9, as stated, fails on the distributor of [qblox_backend.py]: the
    index maps (q0:mw, q0.01) to qcm0, a sequencer of qcm0 is assigned the
    clock q0.01, and after distributing a null-port pulse on q0.01 the
    device has received nothing. *)
Lemma null_port_pulse_dropped :
  exists pcm devs devs' p,
    generate_port_clock_to_device_map two_ports_one_clock = Ok pcm /\
    _construct_compiler_objects example_from_dict (1 # 1000000) two_ports_one_clock
    = Ok devs /\
    _assign_pulse_and_acq_info_to_devices example_make_hash example_without
      legacy_clock_only_schedule devs pcm = Ok devs' /\
    In ((VStr "q0:mw", VStr "q0.01"), "qcm0") pcm /\
    dget String.eqb "qcm0" devs' = Some (IC_Pulsar p) /\
    map (fun kv => clock (snd kv)) (sequencers p) = [VStr "q0.01"; VStr "q0.01"] /\
    _pulses (base p) = [] /\
    devs' = devs.
Proof.
  eexists; eexists; eexists; eexists.
  split; [vm_compute; reflexivity|].
  split; [vm_compute; reflexivity|].
  split; [vm_compute; reflexivity|].
  split; [left; reflexivity|].
  split; [vm_compute; reflexivity|].
  repeat split.
Qed.

(** *** Frequency assignment: what the loops keep *)

Lemma py_eqb_num_chain (q : Q) (w u : value) :
  py_eqb (VNum q) w = true ->
  py_eqb w u = true \/ is_none w = true ->
  py_eqb (VNum q) u = true.
Proof.
  intros H [H'|H'].
  - exact (py_eqb_trans _ _ _ H H').
  - destruct w; simpl in *; discriminate.
Qed.

Lemma update_device_inv (dev : string)
  (f : InstrumentCompiler -> result InstrumentCompiler)
  (devs devs' : list (string * InstrumentCompiler)) :
  update_device dev f devs = Ok devs' ->
  exists c c',
    dget String.eqb dev devs = Some c /\ f c = Ok c' /\
    devs' = dset String.eqb dev c' devs.
Proof.
  unfold update_device. intros H.
  destruct (dget String.eqb dev devs) as [c|]; [|discriminate].
  apply bind_Ok in H. destruct H as [c' [Hc H]]. inversion H; subst.
  exists c, c'. auto.
Qed.

Lemma sdget_dset_same {V} (k : string) (v : V) (d : list (string * V)) :
  dget String.eqb k (dset String.eqb k v d) = Some v.
Proof.
  apply (dget_dset_eq String.eqb String.eqb_sym string_eqb_trans).
  apply String.eqb_refl.
Qed.

Lemma sdget_dset_other {V} (k k' : string) (v : V) (d : list (string * V)) :
  String.eqb k k' = false ->
  dget String.eqb k (dset String.eqb k' v d) = dget String.eqb k d.
Proof. apply (dget_dset_neq String.eqb String.eqb_sym string_eqb_trans). Qed.

Lemma call_assign_inv (pc : portclock) (freq : value) (c c' : InstrumentCompiler) :
  call_assign_modulation_frequency pc freq c = Ok c' ->
  exists p n s s',
    c = IC_Pulsar p /\
    pc_getitem pc (portclock_map p) = Ok n /\
    dget String.eqb n (sequencers p) = Some s /\
    Sequencer_assign_frequency freq s = Ok s' /\
    c' = IC_Pulsar (set_sequencers (dset String.eqb n s' (sequencers p)) p).
Proof.
  unfold call_assign_modulation_frequency. intros H.
  destruct c as [p|lo]; [|discriminate].
  apply bind_Ok in H. destruct H as [p' [Hp H]]. inversion H; subst c'; clear H.
  unfold assign_modulation_frequency in Hp.
  apply bind_Ok in Hp. destruct Hp as [n [Hn Hp]].
  destruct (dget String.eqb n (sequencers p)) as [s|] eqn:Hs; [|discriminate].
  apply bind_Ok in Hp. destruct Hp as [s' [Hs' Hp]]. inversion Hp; subst p'.
  exists p, n, s, s'. auto.
Qed.

Lemma Sequencer_assign_frequency_inv (freq : value) (s s' : Sequencer) :
  Sequencer_assign_frequency freq s = Ok s' ->
  (py_eqb (modulation_freq (_settings s)) freq = true \/
   is_none (modulation_freq (_settings s)) = true) /\
  modulation_freq (_settings s') = freq.
Proof.
  unfold Sequencer_assign_frequency. intros H.
  destruct (py_eqb (modulation_freq (_settings s)) freq) eqn:E1;
    destruct (is_none (modulation_freq (_settings s))) eqn:E2;
    simpl in H; try discriminate; inversion H; subst s'; simpl; auto.
Qed.

Lemma call_assign_keeps_dev (dev d' : string) (m : list (portclock * string))
  (pc : portclock) (freq : value) (devs devs' : list (string * InstrumentCompiler)) :
  update_device d' (call_assign_modulation_frequency pc freq) devs = Ok devs' ->
  Spec.dev_is dev m devs -> Spec.dev_is dev m devs'.
Proof.
  intros H [p [Hp Hm]]. apply update_device_inv in H.
  destruct H as [c [c' [Hc [Hf Hd]]]]. subst devs'.
  unfold Spec.dev_is. destruct (String.eqb dev d') eqn:E.
  - apply String.eqb_eq in E. subst d'. rewrite sdget_dset_same.
    rewrite Hp in Hc. inversion Hc; subst c.
    apply call_assign_inv in Hf.
    destruct Hf as [p0 [n [s [s' [Hp0 [_ [_ [_ Hc']]]]]]]].
    inversion Hp0; subst p0. subst c'. eexists. split; [reflexivity|exact Hm].
  - rewrite (sdget_dset_other _ _ _ _ E). exists p. auto.
Qed.

Lemma call_assign_keeps_seq (dev d' : string) (m : list (portclock * string))
  (pc0 : portclock) (v : Q) (pc : portclock) (freq : value)
  (devs devs' : list (string * InstrumentCompiler)) :
  update_device d' (call_assign_modulation_frequency pc freq) devs = Ok devs' ->
  Spec.seq_has dev m pc0 v devs -> Spec.seq_has dev m pc0 v devs'.
Proof.
  intros H [p [n [s [Hp [Hm [Hn [Hs Hv]]]]]]]. apply update_device_inv in H.
  destruct H as [c [c' [Hc [Hf Hd]]]]. subst devs'.
  unfold Spec.seq_has. destruct (String.eqb dev d') eqn:E.
  - apply String.eqb_eq in E. subst d'. rewrite sdget_dset_same.
    rewrite Hp in Hc. inversion Hc; subst c.
    apply call_assign_inv in Hf.
    destruct Hf as [p0 [n1 [s1 [s1' [Hp0 [Hn1 [Hs1 [Ha Hc']]]]]]]].
    inversion Hp0; subst p0. subst c'.
    destruct (String.eqb n n1) eqn:En.
    + apply String.eqb_eq in En. subst n1. rewrite Hs in Hs1.
      inversion Hs1; subst s1.
      apply Sequencer_assign_frequency_inv in Ha. destruct Ha as [Hc1 Hc2].
      eexists; exists n, s1'. split; [reflexivity|]. split; [exact Hm|].
      split; [exact Hn|]. split; [simpl; apply sdget_dset_same|].
      rewrite Hc2. exact (py_eqb_num_chain _ _ _ Hv Hc1).
    + eexists; exists n, s. split; [reflexivity|]. split; [exact Hm|].
      split; [exact Hn|]. split; [simpl; rewrite (sdget_dset_other _ _ _ _ En); exact Hs|].
      exact Hv.
  - rewrite (sdget_dset_other _ _ _ _ E). exists p, n, s. auto.
Qed.

Lemma call_assign_sets_seq (dev : string) (m : list (portclock * string))
  (pc : portclock) (v : Q) (devs devs' : list (string * InstrumentCompiler)) :
  Spec.dev_is dev m devs ->
  update_device dev (call_assign_modulation_frequency pc (VNum v)) devs = Ok devs' ->
  Spec.seq_has dev m pc v devs'.
Proof.
  intros [p [Hp Hm]] H. apply update_device_inv in H.
  destruct H as [c [c' [Hc [Hf Hd]]]]. subst devs'.
  rewrite Hp in Hc. inversion Hc; subst c.
  apply call_assign_inv in Hf.
  destruct Hf as [p0 [n [s [s' [Hp0 [Hn [Hs [Ha Hc']]]]]]]].
  inversion Hp0; subst p0. subst c'.
  apply Sequencer_assign_frequency_inv in Ha. destruct Ha as [_ Hc2].
  eexists; exists n, s'. split; [apply sdget_dset_same|].
  split; [exact Hm|]. split; [rewrite <- Hm; exact Hn|].
  split; [simpl; apply sdget_dset_same|].
  rewrite Hc2. simpl. apply Qeq_bool_iff. reflexivity.
Qed.

Lemma v_getitem_inv {V} (k : value) (d : list (value * V)) (v : V) :
  v_getitem k d = Ok v -> hashable k = true /\ dget py_eqb k d = Some v.
Proof.
  unfold v_getitem, v_get. destruct (hashable k); simpl; [|discriminate].
  destruct (dget py_eqb k d); intros H; inversion H; auto.
Qed.

Lemma lo_assign_inv (key freq : value) (los los' : list (value * LocalOscillator)) :
  lo_assign key freq los = Ok los' ->
  exists lo,
    hashable key = true /\ dget py_eqb key los = Some lo /\
    (is_none (_lo_freq lo) = true \/ py_eqb freq (_lo_freq lo) = true) /\
    los' = dset py_eqb key {| lo_base := lo_base lo; _lo_freq := freq |} los.
Proof.
  unfold lo_assign. intros H.
  apply bind_Ok in H. destruct H as [lo [Hlo H]].
  apply v_getitem_inv in Hlo. destruct Hlo as [Hh Hlo].
  apply bind_Ok in H. destruct H as [lo' [Ha H]]. inversion H; subst los'; clear H.
  unfold LocalOscillator_assign_frequency in Ha.
  exists lo.
  destruct (is_none (_lo_freq lo)) eqn:E1;
    destruct (py_eqb freq (_lo_freq lo)) eqn:E2;
    simpl in Ha; try discriminate; inversion Ha; subst lo'; auto.
Qed.

Lemma lo_assign_keeps (lo : value) (v : Q) (key freq : value)
  (los los' : list (value * LocalOscillator)) :
  lo_assign key freq los = Ok los' ->
  Spec.lo_has lo v los -> Spec.lo_has lo v los'.
Proof.
  intros H [l [Hl Hv]]. apply lo_assign_inv in H.
  destruct H as [l0 [Hh [Hk [Hc Hd]]]]. subst los'.
  unfold Spec.lo_has. destruct (py_eqb lo key) eqn:E.
  - rewrite (dget_dset_eq py_eqb py_eqb_sym py_eqb_trans lo key _ los E).
    rewrite (dget_respects py_eqb py_eqb_sym py_eqb_trans lo key los E) in Hl.
    rewrite Hk in Hl. inversion Hl; subst l0.
    eexists. split; [reflexivity|]. simpl.
    apply (py_eqb_num_chain v (_lo_freq l) freq Hv).
    destruct Hc as [Hc|Hc]; [right; exact Hc | left; rewrite py_eqb_sym; exact Hc].
  - rewrite (dget_dset_neq py_eqb py_eqb_sym py_eqb_trans lo key _ los E).
    exists l. auto.
Qed.

Lemma lo_assign_sets (lo : value) (v : Q)
  (los los' : list (value * LocalOscillator)) :
  lo_assign lo (VNum v) los = Ok los' -> Spec.lo_has lo v los'.
Proof.
  intros H. apply lo_assign_inv in H.
  destruct H as [l0 [Hh [Hk [Hc Hd]]]]. subst los'.
  eexists. split.
  - apply (dget_dset_eq py_eqb py_eqb_sym py_eqb_trans). apply py_eqb_refl. exact Hh.
  - simpl. apply Qeq_bool_iff. reflexivity.
Qed.

Lemma getitem_inv (k : string) (d : pydict) (v : value) :
  getitem k d = Ok v -> get k d = Some v.
Proof.
  unfold getitem. destruct (get k d); intros H; inversion H; reflexivity.
Qed.

(** What a successful iteration of the loop without LO frequency did. *)
Lemma assign_from_interm_freq_inv (lo_key : value)
  (pcm : list (portclock * string)) (res : list (string * pydict))
  (pcd : pydict) (devs devs' : list (string * InstrumentCompiler))
  (los los' : list (value * LocalOscillator)) (used used' : list value) :
  assign_from_interm_freq lo_key pcm res pcd (devs, los, used)
  = Ok (devs', los', used') ->
  exists port clock interm_freq r,
    get "port" pcd = Some port /\ get "clock" pcd = Some clock /\
    get "interm_freq" pcd = Some interm_freq /\
    resource_lookup clock res = Ok r /\
    match r with
    | None => devs' = devs /\ los' = los
    | Some clock_resource =>
        exists cl_freq dev_name lo_freq,
          get "freq" clock_resource = Some cl_freq /\
          pc_getitem (port, clock) pcm = Ok dev_name /\
          update_device dev_name
            (call_assign_modulation_frequency (port, clock) interm_freq) devs
          = Ok devs' /\
          py_sub cl_freq interm_freq = Ok lo_freq /\
          lo_assign lo_key lo_freq los = Ok los'
    end.
Proof.
  unfold assign_from_interm_freq. intros H.
  apply bind_Ok in H. destruct H as [port [Hport H]].
  apply bind_Ok in H. destruct H as [clock [Hclock H]].
  apply bind_Ok in H. destruct H as [i [Hi H]].
  apply bind_Ok in H. destruct H as [r [Hr H]].
  exists port, clock, i, r.
  repeat (split; [auto using getitem_inv|]).
  destruct r as [cr|]; [|inversion H; auto].
  apply bind_Ok in H. destruct H as [cl [Hcl H]].
  apply bind_Ok in H. destruct H as [dev [Hdev H]].
  apply bind_Ok in H. destruct H as [lo_obj [_ H]].
  apply bind_Ok in H. destruct H as [u [_ H]].
  apply bind_Ok in H. destruct H as [d1 [Hd1 H]].
  apply bind_Ok in H. destruct H as [lf [Hlf H]].
  apply bind_Ok in H. destruct H as [l1 [Hl1 H]].
  inversion H; subst. exists cl, dev, lf. auto using getitem_inv.
Qed.

(** What a successful iteration of the loop with LO frequency did. *)
Lemma assign_from_lo_freq_inv (lo_key lo_freq : value)
  (pcm : list (portclock * string)) (res : list (string * pydict))
  (pcd : pydict) (devs devs' : list (string * InstrumentCompiler))
  (los los' : list (value * LocalOscillator)) (used used' : list value) :
  assign_from_lo_freq lo_key lo_freq pcm res pcd (devs, los, used)
  = Ok (devs', los', used') ->
  los' = los /\
  exists port clock dev_name r,
    get "port" pcd = Some port /\ get "clock" pcd = Some clock /\
    pc_getitem (port, clock) pcm = Ok dev_name /\
    resource_lookup clock res = Ok r /\
    match r with
    | None => devs' = devs
    | Some clock_resource =>
        exists cl_freq interm_freq,
          get "freq" clock_resource = Some cl_freq /\
          py_sub cl_freq lo_freq = Ok interm_freq /\
          update_device dev_name
            (call_assign_modulation_frequency (port, clock) interm_freq) devs
          = Ok devs'
    end.
Proof.
  unfold assign_from_lo_freq. intros H.
  apply bind_Ok in H. destruct H as [port [Hport H]].
  apply bind_Ok in H. destruct H as [clock [Hclock H]].
  apply bind_Ok in H. destruct H as [dev [Hdev H]].
  apply bind_Ok in H. destruct H as [lo_obj [_ H]].
  apply bind_Ok in H. destruct H as [u [_ H]].
  destruct (dget String.eqb dev devs) as [[p|lo]|]; try discriminate.
  apply bind_Ok in H. destruct H as [r [Hr H]].
  destruct r as [cr|].
  - apply bind_Ok in H. destruct H as [cl [Hcl H]].
    apply bind_Ok in H. destruct H as [i [Hi H]].
    apply bind_Ok in H. destruct H as [d1 [Hd1 H]].
    inversion H; subst. split; [reflexivity|].
    exists port, clock, dev, (Some cr).
    repeat (split; [auto using getitem_inv|]).
    exists cl, i. auto using getitem_inv.
  - inversion H; subst. split; [reflexivity|].
    exists port, clock, dev, None. auto using getitem_inv.
Qed.

Section StepInvariant.

(** A property [Pd] of the device compilers kept by every assignment of a
    modulation frequency, and a property [Pl] of the oscillators kept by
    every assignment of an LO frequency, are kept by the loops of
    [_assign_frequencies]. *)
Variable Pd : list (string * InstrumentCompiler) -> Prop.
Variable Pl : list (value * LocalOscillator) -> Prop.
Hypothesis Pd_kept :
  forall dev pc freq devs devs',
    update_device dev (call_assign_modulation_frequency pc freq) devs = Ok devs' ->
    Pd devs -> Pd devs'.
Hypothesis Pl_kept :
  forall key freq los los',
    lo_assign key freq los = Ok los' -> Pl los -> Pl los'.

Lemma assign_from_interm_freq_keeps (lo_key : value)
  (pcm : list (portclock * string)) (res : list (string * pydict))
  (pcd : pydict) (st st' : freq_state) :
  Spec.freq_inv Pd Pl st ->
  assign_from_interm_freq lo_key pcm res pcd st = Ok st' ->
  Spec.freq_inv Pd Pl st'.
Proof.
  destruct st as [[devs los] used], st' as [[devs' los'] used'].
  intros [Hd Hl] H. apply assign_from_interm_freq_inv in H.
  destruct H as [port [clock [i [r [_ [_ [_ [_ H]]]]]]]].
  destruct r as [cr|].
  - destruct H as [cl [dev [lf [_ [_ [Hu [_ Ha]]]]]]].
    split; simpl; [exact (Pd_kept _ _ _ _ _ Hu Hd) | exact (Pl_kept _ _ _ _ Ha Hl)].
  - destruct H; subst. split; assumption.
Qed.

Lemma assign_from_lo_freq_keeps (lo_key lo_freq : value)
  (pcm : list (portclock * string)) (res : list (string * pydict))
  (pcd : pydict) (st st' : freq_state) :
  Spec.freq_inv Pd Pl st ->
  assign_from_lo_freq lo_key lo_freq pcm res pcd st = Ok st' ->
  Spec.freq_inv Pd Pl st'.
Proof.
  destruct st as [[devs los] used], st' as [[devs' los'] used'].
  intros [Hd Hl] H. apply assign_from_lo_freq_inv in H.
  destruct H as [Hlos [port [clock [dev [r [_ [_ [_ [_ H]]]]]]]]]. subst los'.
  split; simpl; [|exact Hl].
  destruct r as [cr|].
  - destruct H as [cl [i [_ [_ Hu]]]]. exact (Pd_kept _ _ _ _ _ Hu Hd).
  - subst. exact Hd.
Qed.

Lemma assign_for_lo_keeps (pcm : list (portclock * string))
  (res : list (string * pydict)) (lo_info_dict : pydict) (st st' : freq_state) :
  Spec.freq_inv Pd Pl st ->
  assign_for_lo pcm res lo_info_dict st = Ok st' ->
  Spec.freq_inv Pd Pl st'.
Proof.
  destruct st as [[devs los] used].
  intros Hinv H. unfold assign_for_lo in H.
  apply bind_Ok in H. destruct H as [lo_key [_ H]].
  apply bind_Ok in H. destruct H as [lo_obj [_ H]].
  destruct (is_none _).
  - refine (for_each_inv (Spec.freq_inv Pd Pl) _ _ _ _ _ Hinv H).
    intros y s s' _ Hs Hb.
    exact (assign_from_interm_freq_keeps _ _ _ _ _ _ Hs Hb).
  - apply bind_Ok in H. destruct H as [los1 [Ha H]].
    destruct Hinv as [Hd Hl].
    assert (Hinv1 : Spec.freq_inv Pd Pl (devs, los1, used)).
    { split; simpl; [exact Hd | exact (Pl_kept _ _ _ _ Ha Hl)]. }
    refine (for_each_inv (Spec.freq_inv Pd Pl) _ _ _ _ _ Hinv1 H).
    intros y s s' _ Hs Hb.
    exact (assign_from_lo_freq_keeps _ _ _ _ _ _ _ Hs Hb).
Qed.

End StepInvariant.

Lemma py_sub_inv (a b v : value) :
  py_sub a b = Ok v ->
  exists x y, num_of a = Some x /\ num_of b = Some y /\ v = VNum (x - y).
Proof.
  unfold py_sub. destruct (num_of a) as [x|]; [|discriminate].
  destruct (num_of b) as [y|]; [|discriminate].
  intros H. inversion H. exists x, y. auto.
Qed.

Lemma dget_Some_In {K V} (eqb : K -> K -> bool) (k : K) (d : list (K * V)) (v : V) :
  dget eqb k d = Some v -> exists k1, In (k1, v) d /\ eqb k k1 = true.
Proof.
  induction d as [|[k0 v0] d IH]; simpl; [discriminate|].
  destruct (eqb k k0) eqn:E.
  - intros H. inversion H; subst. exists k0. auto.
  - intros H. destruct (IH H) as [k1 [Hin He]]. exists k1. auto.
Qed.

(** Pruning a dictionary by a test on the keys that respects the key
    comparison does not change what a surviving key maps to. *)
Lemma dget_filter_keys {K V} (eqb : K -> K -> bool) (f : K -> bool)
  (k : K) (d : list (K * V)) (v : V) :
  (forall a b, eqb a b = true -> f a = f b) ->
  dget eqb k (filter (fun kv => f (fst kv)) d) = Some v ->
  dget eqb k d = Some v.
Proof.
  intros Hf. induction d as [|[k0 v0] d IH]; simpl; [discriminate|].
  destruct (f k0) eqn:Ef; simpl.
  - destruct (eqb k k0); [auto | exact IH].
  - intros H. destruct (eqb k k0) eqn:E; [|exact (IH H)].
    exfalso. apply dget_Some_In in H. destruct H as [k1 [Hin He]].
    apply filter_In in Hin. destruct Hin as [_ Hk1]. simpl in Hk1.
    rewrite <- (Hf k k1 He), (Hf k k0 E), Ef in Hk1. discriminate.
Qed.

Lemma existsb_py_eqb_respects (used : list value) (a b : value) :
  py_eqb a b = true -> existsb (py_eqb a) used = existsb (py_eqb b) used.
Proof.
  intros H. induction used as [|u used IH]; simpl; [reflexivity|].
  rewrite (eqb_respects py_eqb py_eqb_sym py_eqb_trans a b u H), IH. reflexivity.
Qed.

Lemma resource_lookup_str (clock : value) (res : list (string * pydict))
  (r r' : option pydict) :
  resource_lookup clock res = Ok r -> resource_lookup clock res = Ok r' -> r = r'.
Proof. intros H H'. rewrite H in H'. inversion H'. reflexivity. Qed.

(** *** Frequency assignment in [_assign_frequencies] *)

(** Only the intermodulation frequency is declared: the oscillator of the
    output ends with the clock frequency minus the declared IF. *)
Lemma assign_frequencies_if_only
  (devs devs' : list (string * InstrumentCompiler))
  (los los' : list (value * LocalOscillator))
  (hw : pydict) (pcm : list (portclock * string)) (res : list (string * pydict))
  (d pcd r : pydict) (lo_name p c i f : value) :
  _assign_frequencies devs los hw pcm res = Ok (devs', los') ->
  In d (find_inner_dicts_containing_key hw "lo_name") ->
  get "lo_name" d = Some lo_name ->
  is_none (match get "lo_freq" d with Some v => v | None => VNone end) = true ->
  In pcd (find_inner_dicts_containing_key d "port") ->
  get "port" pcd = Some p -> get "clock" pcd = Some c ->
  get "interm_freq" pcd = Some i ->
  resource_lookup c res = Ok (Some r) -> get "freq" r = Some f ->
  exists f_rf f_if,
    num_of f = Some f_rf /\ num_of i = Some f_if /\
    forall lo, dget py_eqb lo_name los' = Some lo ->
               py_eqb (VNum (f_rf - f_if)) (_lo_freq lo) = true.
Proof.
  intros Hrun Hd Hname Hnone Hpcd Hp Hc Hi Hres Hf.
  unfold _assign_frequencies in Hrun.
  apply bind_Ok in Hrun. destruct Hrun as [[[d1 l1] u1] [Hloop Hrun]].
  inversion Hrun; subst devs' los'; clear Hrun.
  set (P := fun st : freq_state =>
              exists x y, num_of f = Some x /\ num_of i = Some y /\
                          Spec.lo_has lo_name (x - y) (snd (fst st))).
  assert (Hkeep_if : forall lk y s0 s1, P s0 ->
            assign_from_interm_freq lk pcm res y s0 = Ok s1 -> P s1).
  { intros lk y s0 s1 [x [y0 [Hx [Hy Hl]]]] Hstep.
    exists x, y0. split; [exact Hx|]. split; [exact Hy|].
    apply (assign_from_interm_freq_keeps (fun _ => True)
             (Spec.lo_has lo_name (x - y0))
             (fun _ _ _ _ _ _ _ => I)
             (fun key fr a b Ha Hb => lo_assign_keeps _ _ _ _ _ _ Ha Hb)
             _ _ _ _ s0 s1 (conj I Hl) Hstep). }
  assert (Hkeep : forall y s0 s1, P s0 -> assign_for_lo pcm res y s0 = Ok s1 -> P s1).
  { intros y s0 s1 [x [y0 [Hx [Hy Hl]]]] Hstep.
    exists x, y0. split; [exact Hx|]. split; [exact Hy|].
    apply (assign_for_lo_keeps (fun _ => True)
             (Spec.lo_has lo_name (x - y0))
             (fun _ _ _ _ _ _ _ => I)
             (fun key fr a b Ha Hb => lo_assign_keeps _ _ _ _ _ _ Ha Hb)
             _ _ _ s0 s1 (conj I Hl) Hstep). }
  assert (HP : P (d1, l1, u1)).
  { refine (for_each_establish (fun _ => True) P _ _ d Hd _ _ Hkeep _ _ I Hloop).
    - auto.
    - intros [[dv ls] us] st' _ Hb. unfold assign_for_lo in Hb.
      unfold getitem in Hb. rewrite Hname in Hb. cbn [bind] in Hb.
      apply bind_Ok in Hb. destruct Hb as [lo_obj [_ Hb]].
      rewrite Hnone in Hb.
      refine (for_each_establish (fun _ => True) P _ _ pcd Hpcd _ _
                (Hkeep_if lo_name) _ _ I Hb).
      + auto.
      + intros [[dv0 ls0] us0] [[dv1 ls1] us1] _ Hstep.
        apply assign_from_interm_freq_inv in Hstep.
        destruct Hstep as [p' [c' [i' [r' [Hp' [Hc' [Hi' [Hr' Hstep]]]]]]]].
        rewrite Hp in Hp'. rewrite Hc in Hc'. rewrite Hi in Hi'.
        inversion Hp'; inversion Hc'; inversion Hi'; subst p' c' i'.
        rewrite Hres in Hr'. inversion Hr'; subst r'.
        destruct Hstep as [cl [dev [lf [Hcl [_ [_ [Hsub Hassign]]]]]]].
        rewrite Hf in Hcl. inversion Hcl; subst cl.
        apply py_sub_inv in Hsub. destruct Hsub as [x [y [Hx [Hy Hlf]]]]. subst lf.
        exists x, y. split; [exact Hx|]. split; [exact Hy|].
        simpl. exact (lo_assign_sets _ _ _ _ Hassign). }
  destruct HP as [x [y [Hx [Hy [l [Hl Hv]]]]]]. simpl in Hl.
  exists x, y. split; [exact Hx|]. split; [exact Hy|].
  intros lo Hlo.
  apply (dget_filter_keys py_eqb (fun k => existsb (py_eqb k) u1)) in Hlo;
    [| intros a b Hab; apply existsb_py_eqb_respects; exact Hab].
  rewrite Hl in Hlo. inversion Hlo; subst lo. exact Hv.
Qed.

(** Only the LO frequency is declared: the sequencer of the port-clock
    ends with the clock frequency minus the declared LO frequency. *)
Lemma assign_frequencies_lo_only
  (devs devs' : list (string * InstrumentCompiler))
  (los los' : list (value * LocalOscillator))
  (hw : pydict) (pcm : list (portclock * string)) (res : list (string * pydict))
  (d pcd r : pydict) (lo_name lo_freq p c f : value) (dev : string) (p0 : Pulsar) :
  _assign_frequencies devs los hw pcm res = Ok (devs', los') ->
  In d (find_inner_dicts_containing_key hw "lo_name") ->
  get "lo_name" d = Some lo_name ->
  get "lo_freq" d = Some lo_freq -> is_none lo_freq = false ->
  In pcd (find_inner_dicts_containing_key d "port") ->
  get "port" pcd = Some p -> get "clock" pcd = Some c ->
  resource_lookup c res = Ok (Some r) -> get "freq" r = Some f ->
  pc_getitem (p, c) pcm = Ok dev ->
  dget String.eqb dev devs = Some (IC_Pulsar p0) ->
  exists f_rf f_lo,
    num_of f = Some f_rf /\ num_of lo_freq = Some f_lo /\
    Spec.seq_has dev (portclock_map p0) (p, c) (f_rf - f_lo) devs'.
Proof.
  intros Hrun Hd Hname Hlo Hnn Hpcd Hp Hc Hres Hf Hdev Hp0.
  unfold _assign_frequencies in Hrun.
  apply bind_Ok in Hrun. destruct Hrun as [[[d1 l1] u1] [Hloop Hrun]].
  inversion Hrun; subst devs' los'; clear Hrun.
  set (M := portclock_map p0).
  set (Inv := fun st : freq_state => Spec.dev_is dev M (fst (fst st))).
  set (P := fun st : freq_state =>
              exists x y, num_of f = Some x /\ num_of lo_freq = Some y /\
                          Spec.seq_has dev M (p, c) (x - y) (fst (fst st))).
  assert (HInv_step : forall lk lf y s s', Inv s ->
            assign_from_lo_freq lk lf pcm res y s = Ok s' -> Inv s').
  { intros lk lf y s s' Hs Hb.
    apply (assign_from_lo_freq_keeps (Spec.dev_is dev M) (fun _ => True)
             (fun d' pc fr a b Ha Hb' => call_assign_keeps_dev _ _ _ _ _ _ _ Ha Hb')
             _ _ _ _ _ s s' (conj Hs I) Hb). }
  assert (HInv_for_lo : forall y s s', Inv s -> assign_for_lo pcm res y s = Ok s' -> Inv s').
  { intros y s s' Hs Hb.
    apply (assign_for_lo_keeps (Spec.dev_is dev M) (fun _ => True)
             (fun d' pc fr a b Ha Hb' => call_assign_keeps_dev _ _ _ _ _ _ _ Ha Hb')
             (fun _ _ _ _ _ _ => I) _ _ _ s s' (conj Hs I) Hb). }
  assert (Hkeep_step : forall lk lf y s0 s1, P s0 ->
            assign_from_lo_freq lk lf pcm res y s0 = Ok s1 -> P s1).
  { intros lk lf y s0 s1 [x [y0 [Hx [Hy Hl]]]] Hstep.
    exists x, y0. split; [exact Hx|]. split; [exact Hy|].
    apply (assign_from_lo_freq_keeps (Spec.seq_has dev M (p, c) (x - y0))
             (fun _ => True)
             (fun d' pc fr a b Ha Hb' =>
                call_assign_keeps_seq _ _ _ _ _ _ _ _ _ Ha Hb')
             _ _ _ _ _ s0 s1 (conj Hl I) Hstep). }
  assert (Hkeep : forall y s0 s1, P s0 -> assign_for_lo pcm res y s0 = Ok s1 -> P s1).
  { intros y s0 s1 [x [y0 [Hx [Hy Hl]]]] Hstep.
    exists x, y0. split; [exact Hx|]. split; [exact Hy|].
    apply (assign_for_lo_keeps (Spec.seq_has dev M (p, c) (x - y0))
             (fun _ => True)
             (fun d' pc fr a b Ha Hb' =>
                call_assign_keeps_seq _ _ _ _ _ _ _ _ _ Ha Hb')
             (fun _ _ _ _ _ _ => I) _ _ _ s0 s1 (conj Hl I) Hstep). }
  assert (Hstart : Inv (devs, los, @nil value)) by (exists p0; auto).
  assert (HP : P (d1, l1, u1)).
  { refine (for_each_establish Inv P _ _ d Hd HInv_for_lo _ Hkeep _ _ Hstart Hloop).
    intros [[dv ls] us] st' Hs Hb. unfold assign_for_lo in Hb.
    unfold getitem in Hb. rewrite Hname in Hb. cbn [bind] in Hb.
    apply bind_Ok in Hb. destruct Hb as [lo_obj [_ Hb]].
    rewrite Hlo, Hnn in Hb.
    apply bind_Ok in Hb. destruct Hb as [ls1 [_ Hb]].
    assert (Hs1 : Inv (dv, ls1, us)) by exact Hs.
    refine (for_each_establish Inv P _ _ pcd Hpcd
              (HInv_step lo_name lo_freq) _ (Hkeep_step lo_name lo_freq)
              _ _ Hs1 Hb).
    intros [[dv0 ls0] us0] [[dv1 ls1'] us1] Hs0 Hstep.
    apply assign_from_lo_freq_inv in Hstep.
    destruct Hstep as [_ [p' [c' [dev' [r' [Hp' [Hc' [Hdev' [Hr' Hstep]]]]]]]]].
    rewrite Hp in Hp'. rewrite Hc in Hc'.
    inversion Hp'; inversion Hc'; subst p' c'.
    rewrite Hdev in Hdev'. inversion Hdev'; subst dev'.
    rewrite Hres in Hr'. inversion Hr'; subst r'.
    destruct Hstep as [cl [iv [Hcl [Hsub Hupd]]]].
    rewrite Hf in Hcl. inversion Hcl; subst cl.
    apply py_sub_inv in Hsub. destruct Hsub as [x [y [Hx [Hy Hiv]]]]. subst iv.
    exists x, y. split; [exact Hx|]. split; [exact Hy|].
    simpl. exact (call_assign_sets_seq _ _ _ _ _ _ Hs0 Hupd). }
  exact HP.
Qed.

(** *** An oscillator used by an active port-clock is kept *)

Lemma call_assign_keeps_active (dev d' : string) (pc0 pc : portclock)
  (freq : value) (devs devs' : list (string * InstrumentCompiler)) :
  update_device d' (call_assign_modulation_frequency pc freq) devs = Ok devs' ->
  Spec.dev_active dev pc0 devs -> Spec.dev_active dev pc0 devs'.
Proof.
  intros H [c0 [Hc0 Hact]]. apply update_device_inv in H.
  destruct H as [c [c' [Hc [Hf Hd]]]]. subst devs'.
  unfold Spec.dev_active. destruct (String.eqb dev d') eqn:E.
  - apply String.eqb_eq in E. subst d'. rewrite sdget_dset_same.
    rewrite Hc0 in Hc. inversion Hc; subst c.
    apply call_assign_inv in Hf.
    destruct Hf as [p0 [n [s [s' [Hp0 [_ [_ [_ Hc']]]]]]]]. subst c0 c'.
    eexists. split; [reflexivity|]. exact Hact.
  - rewrite (sdget_dset_other _ _ _ _ E). exists c0. auto.
Qed.

Lemma lo_assign_keeps_named (lo key freq : value)
  (los los' : list (value * LocalOscillator)) :
  lo_assign key freq los = Ok los' ->
  Spec.lo_named lo los -> Spec.lo_named lo los'.
Proof.
  intros H [l [Hl Hn]]. apply lo_assign_inv in H.
  destruct H as [l0 [Hh [Hk [Hc Hd]]]]. subst los'.
  unfold Spec.lo_named. destruct (py_eqb lo key) eqn:E.
  - rewrite (dget_dset_eq py_eqb py_eqb_sym py_eqb_trans lo key _ los E).
    rewrite (dget_respects py_eqb py_eqb_sym py_eqb_trans lo key los E) in Hl.
    rewrite Hk in Hl. inversion Hl; subst l0.
    eexists. split; [reflexivity|]. exact Hn.
  - rewrite (dget_dset_neq py_eqb py_eqb_sym py_eqb_trans lo key _ los E).
    exists l. auto.
Qed.

Lemma mark_used_grows (dev : string) (pc : portclock) (x : value)
  (devs : list (string * InstrumentCompiler)) (used used' : list value) :
  mark_used dev pc x devs used = Ok used' ->
  exists ext, used' = used ++ ext.
Proof.
  unfold mark_used. destruct (dget String.eqb dev devs) as [c|]; [|discriminate].
  destruct (in_portclocks_with_data pc (compiler_base c)); intros H;
    inversion H; [exists [x] | exists []; rewrite app_nil_r]; reflexivity.
Qed.

(** The set [los_used] only grows. *)
Lemma assign_from_interm_freq_grows (lo_key : value)
  (pcm : list (portclock * string)) (res : list (string * pydict))
  (pcd : pydict) (st st' : freq_state) :
  assign_from_interm_freq lo_key pcm res pcd st = Ok st' ->
  exists ext, snd st' = snd st ++ ext.
Proof.
  destruct st as [[devs los] used]. unfold assign_from_interm_freq. intros H.
  apply bind_Ok in H. destruct H as [port [_ H]].
  apply bind_Ok in H. destruct H as [clock [_ H]].
  apply bind_Ok in H. destruct H as [i [_ H]].
  apply bind_Ok in H. destruct H as [r [_ H]].
  destruct r as [cr|];
    [|inversion H; exists []; simpl; rewrite app_nil_r; reflexivity].
  apply bind_Ok in H. destruct H as [cl [_ H]].
  apply bind_Ok in H. destruct H as [dev [_ H]].
  apply bind_Ok in H. destruct H as [lo_obj [_ H]].
  apply bind_Ok in H. destruct H as [u [Hu H]].
  apply bind_Ok in H. destruct H as [d1 [_ H]].
  apply bind_Ok in H. destruct H as [lf [_ H]].
  apply bind_Ok in H. destruct H as [l1 [_ H]].
  inversion H; subst; simpl. exact (mark_used_grows _ _ _ _ _ _ Hu).
Qed.

Lemma assign_from_lo_freq_grows (lo_key lo_freq : value)
  (pcm : list (portclock * string)) (res : list (string * pydict))
  (pcd : pydict) (st st' : freq_state) :
  assign_from_lo_freq lo_key lo_freq pcm res pcd st = Ok st' ->
  exists ext, snd st' = snd st ++ ext.
Proof.
  destruct st as [[devs los] used]. unfold assign_from_lo_freq. intros H.
  apply bind_Ok in H. destruct H as [port [_ H]].
  apply bind_Ok in H. destruct H as [clock [_ H]].
  apply bind_Ok in H. destruct H as [dev [_ H]].
  apply bind_Ok in H. destruct H as [lo_obj [_ H]].
  apply bind_Ok in H. destruct H as [u [Hu H]].
  destruct (dget String.eqb dev devs) as [[p|lo]|]; try discriminate.
  apply bind_Ok in H. destruct H as [r [_ H]].
  destruct r as [cr|].
  - apply bind_Ok in H. destruct H as [cl [_ H]].
    apply bind_Ok in H. destruct H as [i [_ H]].
    apply bind_Ok in H. destruct H as [d1 [_ H]].
    inversion H; subst; simpl. exact (mark_used_grows _ _ _ _ _ _ Hu).
  - inversion H; subst; simpl. exact (mark_used_grows _ _ _ _ _ _ Hu).
Qed.

Lemma existsb_app_l {A} (f : A -> bool) (l ext : list A) :
  existsb f l = true -> existsb f (l ++ ext) = true.
Proof. intros H. rewrite existsb_app, H. reflexivity. Qed.

Lemma assign_for_lo_keeps_used (lo : value) (pcm : list (portclock * string))
  (res : list (string * pydict)) (lo_info_dict : pydict) (st st' : freq_state) :
  existsb (py_eqb lo) (snd st) = true ->
  assign_for_lo pcm res lo_info_dict st = Ok st' ->
  existsb (py_eqb lo) (snd st') = true.
Proof.
  destruct st as [[devs los] used].
  intros Hu H. unfold assign_for_lo in H.
  apply bind_Ok in H. destruct H as [lo_key [_ H]].
  apply bind_Ok in H. destruct H as [lo_obj [_ H]].
  destruct (is_none _).
  - refine (for_each_inv (fun s => existsb (py_eqb lo) (snd s) = true)
              _ _ _ _ _ Hu H).
    intros y s s' _ Hs Hb. apply assign_from_interm_freq_grows in Hb.
    destruct Hb as [ext Hext]. rewrite Hext. apply existsb_app_l. exact Hs.
  - apply bind_Ok in H. destruct H as [los1 [_ H]].
    refine (for_each_inv (fun s => existsb (py_eqb lo) (snd s) = true)
              _ _ _ (devs, los1, used) _ Hu H).
    intros y s s' _ Hs Hb. apply assign_from_lo_freq_grows in Hb.
    destruct Hb as [ext Hext]. rewrite Hext. apply existsb_app_l. exact Hs.
Qed.

(** A key that passes the pruning test keeps its value. *)
Lemma dget_filter_keys_kept {K V} (eqb : K -> K -> bool) (f : K -> bool)
  (k : K) (d : list (K * V)) :
  (forall a b, eqb a b = true -> f a = f b) ->
  f k = true ->
  dget eqb k (filter (fun kv => f (fst kv)) d) = dget eqb k d.
Proof.
  intros Hf Hk. induction d as [|[k0 v0] d IH]; simpl; [reflexivity|].
  destruct (f k0) eqn:Ef; simpl.
  - rewrite IH. reflexivity.
  - destruct (eqb k k0) eqn:E; [|exact IH].
    rewrite (Hf k k0 E), Ef in Hk. discriminate.
Qed.

(** The oscillator of an output whose port-clock holds data survives the
    pruning of unused oscillators. *)
Lemma assign_frequencies_lo_kept
  (devs devs' : list (string * InstrumentCompiler))
  (los los' : list (value * LocalOscillator))
  (hw : pydict) (pcm : list (portclock * string)) (res : list (string * pydict))
  (d pcd r : pydict) (lo_name p c i : value) (dev : string) :
  _assign_frequencies devs los hw pcm res = Ok (devs', los') ->
  In d (find_inner_dicts_containing_key hw "lo_name") ->
  get "lo_name" d = Some lo_name ->
  is_none (match get "lo_freq" d with Some v => v | None => VNone end) = true ->
  In pcd (find_inner_dicts_containing_key d "port") ->
  get "port" pcd = Some p -> get "clock" pcd = Some c ->
  resource_lookup c res = Ok (Some r) ->
  pc_getitem (p, c) pcm = Ok dev ->
  Spec.dev_active dev (p, c) devs ->
  Spec.lo_named lo_name los ->
  exists lo, dget py_eqb lo_name los' = Some lo.
Proof.
  intros Hrun Hd Hname Hnone Hpcd Hp Hc Hres Hdev Hact Hnamed.
  unfold _assign_frequencies in Hrun.
  apply bind_Ok in Hrun. destruct Hrun as [[[d1 l1] u1] [Hloop Hrun]].
  inversion Hrun; subst devs' los'; clear Hrun.
  set (Inv := Spec.freq_inv (Spec.dev_active dev (p, c)) (Spec.lo_named lo_name)).
  set (P := fun st : freq_state => existsb (py_eqb lo_name) (snd st) = true).
  assert (Hd_kept : forall d' pc fr a b,
            update_device d' (call_assign_modulation_frequency pc fr) a = Ok b ->
            Spec.dev_active dev (p, c) a -> Spec.dev_active dev (p, c) b).
  { intros d' pc fr a b Ha Hb. exact (call_assign_keeps_active _ _ _ _ _ _ _ Ha Hb). }
  assert (Hl_kept : forall key fr a b,
            lo_assign key fr a = Ok b ->
            Spec.lo_named lo_name a -> Spec.lo_named lo_name b).
  { intros key fr a b Ha Hb. exact (lo_assign_keeps_named _ _ _ _ _ Ha Hb). }
  assert (HInv_step : forall lk y s s', Inv s ->
            assign_from_interm_freq lk pcm res y s = Ok s' -> Inv s').
  { intros lk y s s' Hs Hb.
    exact (assign_from_interm_freq_keeps _ _ Hd_kept Hl_kept _ _ _ _ _ _ Hs Hb). }
  assert (HInv_for_lo : forall y s s', Inv s ->
            assign_for_lo pcm res y s = Ok s' -> Inv s').
  { intros y s s' Hs Hb.
    exact (assign_for_lo_keeps _ _ Hd_kept Hl_kept _ _ _ _ _ Hs Hb). }
  assert (Hkeep_step : forall lk y s0 s1, P s0 ->
            assign_from_interm_freq lk pcm res y s0 = Ok s1 -> P s1).
  { intros lk y s0 s1 Hs Hb. apply assign_from_interm_freq_grows in Hb.
    destruct Hb as [ext Hext]. unfold P. rewrite Hext.
    apply existsb_app_l. exact Hs. }
  assert (Hkeep : forall y s0 s1, P s0 -> assign_for_lo pcm res y s0 = Ok s1 -> P s1).
  { intros y s0 s1 Hs Hb. exact (assign_for_lo_keeps_used _ _ _ _ _ _ Hs Hb). }
  assert (Hstart : Inv (devs, los, @nil value)) by (split; assumption).
  assert (HP : P (d1, l1, u1)).
  { refine (for_each_establish Inv P _ _ d Hd HInv_for_lo _ Hkeep _ _ Hstart Hloop).
    intros [[dv ls] us] st' Hs Hb. unfold assign_for_lo in Hb.
    unfold getitem in Hb. rewrite Hname in Hb. cbn [bind] in Hb.
    apply bind_Ok in Hb. destruct Hb as [lo_obj [_ Hb]].
    rewrite Hnone in Hb.
    refine (for_each_establish Inv P _ _ pcd Hpcd
              (HInv_step lo_name) _ (Hkeep_step lo_name) _ _ Hs Hb).
    intros [[dv0 ls0] us0] [[dv1 ls1] us1] [Ha0 Hn0] Hstep.
    simpl in Ha0, Hn0.
    unfold assign_from_interm_freq in Hstep. unfold getitem in Hstep.
    rewrite Hp, Hc in Hstep. cbn [bind] in Hstep.
    apply bind_Ok in Hstep. destruct Hstep as [iv [_ Hstep]].
    rewrite Hres in Hstep. cbn [bind] in Hstep.
    apply bind_Ok in Hstep. destruct Hstep as [cl [_ Hstep]].
    rewrite Hdev in Hstep. cbn [bind] in Hstep.
    apply bind_Ok in Hstep. destruct Hstep as [lo1 [Hlo1 Hstep]].
    apply bind_Ok in Hstep. destruct Hstep as [u [Hu Hstep]].
    apply bind_Ok in Hstep. destruct Hstep as [dd [_ Hstep]].
    apply bind_Ok in Hstep. destruct Hstep as [lf [_ Hstep]].
    apply bind_Ok in Hstep. destruct Hstep as [ll [_ Hstep]].
    inversion Hstep; subst dv1 ls1 us1; clear Hstep.
    unfold P; simpl.
    destruct Ha0 as [c0 [Hc0 Hact0]]. destruct Hn0 as [l0 [Hl0 Hnm]].
    apply v_getitem_inv in Hlo1. destruct Hlo1 as [_ Hlo1].
    rewrite Hl0 in Hlo1. inversion Hlo1; subst lo1.
    unfold mark_used in Hu. rewrite Hc0, Hact0 in Hu. inversion Hu; subst u.
    rewrite existsb_app. simpl. rewrite Hnm. apply orb_true_iff. right. reflexivity. }
  assert (HI : Inv (d1, l1, u1)).
  { refine (for_each_inv Inv _ _ _ _ _ Hstart Hloop).
    intros y s s' _ Hs Hb. exact (HInv_for_lo y s s' Hs Hb). }
  destruct HI as [_ [l [Hl _]]]. simpl in Hl. unfold P in HP. simpl in HP.
  exists l.
  rewrite (dget_filter_keys_kept py_eqb (fun k => existsb (py_eqb k) u1));
    [exact Hl | | exact HP].
  intros a b Hab. apply existsb_py_eqb_respects. exact Hab.
Qed.

(** C2. With mixing enabled and only the intermodulation frequency
    given, [determine_clock_lo_interm_freqs] returns LO = RF - IF, and
    [_assign_frequencies] leaves the oscillator of the output at RF - IF;
    with only the LO frequency given, the former returns IF = RF - LO and
    the latter leaves the sequencer of the port-clock at RF - LO.  RF is
    the clock frequency (after the optional downconversion in the
    helper).  The oscillator of an output whose port-clock holds data is
    still present after the unused oscillators are dropped. *)
Theorem frequency_resolution :
  (forall clock_freq interm_freq downconverter_freq r w,
     helpers.determine_clock_lo_interm_freqs clock_freq None (Some interm_freq)
       downconverter_freq true = Ok (r, w) ->
     exists f_rf,
       helpers.Frequencies_clock r = Some f_rf /\
       helpers.LO r = Some (f_rf - interm_freq)%Q /\
       helpers.IF r = Some interm_freq /\
       (downconverter_freq = None -> f_rf = clock_freq))
  /\
  (forall clock_freq lo_freq downconverter_freq r w,
     helpers.determine_clock_lo_interm_freqs clock_freq (Some lo_freq) None
       downconverter_freq true = Ok (r, w) ->
     exists f_rf,
       helpers.Frequencies_clock r = Some f_rf /\
       helpers.IF r = Some (f_rf - lo_freq)%Q /\
       helpers.LO r = Some lo_freq /\
       (downconverter_freq = None -> f_rf = clock_freq))
  /\
  (forall clock_freq lo_freq interm_freq,
     (lo_freq = None \/ interm_freq = None) ->
     exists r,
       helpers.determine_clock_lo_interm_freqs clock_freq lo_freq interm_freq
         None true = Ok (r, false))
  /\
  (forall devs devs' los los' hw pcm res d pcd r lo_name p c i f,
     _assign_frequencies devs los hw pcm res = Ok (devs', los') ->
     In d (find_inner_dicts_containing_key hw "lo_name") ->
     get "lo_name" d = Some lo_name ->
     is_none (match get "lo_freq" d with Some v => v | None => VNone end) = true ->
     In pcd (find_inner_dicts_containing_key d "port") ->
     get "port" pcd = Some p -> get "clock" pcd = Some c ->
     get "interm_freq" pcd = Some i ->
     resource_lookup c res = Ok (Some r) -> get "freq" r = Some f ->
     exists f_rf f_if,
       num_of f = Some f_rf /\ num_of i = Some f_if /\
       forall lo, dget py_eqb lo_name los' = Some lo ->
                  py_eqb (VNum (f_rf - f_if)) (_lo_freq lo) = true)
  /\
  (forall devs devs' los los' hw pcm res d pcd r lo_name lo_freq p c f dev p0,
     _assign_frequencies devs los hw pcm res = Ok (devs', los') ->
     In d (find_inner_dicts_containing_key hw "lo_name") ->
     get "lo_name" d = Some lo_name ->
     get "lo_freq" d = Some lo_freq -> is_none lo_freq = false ->
     In pcd (find_inner_dicts_containing_key d "port") ->
     get "port" pcd = Some p -> get "clock" pcd = Some c ->
     resource_lookup c res = Ok (Some r) -> get "freq" r = Some f ->
     pc_getitem (p, c) pcm = Ok dev ->
     dget String.eqb dev devs = Some (IC_Pulsar p0) ->
     exists f_rf f_lo,
       num_of f = Some f_rf /\ num_of lo_freq = Some f_lo /\
       Spec.seq_has dev (portclock_map p0) (p, c) (f_rf - f_lo) devs')
  /\
  (forall devs devs' los los' hw pcm res d pcd r lo_name p c dev,
     _assign_frequencies devs los hw pcm res = Ok (devs', los') ->
     In d (find_inner_dicts_containing_key hw "lo_name") ->
     get "lo_name" d = Some lo_name ->
     is_none (match get "lo_freq" d with Some v => v | None => VNone end) = true ->
     In pcd (find_inner_dicts_containing_key d "port") ->
     get "port" pcd = Some p -> get "clock" pcd = Some c ->
     resource_lookup c res = Ok (Some r) ->
     pc_getitem (p, c) pcm = Ok dev ->
     Spec.dev_active dev (p, c) devs ->
     Spec.lo_named lo_name los ->
     exists lo, dget py_eqb lo_name los' = Some lo).
Proof.
  split; [|split; [|split; [|split; [|split]]]].
  - intros clock_freq i dc r w H. unfold helpers.determine_clock_lo_interm_freqs in H.
    apply bind_Ok in H. destruct H as [[clk wd] [Hc H]].
    simpl in H. inversion H; subst r w; simpl.
    exists clk. repeat split.
    intros ->. simpl in Hc. inversion Hc. reflexivity.
  - intros clock_freq l dc r w H. unfold helpers.determine_clock_lo_interm_freqs in H.
    apply bind_Ok in H. destruct H as [[clk wd] [Hc H]].
    simpl in H. inversion H; subst r w; simpl.
    exists clk. repeat split.
    intros ->. simpl in Hc. inversion Hc. reflexivity.
  - intros clock_freq l i _. eexists. reflexivity.
  - intros. eapply assign_frequencies_if_only; eassumption.
  - intros. eapply assign_frequencies_lo_only; eassumption.
  - intros devs devs' los los' hw pcm res d pcd r lo_name p c dev.
    intros. eapply (assign_frequencies_lo_kept devs devs' los los' hw pcm res
                      d pcd r lo_name p c VNone dev); eassumption.
Qed.

Lemma frequency_resolution_witness :
  (exists devs' los' lo,
     _assign_frequencies if_only_devices if_only_oscillators if_only_mapping
       if_only_index (resources if_only_schedule)
     = Ok (devs', los') /\
     dget py_eqb (VStr "lo0") los' = Some lo /\
     py_eqb (VNum (5000000000 - 50000000)) (_lo_freq lo) = true)
  /\
  (exists devs' los' p0,
     _assign_frequencies lo_only_devices lo_only_oscillators lo_only_mapping
       lo_only_index (resources lo_only_schedule)
     = Ok (devs', los') /\
     dget String.eqb "qcm0" lo_only_devices = Some (IC_Pulsar p0) /\
     Spec.seq_has "qcm0" (portclock_map p0) (VStr "q0:mw", VStr "q0.01")
       (7040000000 - 7000000000) devs').
Proof.
  destruct frequency_resolution as [_ [_ [_ [Hif [Hlo Hkept]]]]].
  split.
  - destruct (_assign_frequencies if_only_devices if_only_oscillators
                if_only_mapping if_only_index (resources if_only_schedule))
      as [[devs' los']|e] eqn:E; [|vm_compute in E; discriminate].
    destruct (dget py_eqb (VStr "lo0") los') as [lo|] eqn:El.
    + clear Hkept. exists devs', los', lo. split; [reflexivity|]. split; [exact El|].
      destruct (Hif if_only_devices devs' if_only_oscillators los' if_only_mapping
                  if_only_index (resources if_only_schedule)
                  if_only_output
                  [("port", VStr "q0:mw"); ("clock", VStr "q0.01");
                   ("interm_freq", VNum 50000000)]
                  [("name", VStr "q0.01"); ("freq", VNum 5000000000)]
                  (VStr "lo0") (VStr "q0:mw") (VStr "q0.01") (VNum 50000000)
                  (VNum 5000000000) E)
        as [x [y [Hx [Hy Hall]]]];
        try reflexivity; try (left; reflexivity).
      inversion Hx; inversion Hy; subst x y.
      apply Hall. exact El.
    + exfalso.
      destruct (Hkept if_only_devices devs' if_only_oscillators los'
                  if_only_mapping if_only_index (resources if_only_schedule)
                  if_only_output
                  [("port", VStr "q0:mw"); ("clock", VStr "q0.01");
                   ("interm_freq", VNum 50000000)]
                  [("name", VStr "q0.01"); ("freq", VNum 5000000000)]
                  (VStr "lo0") (VStr "q0:mw") (VStr "q0.01") "qcm0" E)
        as [lo Hlo'];
        try reflexivity; try (left; reflexivity);
        try (eexists; split; vm_compute; reflexivity).
      rewrite El in Hlo'. discriminate.
  - destruct (_assign_frequencies lo_only_devices lo_only_oscillators
                lo_only_mapping lo_only_index (resources lo_only_schedule))
      as [[devs' los']|e] eqn:E; [|vm_compute in E; discriminate].
    destruct (dget String.eqb "qcm0" lo_only_devices) as [[p0|l0]|] eqn:Ed;
      [|vm_compute in Ed; discriminate|vm_compute in Ed; discriminate].
    exists devs', los', p0. split; [reflexivity|]. split; [reflexivity|].
    destruct (Hlo lo_only_devices devs' lo_only_oscillators los' lo_only_mapping
                lo_only_index (resources lo_only_schedule)
                lo_only_output
                [("port", VStr "q0:mw"); ("clock", VStr "q0.01");
                 ("interm_freq", VNone)]
                [("name", VStr "q0.01"); ("freq", VNum 7040000000)]
                (VStr "lo0") (VNum 7000000000) (VStr "q0:mw") (VStr "q0.01")
                (VNum 7040000000) "qcm0" p0 E)
      as [x [y [Hx [Hy Hseq]]]];
      try reflexivity; try (left; reflexivity); try exact Ed.
    inversion Hx; inversion Hy; subst x y. exact Hseq.
Defined.

Lemma find_inner_value_dict (key : string) (d : pydict) :
  find_inner_value key (VDict d) =
  (if has_key key d then [d] else []) ++
  flat_map (fun kv =>
              match snd kv with
              | VDict _ => find_inner_value key (snd kv)
              | VList l => flat_map (find_inner_value key) l
              | _ => []
              end) d.
Proof.
  cbn [find_inner_value]. f_equal.
  induction d as [|[k v] d IH]; [reflexivity|].
  cbn [flat_map snd]. rewrite <- IH. f_equal.
Qed.

Lemma value_size_item (k : string) (v : value) (d : pydict) :
  In (k, v) d -> (value_size v < value_size (VDict d))%nat.
Proof.
  induction d as [|[k0 v0] d IH]; [intros []|].
  intros [H|H]; cbn [value_size fold_right snd] in *.
  - inversion H; subst. lia.
  - specialize (IH H). lia.
Qed.

Lemma value_size_elem (x : value) (l : list value) :
  In x l -> (value_size x < value_size (VList l))%nat.
Proof.
  induction l as [|y l IH]; [intros []|].
  intros [H|H]; cbn [value_size fold_right] in *.
  - subst. lia.
  - specialize (IH H). lia.
Qed.

Lemma find_inner_value_visited_bounded (key : string) (n : nat) :
  forall d x, (value_size (VDict d) <= n)%nat ->
    In x (find_inner_value key (VDict d)) ->
    Inv.visited d x /\ has_key key x = true.
Proof.
  induction n as [|n IH]; intros d x Hn Hin.
  - cbn [value_size] in Hn; lia.
  - rewrite find_inner_value_dict in Hin.
    apply in_app_or in Hin. destruct Hin as [Hin|Hin].
    + destruct (has_key key d) eqn:E; [|destruct Hin].
      destruct Hin as [<-|[]]. split; [constructor | exact E].
    + apply in_flat_map in Hin. destruct Hin as [[k v] [Hkv Hin]].
      cbn [snd] in Hin. pose proof (value_size_item k v d Hkv) as Hlt.
      destruct v as [| | | |l|d']; try (destruct Hin; fail).
      * apply in_flat_map in Hin. destruct Hin as [y [Hy Hin]].
        pose proof (value_size_elem y l Hy).
        destruct y as [| | | | |d']; try (destruct Hin; fail).
        destruct (IH d' x) as [Hv Hk]; [lia | exact Hin |].
        split; [|exact Hk]. exact (Inv.visited_item d k l d' x Hkv Hy Hv).
      * destruct (IH d' x) as [Hv Hk]; [lia | exact Hin |].
        split; [|exact Hk]. exact (Inv.visited_value d k d' x Hkv Hv).
Qed.

Lemma visited_found (key : string) (d x : pydict) :
  Inv.visited d x -> has_key key x = true ->
  In x (find_inner_value key (VDict d)).
Proof.
  intros Hv Hk. induction Hv as [d|d k d' x Hkv Hv IH|d k l d' x Hkv Hy Hv IH];
    rewrite find_inner_value_dict; apply in_or_app.
  - left. rewrite Hk. left. reflexivity.
  - right. apply in_flat_map. exists (k, VDict d'). split; [exact Hkv|].
    exact (IH Hk).
  - right. apply in_flat_map. exists (k, VList l). split; [exact Hkv|].
    cbn [snd]. apply in_flat_map. exists (VDict d'). split; [exact Hy|].
    exact (IH Hk).
Qed.

(** X1. [find_inner_dicts_containing_key] returns exactly the visited
    dictionaries that contain the key: the mapping itself, dictionaries
    that are values of a visited dictionary, and dictionaries that are
    items of a list value of a visited dictionary (a list inside a list is
    not entered). *)
Theorem find_inner_dicts_containing_key_spec (d : pydict) (key : string)
  (x : pydict) :
  In x (find_inner_dicts_containing_key d key) <->
  Inv.visited d x /\ has_key key x = true.
Proof.
  unfold find_inner_dicts_containing_key. split.
  - intros H.
    exact (find_inner_value_visited_bounded key _ d x (le_n _) H).
  - intros [Hv Hk]. exact (visited_found key d x Hv Hk).
Qed.

(** The loop of [find_all_port_clock_combinations] over any list of
    dictionaries, from any accumulator. *)
Lemma port_clock_loop_ok (ds : list pydict) :
  forall acc pcs,
    for_each
      (fun inner_dict port_clocks =>
         match get "port" inner_dict with
         | Some port =>
             if is_none port then Ok port_clocks
             else if negb (has_key "clock" inner_dict)
                  then Raise (AttributeError "Port missing clock")
                  else clock <- getitem "clock" inner_dict ;;
                       Ok (port_clocks ++ [(port, clock)])
         | None => Ok port_clocks
         end) ds acc = Ok pcs ->
    forall pc, In pc pcs <->
      In pc acc \/
      exists x, In x ds /\ get "port" x = Some (fst pc) /\
                is_none (fst pc) = false /\ get "clock" x = Some (snd pc).
Proof.
  induction ds as [|x ds IH]; intros acc pcs H pc; simpl in H.
  - inversion H; subst. split; [auto|]. intros [Hi|[y [[] _]]]; exact Hi.
  - match type of H with bind ?c _ = _ => destruct c as [acc1|e] eqn:Hx end;
      [|discriminate].
    simpl in H. rewrite (IH _ _ H pc). clear IH H.
    destruct (get "port" x) as [port|] eqn:Hp.
    + destruct (is_none port) eqn:Hn.
      * inversion Hx; subst acc1. split.
        -- intros [Hi|[y [Hy Hr]]]; [auto|]. right. exists y. split; [right; exact Hy | exact Hr].
        -- intros [Hi|[y [[<-|Hy] Hr]]]; [auto| |right; exists y; auto].
           destruct Hr as [Hp' [Hn' _]]. rewrite Hp in Hp'. inversion Hp'; subst.
           rewrite Hn in Hn'. discriminate.
      * destruct (has_key "clock" x) eqn:Hc; simpl in Hx; [|discriminate].
        unfold getitem in Hx. destruct (get "clock" x) as [clock|] eqn:Hcl;
          simpl in Hx; [|discriminate].
        inversion Hx; subst acc1. split.
        -- intros [Hi|[y [Hy Hr]]].
           ++ apply in_app_or in Hi. destruct Hi as [Hi|[<-|[]]]; [auto|].
              right. exists x. simpl. auto.
           ++ right. exists y. split; [right; exact Hy | exact Hr].
        -- intros [Hi|[y [[<-|Hy] Hr]]].
           ++ left. apply in_or_app. auto.
           ++ left. apply in_or_app. right. left.
              destruct Hr as [Hp' [_ Hc']]. rewrite Hp in Hp'. rewrite Hcl in Hc'.
              inversion Hp'; inversion Hc'. destruct pc; simpl in *; subst; reflexivity.
           ++ right. exists y. auto.
    + inversion Hx; subst acc1. split.
      * intros [Hi|[y [Hy Hr]]]; [auto|]. right. exists y. split; [right; exact Hy | exact Hr].
      * intros [Hi|[y [[<-|Hy] Hr]]]; [auto| |right; exists y; auto].
        destruct Hr as [Hp' _]. rewrite Hp in Hp'. discriminate.
Qed.

Lemma port_clock_loop_raises (ds : list pydict) (x : pydict) (port : value) :
  forall acc,
    In x ds -> get "port" x = Some port -> is_none port = false ->
    get "clock" x = None ->
    for_each
      (fun inner_dict port_clocks =>
         match get "port" inner_dict with
         | Some port =>
             if is_none port then Ok port_clocks
             else if negb (has_key "clock" inner_dict)
                  then Raise (AttributeError "Port missing clock")
                  else clock <- getitem "clock" inner_dict ;;
                       Ok (port_clocks ++ [(port, clock)])
         | None => Ok port_clocks
         end) ds acc = Raise (AttributeError "Port missing clock").
Proof.
  induction ds as [|y ds IH]; intros acc Hin Hp Hn Hc; [destruct Hin|].
  simpl.
  destruct (get "port" y) as [py|] eqn:Hpy.
  - destruct (is_none py) eqn:Hny.
    + simpl. destruct Hin as [->|Hin]; [|apply IH; assumption].
      rewrite Hp in Hpy. inversion Hpy; subst. rewrite Hn in Hny. discriminate.
    + destruct (has_key "clock" y) eqn:Hcy; simpl; [|reflexivity].
      unfold getitem. destruct (get "clock" y) as [cy|] eqn:Hcl.
      * simpl. destruct Hin as [->|Hin]; [|apply IH; assumption].
        rewrite Hc in Hcl. discriminate.
      * unfold has_key, dmem in Hcy. unfold get in Hcl. rewrite Hcl in Hcy.
        discriminate.
  - simpl. destruct Hin as [->|Hin]; [|apply IH; assumption].
    rewrite Hp in Hpy. discriminate.
Qed.

(** X2. On success, [find_all_port_clock_combinations] returns exactly the
    (port, clock) pairs of the dictionaries found with a port that is not
    None; it fails, with an [AttributeError], exactly when one of these
    dictionaries has a port that is not None and no clock. *)
Theorem find_all_port_clock_combinations_spec (d : pydict) :
  (forall pcs, find_all_port_clock_combinations d = Ok pcs ->
     forall port clock, In (port, clock) pcs <->
       exists x, In x (find_inner_dicts_containing_key d "port") /\
                 get "port" x = Some port /\ is_none port = false /\
                 get "clock" x = Some clock)
  /\
  (forall e, find_all_port_clock_combinations d = Raise e <->
     e = AttributeError "Port missing clock" /\
     exists x port, In x (find_inner_dicts_containing_key d "port") /\
                    get "port" x = Some port /\ is_none port = false /\
                    get "clock" x = None).
Proof.
  split.
  - intros pcs H port clock. unfold find_all_port_clock_combinations in H.
    rewrite (port_clock_loop_ok _ _ _ H (port, clock)). simpl.
    split; [intros [[]|Hr]; exact Hr | intros Hr; right; exact Hr].
  - intros e. unfold find_all_port_clock_combinations. split.
    + intros H. apply for_each_raise in H. destruct H as [x [acc [Hin H]]].
      destruct (get "port" x) as [port|] eqn:Hp; [|discriminate].
      destruct (is_none port) eqn:Hn; [discriminate|].
      destruct (has_key "clock" x) eqn:Hc; simpl in H.
      * unfold has_key, dmem in Hc. unfold getitem, get in H.
        destruct (dget String.eqb "clock" x); discriminate.
      * inversion H. split; [reflexivity|]. exists x, port.
        repeat split; try assumption.
        unfold has_key, dmem in Hc. unfold get.
        destruct (dget String.eqb "clock" x); [discriminate|reflexivity].
    + intros [-> [x [port [Hin [Hp [Hn Hc]]]]]].
      exact (port_clock_loop_raises _ x port [] Hin Hp Hn Hc).
Qed.

(** *** The port-clock index: lookups *)

Lemma dset_In_key {K V} (eqb : K -> K -> bool) (k : K) (v : V)
  (d : list (K * V)) (k' : K) (v' : V) :
  In (k', v') (dset eqb k v d) ->
  In (k', v') d \/ (v' = v /\ (k' = k \/ eqb k k' = true)).
Proof.
  induction d as [|[k0 v0] d IH]; simpl.
  - intros [H|[]]. inversion H; auto.
  - destruct (eqb k k0) eqn:E.
    + intros [H|H]; [inversion H; subst; auto | left; right; exact H].
    + intros [H|H]; [left; left; exact H|].
      destruct (IH H) as [H'|H']; [left; right; exact H' | right; exact H'].
Qed.

(** The inner loop [for portclock in portclocks: portclock_map[portclock]
    = device_name]. *)
Lemma index_device_loop (dev : string) (pcs : list portclock) :
  forall m0 m1,
    for_each (fun pc m => pc_setitem pc dev m) pcs m0 = Ok m1 ->
    (forall pc, In pc pcs -> pc_hashable pc = true /\ dget pc_eqb pc m1 = Some dev) /\
    (forall pc, (forall pc', In pc' pcs -> pc_eqb pc' pc = false) ->
                dget pc_eqb pc m1 = dget pc_eqb pc m0) /\
    (forall pc d, In (pc, d) m1 ->
                  In (pc, d) m0 \/
                  (d = dev /\ exists pc', In pc' pcs /\ pc_eqb pc' pc = true)).
Proof.
  induction pcs as [|pc0 pcs IH]; intros m0 m1 H; simpl in H.
  - inversion H; subst. split; [intros pc []|]. split; [reflexivity|].
    intros pc d Hin. left. exact Hin.
  - unfold pc_setitem in H at 1. destruct (pc_hashable pc0) eqn:Hh; [|discriminate].
    simpl in H. destruct (IH _ _ H) as [Ha [Hb Hc]]. clear IH.
    split; [|split].
    + intros pc [<-|Hin]; [|exact (Ha pc Hin)].
      split; [exact Hh|].
      destruct (existsb (fun pc' => pc_eqb pc' pc0) pcs) eqn:Ex.
      * apply existsb_exists in Ex. destruct Ex as [pc' [Hin' Heq]].
        rewrite <- (dget_respects pc_eqb pc_eqb_sym pc_eqb_trans pc' pc0 m1 Heq).
        exact (proj2 (Ha pc' Hin')).
      * rewrite Hb.
        -- apply (dget_dset_eq pc_eqb pc_eqb_sym pc_eqb_trans).
           apply pc_eqb_refl. exact Hh.
        -- intros pc' Hin'. destruct (pc_eqb pc' pc0) eqn:E; [|reflexivity].
           rewrite <- Ex. symmetry. apply existsb_exists. exists pc'. auto.
    + intros pc Hno. rewrite Hb; [|intros pc' Hin'; apply Hno; right; exact Hin'].
      apply (dget_dset_neq pc_eqb pc_eqb_sym pc_eqb_trans).
      rewrite pc_eqb_sym. apply Hno. left. reflexivity.
    + intros pc d Hin. destruct (Hc pc d Hin) as [Hin0|[-> [pc' [Hin' Heq]]]].
      * apply dset_In_key in Hin0.
        destruct Hin0 as [Hin0|[-> [->|Heq]]]; [left; exact Hin0| |].
        -- right. split; [reflexivity|]. exists pc0. split; [left; reflexivity|].
           apply pc_eqb_refl. exact Hh.
        -- right. split; [reflexivity|]. exists pc0. split; [left; reflexivity|exact Heq].
      * right. split; [reflexivity|]. exists pc'. split; [right; exact Hin'|exact Heq].
Qed.

Lemma index_loop_sound (mapping : pydict) :
  forall m0 m,
    for_each
      (fun item portclock_map =>
         let '(device_name, device_info) := item in
         match device_info with
         | VDict info =>
             portclocks <- find_all_port_clock_combinations info ;;
             for_each (fun pc m => pc_setitem pc device_name m)
                      portclocks portclock_map
         | _ => Ok portclock_map
         end) mapping m0 = Ok m ->
    forall pc dev, In (pc, dev) m ->
      In (pc, dev) m0 \/
      exists info pcs pc',
        In (dev, VDict info) mapping /\
        find_all_port_clock_combinations info = Ok pcs /\
        In pc' pcs /\ pc_eqb pc' pc = true.
Proof.
  induction mapping as [|[d0 i0] mapping IH]; intros m0 m H pc dev Hin; simpl in H.
  - inversion H; subst. left. exact Hin.
  - match type of H with bind ?c _ = _ => destruct c as [m1|e] eqn:Hx end;
      [|discriminate].
    simpl in H. destruct (IH _ _ H pc dev Hin) as [Hin1|[info [pcs [pc' [Hi Hr]]]]].
    + destruct i0 as [| | | | |info];
        try (inversion Hx; subst m1; left; exact Hin1).
      apply bind_Ok in Hx. destruct Hx as [pcs [Hf Hl]].
      destruct (index_device_loop d0 pcs m0 m1 Hl) as [_ [_ Hc]].
      destruct (Hc pc dev Hin1) as [Hin0|[-> [pc' [Hin' Heq]]]]; [left; exact Hin0|].
      right. exists info, pcs, pc'. split; [left; reflexivity|]. auto.
    + right. exists info, pcs, pc'. split; [right; exact Hi | exact Hr].
Qed.

Lemma index_loop_untouched (after : pydict) (pc : portclock) :
  (forall d' info' pcs' pc',
     In (d', VDict info') after ->
     find_all_port_clock_combinations info' = Ok pcs' ->
     In pc' pcs' -> pc_eqb pc' pc = false) ->
  forall m0 m,
    for_each
      (fun item portclock_map =>
         let '(device_name, device_info) := item in
         match device_info with
         | VDict info =>
             portclocks <- find_all_port_clock_combinations info ;;
             for_each (fun pc m => pc_setitem pc device_name m)
                      portclocks portclock_map
         | _ => Ok portclock_map
         end) after m0 = Ok m ->
    dget pc_eqb pc m = dget pc_eqb pc m0.
Proof.
  induction after as [|[d0 i0] after IH]; intros Hno m0 m H; simpl in H.
  - inversion H; reflexivity.
  - match type of H with bind ?c _ = _ => destruct c as [m1|e] eqn:Hx end;
      [|discriminate].
    simpl in H.
    rewrite (IH (fun d' i' p' q' Hi => Hno d' i' p' q' (or_intror Hi)) _ _ H).
    destruct i0 as [| | | | |info]; try (inversion Hx; reflexivity).
    apply bind_Ok in Hx. destruct Hx as [pcs [Hf Hl]].
    destruct (index_device_loop d0 pcs m0 m1 Hl) as [_ [Hb _]].
    apply Hb. intros pc' Hin'.
    exact (Hno d0 info pcs pc' (or_introl eq_refl) Hf Hin').
Qed.

(** X3. In the index built by [generate_port_clock_to_device_map], a
    (port, clock) is mapped to the last device of the mapping that
    declares it, and every entry of the index comes from a device that
    declares an equal (port, clock). *)
Theorem port_clock_index_lookup (mapping : pydict)
  (m : list (portclock * string)) :
  generate_port_clock_to_device_map mapping = Ok m ->
  (forall before dev info after pcs pc,
     mapping = before ++ (dev, VDict info) :: after ->
     find_all_port_clock_combinations info = Ok pcs ->
     In pc pcs ->
     (forall d' info' pcs' pc',
        In (d', VDict info') after ->
        find_all_port_clock_combinations info' = Ok pcs' ->
        In pc' pcs' -> pc_eqb pc' pc = false) ->
     pc_getitem pc m = Ok dev)
  /\
  (forall pc dev,
     In (pc, dev) m ->
     exists info pcs pc',
       In (dev, VDict info) mapping /\
       find_all_port_clock_combinations info = Ok pcs /\
       In pc' pcs /\ pc_eqb pc' pc = true).
Proof.
  intros H. split.
  - intros before dev info after pcs pc -> Hf Hin Hno.
    unfold generate_port_clock_to_device_map in H.
    rewrite for_each_app in H. apply bind_Ok in H. destruct H as [m0 [_ H]].
    simpl in H. rewrite Hf in H. simpl in H.
    apply bind_Ok in H. destruct H as [m1 [Hl H]].
    destruct (index_device_loop dev pcs m0 m1 Hl) as [Ha _].
    destruct (Ha pc Hin) as [Hh Hg].
    unfold pc_getitem, pc_get. rewrite Hh. simpl.
    rewrite (index_loop_untouched after pc Hno m1 m H), Hg. reflexivity.
  - intros pc dev Hin. unfold generate_port_clock_to_device_map in H.
    destruct (index_loop_sound mapping [] m H pc dev Hin) as [[]|Hr]. exact Hr.
Qed.

Lemma port_clock_index_lookup_witness :
  exists m,
    generate_port_clock_to_device_map duplicate_across_modules = Ok m /\
    pc_getitem (VStr "q0:mw", VStr "q0.01") m = Ok "qcm1".
Proof.
  destruct (generate_port_clock_to_device_map duplicate_across_modules)
    as [m|e] eqn:E; [|vm_compute in E; discriminate].
  exists m. split; [reflexivity|].
  destruct (port_clock_index_lookup _ m E) as [H _].
  apply (H [("backend",
             VStr "quantify.scheduler.backends.qblox_backend.hardware_compile");
            ("qcm0", VDict (qcm_module "qcm0"))]
           "qcm1" (qcm_module "qcm1") []
           [(VStr "q0:mw", VStr "q0.01")]).
  - reflexivity.
  - vm_compute. reflexivity.
  - left. reflexivity.
  - intros d' info' pcs' pc' [].
Defined.

(** *** Waveform names and indices *)

Lemma list_ascii_of_string_app (a b : string) :
  list_ascii_of_string (a ++ b) = list_ascii_of_string a ++ list_ascii_of_string b.
Proof. induction a as [|c a IH]; simpl; [reflexivity | rewrite IH; reflexivity]. Qed.

Lemma string_append_inj_l (a b s : string) : (a ++ s = b ++ s)%string -> a = b.
Proof.
  intros H. apply (f_equal list_ascii_of_string) in H.
  rewrite !list_ascii_of_string_app in H. apply app_inv_tail in H.
  rewrite <- (string_of_list_ascii_of_string a), <- (string_of_list_ascii_of_string b).
  rewrite H. reflexivity.
Qed.

Lemma name_i_neq_name_q (a b : string) : (a ++ "_I" <> b ++ "_Q")%string.
Proof.
  intros H. apply (f_equal list_ascii_of_string) in H.
  rewrite !list_ascii_of_string_app in H. simpl in H.
  change ["_"%char; "I"%char] with (["_"%char] ++ ["I"%char]) in H.
  change ["_"%char; "Q"%char] with (["_"%char] ++ ["Q"%char]) in H.
  rewrite !app_assoc in H. apply app_inj_tail in H. destruct H as [_ H].
  discriminate.
Qed.

Lemma str_of_Z_inj (a b : Z) : str_of_Z a = str_of_Z b -> a = b.
Proof.
  unfold str_of_Z. intros H.
  assert (Hnn : forall z, Z.to_int z <> Decimal.Pos Decimal.Nil /\
                          Z.to_int z <> Decimal.Neg Decimal.Nil).
  { intros [|p|p]; simpl; split; try discriminate;
      intros E; inversion E as [E'];
      exact (DecimalPos.Unsigned.to_uint_nonnil p E'). }
  apply (f_equal NilZero.int_of_string) in H.
  rewrite !NilZero.isi in H; try apply Hnn.
  inversion H as [H']. apply (f_equal Z.of_int) in H'.
  rewrite !DecimalZ.of_to in H'. exact H'.
Qed.

Lemma NoDup_map_injective {A B} (f : A -> B) (l : list A) :
  (forall a b, f a = f b -> a = b) -> NoDup l -> NoDup (map f l).
Proof.
  intros Hinj Hnd. induction Hnd as [|x l Hx Hnd IH]; simpl; constructor.
  - intros Hin. apply in_map_iff in Hin. destruct Hin as [y [Hy Hin]].
    apply Hinj in Hy. subst y. exact (Hx Hin).
  - exact IH.
Qed.

Lemma string_eqb_neq (a b : string) : a <> b -> String.eqb a b = false.
Proof. intros H. apply String.eqb_neq. exact H. Qed.

(** The dictionary built from index [idx] on keeps the entries of other
    names and gives the [k]-th waveform the indices [2 * (idx + k)] and
    [2 * (idx + k) + 1]. *)
Lemma generate_waveform_dict_from_other (wfs : list (string * waveform)) :
  forall idx wf name,
    (forall u, In u (map fst wfs) ->
               name <> (u ++ "_I")%string /\ name <> (u ++ "_Q")%string) ->
    dget String.eqb name (helpers.generate_waveform_dict_from idx wfs wf)
    = dget String.eqb name wf.
Proof.
  induction wfs as [|[u w] wfs IH]; intros idx wf name Hno; simpl; [reflexivity|].
  rewrite IH; [|intros v Hv; apply Hno; right; exact Hv].
  destruct (Hno u (or_introl eq_refl)) as [Hi Hq].
  rewrite (dget_dset_neq String.eqb String.eqb_sym string_eqb_trans);
    [|apply string_eqb_neq; exact Hq].
  rewrite (dget_dset_neq String.eqb String.eqb_sym string_eqb_trans);
    [reflexivity | apply string_eqb_neq; exact Hi].
Qed.

Lemma generate_waveform_dict_from_nth (wfs : list (string * waveform)) :
  forall idx wf k u w,
    NoDup (map fst wfs) ->
    nth_error wfs k = Some (u, w) ->
    dget String.eqb (u ++ "_I")%string (helpers.generate_waveform_dict_from idx wfs wf)
    = Some {| wf_data := map fst w; wf_index := 2 * (idx + Z.of_nat k) |} /\
    dget String.eqb (u ++ "_Q")%string (helpers.generate_waveform_dict_from idx wfs wf)
    = Some {| wf_data := map snd w; wf_index := 2 * (idx + Z.of_nat k) + 1 |}.
Proof.
  induction wfs as [|[u0 w0] wfs IH]; intros idx wf k u w Hnd Hk.
  - destruct k; discriminate.
  - inversion Hnd as [|? ? Hnotin Hnd']; subst. destruct k as [|k]; simpl in Hk.
    + inversion Hk; subst u0 w0. simpl.
      assert (Hfresh : forall v, In v (map fst wfs) -> v <> u).
      { intros v Hv ->. exact (Hnotin Hv). }
      rewrite !generate_waveform_dict_from_other.
      * rewrite Z.add_0_r. split.
        -- rewrite (dget_dset_neq String.eqb String.eqb_sym string_eqb_trans);
             [|apply string_eqb_neq; apply name_i_neq_name_q].
           apply (dget_dset_eq String.eqb String.eqb_sym string_eqb_trans).
           apply String.eqb_refl.
        -- apply (dget_dset_eq String.eqb String.eqb_sym string_eqb_trans).
           apply String.eqb_refl.
      * intros v Hv. split.
        -- intros E. symmetry in E. exact (name_i_neq_name_q _ _ E).
        -- intros E. apply string_append_inj_l in E. exact (Hfresh v Hv (eq_sym E)).
      * intros v Hv. split.
        -- intros E. apply string_append_inj_l in E. exact (Hfresh v Hv (eq_sym E)).
        -- apply name_i_neq_name_q.
    + replace (2 * (idx + Z.of_nat (S k))) with (2 * (idx + 1 + Z.of_nat k)) by lia.
      cbn [helpers.generate_waveform_dict_from helpers.generate_waveform_names_from_uuid].
      exact (IH (idx + 1) _ k u w Hnd' Hk).
Qed.

Lemma legacy_waveform_dict_as_names (wfs : list (Z * waveform)) :
  forall idx wf,
    _generate_waveform_dict_from idx wfs wf =
    helpers.generate_waveform_dict_from idx
      (map (fun uw => (str_of_Z (fst uw), snd uw)) wfs) wf.
Proof.
  induction wfs as [|[u w] wfs IH]; intros idx wf; simpl; [reflexivity|].
  apply IH.
Qed.

(** The indices read back for the [k]-th identifier. *)
Lemma legacy_indices_of_nth (waveforms_complex : list (Z * waveform))
  (k : nat) (uuid : Z) (w : waveform) :
  NoDup (map fst waveforms_complex) ->
  nth_error waveforms_complex k = Some (uuid, w) ->
  get_indices_from_wf_dict uuid (Some (_generate_waveform_dict waveforms_complex))
  = Ok (2 * Z.of_nat k, 2 * Z.of_nat k + 1).
Proof.
  intros Hnd Hk. unfold get_indices_from_wf_dict, _generate_waveform_dict.
  rewrite legacy_waveform_dict_as_names.
  destruct (generate_waveform_dict_from_nth
              (map (fun uw => (str_of_Z (fst uw), snd uw)) waveforms_complex)
              0 [] k (str_of_Z uuid) w) as [Hi Hq].
  - rewrite map_map. simpl.
    rewrite <- (map_map fst str_of_Z).
    apply NoDup_map_injective; [|exact Hnd].
    intros a b. apply str_of_Z_inj.
  - rewrite nth_error_map, Hk. reflexivity.
  - unfold generate_waveform_names_from_uuid. rewrite Hi, Hq. reflexivity.
Qed.

(** X4. Round trip between [_generate_waveform_dict] and
    [get_indices_from_wf_dict]: for waveforms with distinct identifiers
    (the keys of a dictionary), the indices read back for the [k]-th
    identifier are [2 * k] and [2 * k + 1]. *)
Theorem waveform_indices_round_trip (waveforms_complex : list (Z * waveform))
  (k : nat) (uuid : Z) (w : waveform) :
  NoDup (map fst waveforms_complex) ->
  nth_error waveforms_complex k = Some (uuid, w) ->
  get_indices_from_wf_dict uuid (Some (_generate_waveform_dict waveforms_complex))
  = Ok (2 * Z.of_nat k, 2 * Z.of_nat k + 1).
Proof. exact (legacy_indices_of_nth waveforms_complex k uuid w). Qed.

(** X5. [generate_waveform_dict] gives the [k]-th of the waveforms (whose
    identifiers are distinct, being the keys of a dictionary) the index
    [2 * k] under its I name and [2 * k + 1] under its Q name, with the
    real and the imaginary parts of its samples. *)
Theorem generate_waveform_dict_indices
  (waveforms_complex : list (string * waveform)) (k : nat) (uuid : string)
  (w : waveform) :
  NoDup (map fst waveforms_complex) ->
  nth_error waveforms_complex k = Some (uuid, w) ->
  dget String.eqb (fst (helpers.generate_waveform_names_from_uuid uuid))
       (helpers.generate_waveform_dict waveforms_complex)
  = Some {| wf_data := map fst w; wf_index := 2 * Z.of_nat k |} /\
  dget String.eqb (snd (helpers.generate_waveform_names_from_uuid uuid))
       (helpers.generate_waveform_dict waveforms_complex)
  = Some {| wf_data := map snd w; wf_index := 2 * Z.of_nat k + 1 |}.
Proof.
  intros Hnd Hk.
  exact (generate_waveform_dict_from_nth waveforms_complex 0 [] k uuid w Hnd Hk).
Qed.

Lemma waveform_indices_round_trip_witness :
  get_indices_from_wf_dict 9 (Some (_generate_waveform_dict two_waveforms))
  = Ok (2, 3).
Proof.
  apply (waveform_indices_round_trip two_waveforms 1 9
           ramp).
  - repeat constructor; simpl; intuition discriminate.
  - reflexivity.
Defined.

Lemma generate_waveform_dict_indices_witness :
  dget String.eqb "ramp_I" (helpers.generate_waveform_dict two_named_waveforms)
  = Some {| wf_data := [1 # 2; 0]%Q; wf_index := 2 |} /\
  dget String.eqb "ramp_Q" (helpers.generate_waveform_dict two_named_waveforms)
  = Some {| wf_data := [1 # 4; 1]%Q; wf_index := 3 |}.
Proof.
  apply (generate_waveform_dict_indices two_named_waveforms 1 "ramp"
           ramp).
  - repeat constructor; simpl; intuition discriminate.
  - reflexivity.
Defined.

(** *** Timing of the generated program *)

Lemma program_time_app (a b : list instr) :
  program_time (a ++ b) = program_time a + program_time b.
Proof.
  unfold program_time.
  induction a as [|x a IH]; cbn [app fold_right];
    [reflexivity | rewrite IH; apply Z.add_assoc].
Qed.

Lemma program_time_repeat (r : instr) (n : nat) :
  program_time (repeat r n) = Z.of_nat n * row_time r.
Proof.
  induction n as [|n IH]; [reflexivity|].
  cbn [repeat]. change (r :: repeat r n) with ([r] ++ repeat r n).
  rewrite program_time_app, IH, Nat2Z.inj_succ.
  unfold program_time. cbn [fold_right]. ring.
Qed.

Lemma row_time_wait_row (n : Z) (c : option string) :
  row_time (Spec.wait_row n c) = n.
Proof. reflexivity. Qed.

Lemma program_time_single (r : instr) : program_time [r] = row_time r.
Proof. unfold program_time. cbn [fold_right]. apply Z.add_0_r. Qed.

Lemma spec_wait_expansion_time (W : Z) :
  0 < W -> program_time (Spec.spec_wait_expansion W) = W.
Proof.
  intros HW. unfold Spec.spec_wait_expansion.
  destruct (W <=? 65535) eqn:E.
  - rewrite program_time_single. apply row_time_wait_row.
  - apply Z.leb_gt in E.
    rewrite program_time_app, program_time_repeat, row_time_wait_row.
    rewrite Z2Nat.id by (apply Z.div_pos; lia).
    pose proof (Z.div_mod W 65535 ltac:(lia)) as Hdm.
    destruct (W mod 65535 =? 0) eqn:E0.
    + apply Z.eqb_eq in E0. change (program_time []) with 0. lia.
    + rewrite program_time_single, row_time_wait_row. lia.
Qed.

Lemma spec_wait_expansion_body (W : Z) :
  forallb is_body_row (Spec.spec_wait_expansion W) = true.
Proof.
  apply forallb_forall. intros r Hr. unfold Spec.spec_wait_expansion in Hr.
  destruct (W <=? 65535).
  - destruct Hr as [Hr|[]]; subst r; reflexivity.
  - apply in_app_or in Hr. destruct Hr as [Hr|Hr].
    + apply repeat_spec in Hr. subst r; reflexivity.
    + destruct (W mod 65535 =? 0); [destruct Hr|].
      destruct Hr as [Hr|[]]; subst r; reflexivity.
Qed.

(** Waiting for an operation: only waits are added, they last until the
    operation starts. *)
Lemma wait_till_start_operation_time (op : OpInfo) (q q' : QASMProgram) :
  wait_till_start_operation op q = Ok q' ->
  exists extra start_time,
    to_pulsar_time (timing op) = Ok start_time /\
    elapsed_time q <= start_time /\
    instructions q' = instructions q ++ extra /\
    program_time extra = start_time - elapsed_time q /\
    forallb is_body_row extra = true /\
    elapsed_time q' = start_time.
Proof.
  unfold wait_till_start_operation. intros H.
  apply bind_Ok in H. destruct H as [st [Hst H]].
  destruct (st - elapsed_time q >? 0) eqn:E1.
  - apply auto_wait_rows in H. destruct H as [HW [Hi He]].
    exists (Spec.spec_wait_expansion (st - elapsed_time q)), st.
    split; [exact Hst|]. split; [lia|]. split; [exact Hi|].
    split; [apply spec_wait_expansion_time; exact HW|].
    split; [apply spec_wait_expansion_body | lia].
  - destruct (st - elapsed_time q <? 0) eqn:E2; [discriminate|].
    inversion H; subst q'. exists [], st.
    apply Z.ltb_ge in E2.
    assert (~ 0 < st - elapsed_time q)
      by (intro Hc; apply Z.gtb_lt in Hc; congruence).
    split; [exact Hst|]. split; [lia|]. split; [rewrite app_nil_r; reflexivity|].
    split; [change (program_time []) with 0; lia|]. split; [reflexivity | lia].
Qed.

(** One operation: the lines added are waits (and the gain setting of a
    pulse) that last until the operation starts, then the line of the
    operation, which lasts one grid step. *)
Lemma emit_operation_time (awg_dict acq_dict : option wf_dict) (op : OpInfo)
  (q q' : QASMProgram) :
  emit_operation awg_dict acq_dict op q = Ok q' ->
  exists pre row start_time,
    to_pulsar_time (timing op) = Ok start_time /\
    elapsed_time q <= start_time /\
    instructions q' = instructions q ++ pre ++ [row] /\
    Spec.op_row awg_dict acq_dict op = Some row /\
    program_time pre = start_time - elapsed_time q /\
    forallb is_body_row pre = true /\
    elapsed_time q' = start_time + 4.
Proof.
  unfold emit_operation, Spec.op_row. intros H.
  destruct (is_acquisition op) eqn:Eacq.
  - apply bind_Ok in H. destruct H as [[i0 i1] [Hidx H]]. rewrite Hidx.
    unfold wait_till_start_then_acquire in H.
    apply bind_Ok in H. destruct H as [q1 [Hw H]].
    apply wait_till_start_operation_time in Hw.
    destruct Hw as [extra [st [Hst [Hle [Hi [Ht [Hb He]]]]]]].
    rewrite emit_ok in H by (simpl; lia). simpl in H.
    inversion H; subst q'; simpl.
    exists extra, {| label := None; instruction := "acquire";
                     args := [AInt i0; AInt i1; AInt 4]; comment := None |}, st.
    split; [exact Hst|]. split; [exact Hle|].
    split; [rewrite Hi, app_assoc; reflexivity|].
    split; [reflexivity|]. split; [exact Ht|]. split; [exact Hb|].
    rewrite He. reflexivity.
  - apply bind_Ok in H. destruct H as [[i0 i1] [Hidx H]]. rewrite Hidx.
    unfold wait_till_start_then_play in H.
    apply bind_Ok in H. destruct H as [q1 [Hw H]].
    apply wait_till_start_operation_time in Hw.
    destruct Hw as [extra [st [Hst [Hle [Hi [Ht [Hb He]]]]]]].
    apply bind_Ok in H. destruct H as [q2 [Hu H]].
    unfold update_runtime_settings in Hu.
    destruct (pulse_settings op) as [settings|]; [|discriminate].
    apply bind_Ok in Hu. destruct Hu as [g0 [_ Hu]].
    apply bind_Ok in Hu. destruct Hu as [g1 [_ Hu]].
    rewrite emit_ok in Hu by (simpl; lia). inversion Hu; subst q2; clear Hu.
    rewrite emit_ok in H by (simpl; lia). simpl in H.
    inversion H; subst q'; simpl.
    eexists (extra ++ [_]), {| label := None; instruction := "play";
                               args := [AInt i0; AInt i1; AInt 4];
                               comment := None |}, st.
    split; [exact Hst|]. split; [exact Hle|].
    split; [rewrite Hi, <- !app_assoc; reflexivity|].
    split; [reflexivity|].
    split; [rewrite program_time_app, Ht, program_time_single;
            change (row_time _) with 0; lia|].
    split; [rewrite forallb_app, Hb; reflexivity|].
    rewrite He. reflexivity.
Qed.

(** The body loop, with the program time of the lines equal to the
    elapsed time all along. *)
Lemma emit_operations_time (awg_dict acq_dict : option wf_dict)
  (ops : list OpInfo) :
  forall q q',
    for_each (emit_operation awg_dict acq_dict) ops q = Ok q' ->
    exists body,
      instructions q' = instructions q ++ body /\
      program_time body = elapsed_time q' - elapsed_time q /\
      elapsed_time q <= elapsed_time q' /\
      forallb is_body_row body = true /\
      forall op, In op ops ->
        exists pre row post start_time,
          body = pre ++ row :: post /\
          Spec.op_row awg_dict acq_dict op = Some row /\
          to_pulsar_time (timing op) = Ok start_time /\
          program_time pre = start_time - elapsed_time q.
Proof.
  induction ops as [|op ops IH]; intros q q' H; simpl in H.
  - inversion H; subst q'. exists []. rewrite app_nil_r.
    split; [reflexivity|]. split; [change (program_time []) with 0; lia|].
    split; [lia|]. split; [reflexivity|]. intros op [].
  - apply bind_Ok in H. destruct H as [q1 [Hop H]].
    apply emit_operation_time in Hop.
    destruct Hop as [pre [row [st [Hst [Hle [Hi [Hrow [Ht [Hb He]]]]]]]]].
    destruct (IH q1 q' H) as [body [Hi2 [Ht2 [Hle2 [Hb2 Hops]]]]].
    assert (Hrt : row_time row = 4).
    { unfold Spec.op_row in Hrow.
      destruct (get_indices_from_wf_dict _ _) as [[i0 i1]|]; [|discriminate].
      inversion Hrow. destruct (is_acquisition op); reflexivity. }
    assert (Hrb : is_body_row row = true).
    { unfold Spec.op_row in Hrow.
      destruct (get_indices_from_wf_dict _ _) as [[i0 i1]|]; [|discriminate].
      inversion Hrow. destruct (is_acquisition op); reflexivity. }
    assert (Hpr : program_time (pre ++ [row]) = elapsed_time q1 - elapsed_time q).
    { rewrite program_time_app, Ht, program_time_single. lia. }
    exists ((pre ++ [row]) ++ body).
    split; [rewrite Hi2, Hi, <- !app_assoc; reflexivity|].
    split; [rewrite program_time_app, Hpr, Ht2; lia|].
    split; [lia|].
    split; [rewrite !forallb_app, Hb, Hb2; simpl; rewrite Hrb; reflexivity|].
    intros o [<-|Hin].
    + exists pre, row, body, st. split; [rewrite <- app_assoc; reflexivity|].
      auto.
    + destruct (Hops o Hin) as [pre2 [row2 [post2 [st2 [Hb' [Hr2 [Hs2 Hp2]]]]]]].
      exists ((pre ++ [row]) ++ pre2), row2, post2, st2.
      split; [rewrite Hb', <- !app_assoc; reflexivity|].
      split; [exact Hr2|]. split; [exact Hs2|].
      rewrite program_time_app, Hpr, Hp2. lia.
Qed.

(** The shape of a generated program, with the facts on its body that
    the properties below use. *)
Lemma generate_qasm_program_inv (total_sequence_time : Q)
  (pulses : option (list OpInfo)) (awg_dict : option wf_dict)
  (acquisitions : option (list OpInfo)) (acq_dict : option wf_dict)
  (repetitions : Z) (q : QASMProgram) :
  generate_qasm_program total_sequence_time pulses awg_dict acquisitions
    acq_dict repetitions = Ok q ->
  exists body end_time,
    instructions q = program_header repetitions ++ body ++ program_footer /\
    to_pulsar_time total_sequence_time = Ok end_time /\
    elapsed_time q = end_time /\
    program_time body = end_time /\
    forallb is_body_row body = true /\
    forall op,
      In op (match pulses with None => [] | Some l => l end ++
             match acquisitions with None => [] | Some l => l end) ->
      exists pre row post start_time,
        body = pre ++ row :: post /\
        Spec.op_row awg_dict acq_dict op = Some row /\
        to_pulsar_time (timing op) = Ok start_time /\
        program_time pre = start_time.
Proof.
  unfold generate_qasm_program. intros H.
  rewrite emit_ok in H by (simpl; lia). cbn [bind] in H.
  rewrite emit_ok in H by (simpl; lia). cbn [bind] in H.
  rewrite emit_ok in H by (simpl; lia). cbn [bind] in H.
  rewrite emit_ok in H by (simpl; lia). cbn [bind] in H.
  apply bind_Ok in H. destruct H as [q1 [Hbody H]].
  apply bind_Ok in H. destruct H as [end_time [Hend H]].
  destruct (end_time - elapsed_time q1 <=? 0) eqn:E; [discriminate|].
  apply bind_Ok in H. destruct H as [q2 [Hw H]].
  apply auto_wait_rows in Hw. destruct Hw as [HW [Hi2 He2]].
  rewrite emit_ok in H by (simpl; lia). cbn [bind] in H.
  rewrite emit_ok in H by (simpl; lia). cbn [bind] in H.
  rewrite emit_ok in H by (simpl; lia). cbn [bind] in H.
  rewrite emit_ok in H by (simpl; lia).
  inversion H; subst q; clear H. cbn [instructions elapsed_time].
  apply emit_operations_time in Hbody.
  destruct Hbody as [body [Hi1 [Ht1 [Hle1 [Hb1 Hops]]]]].
  cbn [instructions elapsed_time QASMProgram_new] in Hi1, Ht1, Hle1, Hops.
  exists (body ++ Spec.spec_wait_expansion (end_time - elapsed_time q1)), end_time.
  split.
  { rewrite Hi2, Hi1. unfold program_header, program_footer.
    cbn [app]. rewrite <- !app_assoc. reflexivity. }
  split; [exact Hend|]. split; [lia|].
  split; [rewrite program_time_app, Ht1, spec_wait_expansion_time by exact HW; lia|].
  split; [rewrite forallb_app, Hb1, spec_wait_expansion_body; reflexivity|].
  intros op Hin.
  assert (Hin' : In op (sorted
            (match pulses with None => [] | Some l => l end ++
             match acquisitions with None => [] | Some l => l end))).
  { apply (Permutation_in op (Permutation_sym (sorted_perm _))). exact Hin. }
  destruct (Hops op Hin') as [pre [row [post [st [Hb [Hr [Hs Hp]]]]]]].
  exists pre, row, (post ++ Spec.spec_wait_expansion (end_time - elapsed_time q1)), st.
  split; [rewrite Hb, <- app_assoc; reflexivity|].
  split; [exact Hr|]. split; [exact Hs|]. lia.
Qed.

(** X6. A generated program is one loop: the four header lines, a body
    of unlabelled [wait], [set_awg_gain], [play] and [acquire] lines, and
    the four footer lines; the waits, plays and acquires of the body last
    exactly the total sequence time, in nanoseconds. *)
Theorem program_shape_and_duration (total_sequence_time : Q)
  (pulses : option (list OpInfo)) (awg_dict : option wf_dict)
  (acquisitions : option (list OpInfo)) (acq_dict : option wf_dict)
  (repetitions : Z) (q : QASMProgram) :
  generate_qasm_program total_sequence_time pulses awg_dict acquisitions
    acq_dict repetitions = Ok q ->
  exists body,
    instructions q = program_header repetitions ++ body ++ program_footer /\
    forallb is_body_row body = true /\
    to_pulsar_time total_sequence_time = Ok (program_time body).
Proof.
  intros H. apply generate_qasm_program_inv in H.
  destruct H as [body [end_time [Hi [Hend [_ [Ht [Hb _]]]]]]].
  exists body. rewrite Ht. auto.
Qed.

(** X7. In a generated program every pulse and every acquisition has
    its line, and the lines of the body before it last exactly until the
    start time of the operation. *)
Theorem operations_start_on_time (total_sequence_time : Q)
  (pulses : option (list OpInfo)) (awg_dict : option wf_dict)
  (acquisitions : option (list OpInfo)) (acq_dict : option wf_dict)
  (repetitions : Z) (q : QASMProgram) (op : OpInfo) :
  generate_qasm_program total_sequence_time pulses awg_dict acquisitions
    acq_dict repetitions = Ok q ->
  In op (match pulses with None => [] | Some l => l end ++
         match acquisitions with None => [] | Some l => l end) ->
  exists pre row post,
    instructions q =
    program_header repetitions ++ (pre ++ row :: post) ++ program_footer /\
    Spec.op_row awg_dict acq_dict op = Some row /\
    to_pulsar_time (timing op) = Ok (program_time pre).
Proof.
  intros H Hin. apply generate_qasm_program_inv in H.
  destruct H as [body [end_time [Hi [_ [_ [_ [_ Hops]]]]]]].
  destruct (Hops op Hin) as [pre [row [post [st [Hb [Hr [Hs Hp]]]]]]].
  exists pre, row, post. rewrite <- Hb, Hp. auto.
Qed.

Lemma permutation_two {A} (l l1 l2 l3 : list A) (a b : A) :
  Permutation l (l1 ++ a :: l2 ++ b :: l3) ->
  exists m1 m2 m3,
    l = m1 ++ a :: m2 ++ b :: m3 \/ l = m1 ++ b :: m2 ++ a :: m3.
Proof.
  intros HP.
  assert (Ha : In a l).
  { apply (Permutation_in a (Permutation_sym HP)).
    apply in_or_app. right. left. reflexivity. }
  apply in_split in Ha. destruct Ha as [p [s ->]].
  apply Permutation_app_inv in HP.
  assert (Hb : In b (p ++ s)).
  { apply (Permutation_in b (Permutation_sym HP)).
    apply in_or_app. right. apply in_or_app. right. left. reflexivity. }
  apply in_app_or in Hb. destruct Hb as [Hb|Hb]; apply in_split in Hb.
  - destruct Hb as [p1 [p2 ->]]. exists p1, p2, s. right.
    rewrite <- app_assoc. reflexivity.
  - destruct Hb as [s1 [s2 ->]]. exists p, s1, s2. left. reflexivity.
Qed.

Lemma emit_operations_apart (awg_dict acq_dict : option wf_dict)
  (m1 m2 m3 : list OpInfo) (x y : OpInfo) (q q' : QASMProgram) :
  for_each (emit_operation awg_dict acq_dict)
           (m1 ++ x :: m2 ++ y :: m3) q = Ok q' ->
  exists sx sy,
    to_pulsar_time (timing x) = Ok sx /\
    to_pulsar_time (timing y) = Ok sy /\
    sx + 4 <= sy.
Proof.
  intros H. rewrite for_each_app in H.
  apply bind_Ok in H. destruct H as [q1 [_ H]].
  cbn [for_each] in H. apply bind_Ok in H. destruct H as [q2 [Hx H]].
  rewrite for_each_app in H. apply bind_Ok in H. destruct H as [q3 [Hm H]].
  cbn [for_each] in H. apply bind_Ok in H. destruct H as [q4 [Hy _]].
  apply emit_operation_time in Hx.
  destruct Hx as [_ [_ [sx [Hsx [_ [_ [_ [_ [_ Hex]]]]]]]]].
  apply emit_operations_time in Hm. destruct Hm as [_ [_ [_ [Hle _]]]].
  apply emit_operation_time in Hy.
  destruct Hy as [_ [_ [sy [Hsy [Hley _]]]]].
  exists sx, sy. split; [exact Hsx|]. split; [exact Hsy|]. lia.
Qed.

(** X8. In a generated program any two operations start at least one
    grid step (4 ns) apart: a list with two operations closer than that
    (at the same instant, in particular) is never compiled. *)
Theorem operations_one_grid_step_apart (total_sequence_time : Q)
  (pulses : option (list OpInfo)) (awg_dict : option wf_dict)
  (acquisitions : option (list OpInfo)) (acq_dict : option wf_dict)
  (repetitions : Z) (q : QASMProgram)
  (l1 l2 l3 : list OpInfo) (a b : OpInfo) :
  generate_qasm_program total_sequence_time pulses awg_dict acquisitions
    acq_dict repetitions = Ok q ->
  match pulses with None => [] | Some l => l end ++
  match acquisitions with None => [] | Some l => l end
  = l1 ++ a :: l2 ++ b :: l3 ->
  exists start_a start_b,
    to_pulsar_time (timing a) = Ok start_a /\
    to_pulsar_time (timing b) = Ok start_b /\
    (start_a + 4 <= start_b \/ start_b + 4 <= start_a).
Proof.
  intros H Hops. unfold generate_qasm_program in H.
  rewrite emit_ok in H by (simpl; lia). cbn [bind] in H.
  rewrite emit_ok in H by (simpl; lia). cbn [bind] in H.
  rewrite emit_ok in H by (simpl; lia). cbn [bind] in H.
  rewrite emit_ok in H by (simpl; lia). cbn [bind] in H.
  apply bind_Ok in H. destruct H as [q1 [Hbody _]].
  pose proof (sorted_perm
                (match pulses with None => [] | Some l => l end ++
                 match acquisitions with None => [] | Some l => l end)) as HP.
  rewrite Hops in HP at 2.
  destruct (permutation_two _ _ _ _ _ _ HP) as [m1 [m2 [m3 [E|E]]]];
    rewrite E in Hbody; apply emit_operations_apart in Hbody;
    destruct Hbody as [sx [sy [Hx [Hy Hle]]]].
  - exists sx, sy. auto.
  - exists sy, sx. auto.
Qed.

Lemma program_shape_and_duration_witness :
  exists q body,
    generate_qasm_program (1 # 1000000)
      (Some [pulse_at (1 # 5000000); pulse_at 0]) awg_dict_7
      (Some [acquisition_at (1 # 10000000)]) acq_dict_9 1 = Ok q /\
    instructions q = program_header 1 ++ body ++ program_footer /\
    forallb is_body_row body = true /\
    program_time body = 1000.
Proof.
  destruct (generate_qasm_program (1 # 1000000)
              (Some [pulse_at (1 # 5000000); pulse_at 0]) awg_dict_7
              (Some [acquisition_at (1 # 10000000)]) acq_dict_9 1)
    as [q|e] eqn:E; [|vm_compute in E; discriminate].
  destruct (program_shape_and_duration _ _ _ _ _ _ q E) as [body [Hi [Hb Ht]]].
  exists q, body. split; [reflexivity|]. split; [exact Hi|]. split; [exact Hb|].
  assert (Hv : to_pulsar_time (1 # 1000000) = Ok 1000)
    by (vm_compute; reflexivity).
  rewrite Hv in Ht. inversion Ht. reflexivity.
Defined.

Lemma operations_start_on_time_witness :
  exists q pre row post,
    generate_qasm_program (1 # 1000000)
      (Some [pulse_at (1 # 5000000); pulse_at 0]) awg_dict_7
      (Some [acquisition_at (1 # 10000000)]) acq_dict_9 1 = Ok q /\
    instructions q = program_header 1 ++ (pre ++ row :: post) ++ program_footer /\
    row = acquire_row /\
    program_time pre = 100.
Proof.
  destruct (generate_qasm_program (1 # 1000000)
              (Some [pulse_at (1 # 5000000); pulse_at 0]) awg_dict_7
              (Some [acquisition_at (1 # 10000000)]) acq_dict_9 1)
    as [q|e] eqn:E; [|vm_compute in E; discriminate].
  destruct (operations_start_on_time _ _ _ _ _ _ q
              (acquisition_at (1 # 10000000)) E)
    as [pre [row [post [Hi [Hr Ht]]]]].
  - simpl. auto.
  - exists q, pre, row, post. split; [reflexivity|]. split; [exact Hi|]. split.
    + assert (Hv : Spec.op_row awg_dict_7 acq_dict_9
                     (acquisition_at (1 # 10000000)) = Some acquire_row)
        by (vm_compute; reflexivity).
      rewrite Hv in Hr. inversion Hr. reflexivity.
    + assert (Hv : to_pulsar_time (timing (acquisition_at (1 # 10000000)))
                   = Ok 100) by (vm_compute; reflexivity).
      rewrite Hv in Ht. inversion Ht. reflexivity.
Defined.

Lemma operations_one_grid_step_apart_witness :
  exists q start_a start_b,
    generate_qasm_program (1 # 1000000)
      (Some [pulse_at (1 # 5000000); pulse_at 0]) awg_dict_7
      (Some [acquisition_at (1 # 10000000)]) acq_dict_9 1 = Ok q /\
    to_pulsar_time (timing (pulse_at 0)) = Ok start_a /\
    to_pulsar_time (timing (acquisition_at (1 # 10000000))) = Ok start_b /\
    (start_a + 4 <= start_b \/ start_b + 4 <= start_a).
Proof.
  destruct (generate_qasm_program (1 # 1000000)
              (Some [pulse_at (1 # 5000000); pulse_at 0]) awg_dict_7
              (Some [acquisition_at (1 # 10000000)]) acq_dict_9 1)
    as [q|e] eqn:E; [|vm_compute in E; discriminate].
  destruct (operations_one_grid_step_apart _ _ _ _ _ _ q
              [pulse_at (1 # 5000000)] [] [] (pulse_at 0)
              (acquisition_at (1 # 10000000)) E eq_refl)
    as [start_a [start_b H]].
  exists q, start_a, start_b. split; [reflexivity | exact H].
Defined.

(** *** The external local oscillators *)

Lemma dset_absent {K V} (eqb : K -> K -> bool) (k : K) (v : V)
  (d : list (K * V)) :
  dget eqb k d = None -> dset eqb k v d = d ++ [(k, v)].
Proof.
  induction d as [|[k0 v0] d IH]; simpl; [reflexivity|].
  destruct (eqb k k0); [discriminate|]. intros H. rewrite (IH H). reflexivity.
Qed.

Lemma dset_In_replaced {K V} (eqb : K -> K -> bool) (k : K) (v v0 : V)
  (d : list (K * V)) (k' : K) (v' : V) :
  dget eqb k d = Some v0 ->
  In (k', v') (dset eqb k v d) ->
  In (k', v') d \/ (v' = v /\ In (k', v0) d).
Proof.
  induction d as [|[k1 v1] d IH]; simpl; [discriminate|].
  destruct (eqb k k1).
  - intros H [Hin|Hin]; inversion H; subst.
    + inversion Hin; subst. right. auto.
    + left. right. exact Hin.
  - intros H [Hin|Hin]; [left; left; exact Hin|].
    destruct (IH H Hin) as [Hi|[Hv Hi]]; [left; right; exact Hi|].
    right. split; [exact Hv | right; exact Hi].
Qed.

Lemma generate_ext_local_oscillators_loops (total_play_time : Q)
  (hardware_cfg : pydict) :
  generate_ext_local_oscillators total_play_time hardware_cfg =
  for_each
    (fun device lo_dict =>
       match device with
       | VDict device => for_each (lo_step total_play_time) (dvalues device) lo_dict
       | _ => Ok lo_dict
       end)
    (dvalues hardware_cfg) [].
Proof. reflexivity. Qed.

(** What one output does to the dictionary of oscillators. *)
Lemma lo_step_inv (tpt : Q) (io_cfg : value)
  (los los' : list (value * LocalOscillator)) :
  lo_step tpt io_cfg los = Ok los' ->
  (los' = los /\ forall d, io_cfg = VDict d -> get "lo_name" d = None) \/
  exists d lo_name los1,
    io_cfg = VDict d /\ get "lo_name" d = Some lo_name /\
    hashable lo_name = true /\
    ((exists lo, dget py_eqb lo_name los = Some lo) /\ los1 = los \/
     dget py_eqb lo_name los = None /\
     los1 = los ++ [(lo_name, LocalOscillator_init lo_name tpt VNone)]) /\
    (get "lo_freq" d = None /\ los' = los1 \/
     exists lo_freq, get "lo_freq" d = Some lo_freq /\
                     lo_assign lo_name lo_freq los1 = Ok los').
Proof.
  unfold lo_step. intros H.
  destruct io_cfg as [| | | | |d];
    try (inversion H; left; split; [reflexivity | intros ? ?; discriminate]).
  destruct (get "lo_name" d) as [lo_name|] eqn:Hn.
  2:{ inversion H. left. split; [reflexivity|].
      intros d' E. inversion E; subst d'. exact Hn. }
  right. apply bind_Ok in H. destruct H as [found [Hf H]].
  unfold v_get in Hf. destruct (hashable lo_name) eqn:Hh; [|discriminate].
  inversion Hf; subst found; clear Hf.
  destruct (dget py_eqb lo_name los) as [lo|] eqn:Hg.
  - exists d, lo_name, los. split; [reflexivity|]. split; [exact Hn|].
    split; [exact Hh|]. split; [left; split; [exists lo; exact Hg | reflexivity]|].
    destruct (get "lo_freq" d) as [f|].
    + right. exists f. auto.
    + left. inversion H. auto.
  - rewrite (dset_absent py_eqb _ _ _ Hg) in H.
    exists d, lo_name, (los ++ [(lo_name, LocalOscillator_init lo_name tpt VNone)]).
    split; [reflexivity|]. split; [exact Hn|].
    split; [exact Hh|]. split; [right; auto|].
    destruct (get "lo_freq" d) as [f|].
    + right. exists f. auto.
    + left. inversion H. auto.
Qed.

Lemma dget_app_l {K V} (eqb : K -> K -> bool) (k : K) (d e : list (K * V)) (v : V) :
  dget eqb k d = Some v -> dget eqb k (d ++ e) = Some v.
Proof.
  induction d as [|[k0 v0] d IH]; simpl; [discriminate|].
  destruct (eqb k k0); [auto | exact IH].
Qed.

Lemma dget_app_r {K V} (eqb : K -> K -> bool) (k : K) (d e : list (K * V)) :
  dget eqb k d = None -> dget eqb k (d ++ e) = dget eqb k e.
Proof.
  induction d as [|[k0 v0] d IH]; simpl; [reflexivity|].
  destruct (eqb k k0); [discriminate | exact IH].
Qed.

(** Every oscillator stays as it was constructed, apart from its
    frequency. *)
Lemma lo_step_keeps_base (tpt : Q) (io_cfg : value)
  (los los' : list (value * LocalOscillator)) :
  lo_step tpt io_cfg los = Ok los' ->
  (forall k lo, In (k, lo) los -> lo_base lo = InstrumentBase_init k tpt) ->
  forall k lo, In (k, lo) los' -> lo_base lo = InstrumentBase_init k tpt.
Proof.
  intros H Hold k lo Hin. apply lo_step_inv in H.
  destruct H as [[-> _]|[d [lo_name [los1 [_ [_ [_ [H1 H2]]]]]]]]; [exact (Hold k lo Hin)|].
  assert (Hold1 : forall k lo, In (k, lo) los1 ->
                               lo_base lo = InstrumentBase_init k tpt).
  { destruct H1 as [[_ ->]|[_ ->]]; [exact Hold|].
    intros k1 lo1 Hin1. apply in_app_or in Hin1.
    destruct Hin1 as [Hin1|[Hin1|[]]]; [exact (Hold k1 lo1 Hin1)|].
    inversion Hin1; subst. reflexivity. }
  destruct H2 as [[_ ->]|[f [_ Ha]]]; [exact (Hold1 k lo Hin)|].
  apply lo_assign_inv in Ha. destruct Ha as [lo0 [_ [Hg [_ ->]]]].
  destruct (dset_In_replaced py_eqb _ _ lo0 _ _ _ Hg Hin) as [Hi|[-> Hi]].
  - exact (Hold1 k lo Hi).
  - simpl. exact (Hold1 k lo0 Hi).
Qed.

Lemma lo_step_keeps_named (tpt : Q) (name : value) (io_cfg : value)
  (los los' : list (value * LocalOscillator)) :
  lo_step tpt io_cfg los = Ok los' ->
  Spec.lo_named name los -> Spec.lo_named name los'.
Proof.
  intros H Hn. apply lo_step_inv in H.
  destruct H as [[-> _]|[d [lo_name [los1 [_ [_ [_ [H1 H2]]]]]]]]; [exact Hn|].
  assert (Hn1 : Spec.lo_named name los1).
  { destruct H1 as [[_ ->]|[_ ->]]; [exact Hn|].
    destruct Hn as [l [Hl Hnm]]. exists l. split; [|exact Hnm].
    apply dget_app_l. exact Hl. }
  destruct H2 as [[_ ->]|[f [_ Ha]]]; [exact Hn1|].
  exact (lo_assign_keeps_named name lo_name f los1 los' Ha Hn1).
Qed.

Lemma lo_step_keeps_freq (tpt : Q) (name : value) (v : Q) (io_cfg : value)
  (los los' : list (value * LocalOscillator)) :
  lo_step tpt io_cfg los = Ok los' ->
  Spec.lo_has name v los -> Spec.lo_has name v los'.
Proof.
  intros H Hn. apply lo_step_inv in H.
  destruct H as [[-> _]|[d [lo_name [los1 [_ [_ [_ [H1 H2]]]]]]]]; [exact Hn|].
  assert (Hn1 : Spec.lo_has name v los1).
  { destruct H1 as [[_ ->]|[_ ->]]; [exact Hn|].
    destruct Hn as [l [Hl Hnm]]. exists l. split; [|exact Hnm].
    apply dget_app_l. exact Hl. }
  destruct H2 as [[_ ->]|[f [_ Ha]]]; [exact Hn1|].
  exact (lo_assign_keeps name v lo_name f los1 los' Ha Hn1).
Qed.

(** The output that names an oscillator leaves it in the dictionary,
    under its name and with the frequency the output declares. *)
Lemma lo_step_establishes (tpt : Q) (d : pydict) (lo_name : value)
  (los los' : list (value * LocalOscillator)) :
  get "lo_name" d = Some lo_name ->
  (forall k lo, In (k, lo) los -> lo_base lo = InstrumentBase_init k tpt) ->
  lo_step tpt (VDict d) los = Ok los' ->
  Spec.lo_named lo_name los' /\
  forall v, get "lo_freq" d = Some (VNum v) -> Spec.lo_has lo_name v los'.
Proof.
  intros Hname Hold H. apply lo_step_inv in H.
  destruct H as [[_ Hno]|[d' [ln [los1 [Hd [Hln [Hh [H1 H2]]]]]]]].
  - rewrite (Hno d eq_refl) in Hname. discriminate.
  - inversion Hd; subst d'; clear Hd. rewrite Hname in Hln.
    inversion Hln; subst ln; clear Hln.
    assert (Hn1 : Spec.lo_named lo_name los1).
    { destruct H1 as [[[lo Hg] ->]|[Hg ->]].
      - exists lo. split; [exact Hg|].
        destruct (dget_Some_In py_eqb lo_name los lo Hg) as [k [Hin Hk]].
        rewrite (Hold k lo Hin). simpl. exact Hk.
      - exists (LocalOscillator_init lo_name tpt VNone). split.
        + rewrite (dget_app_r py_eqb _ _ _ Hg). simpl.
          rewrite (py_eqb_refl lo_name Hh). reflexivity.
        + simpl. apply py_eqb_refl. exact Hh. }
    destruct H2 as [[Hf ->]|[f [Hf Ha]]].
    + split; [exact Hn1|]. intros v Hv. rewrite Hf in Hv. discriminate.
    + split; [exact (lo_assign_keeps_named lo_name lo_name f los1 los' Ha Hn1)|].
      intros v Hv. rewrite Hf in Hv. inversion Hv; subst f.
      exact (lo_assign_sets lo_name v los1 los' Ha).
Qed.

(** X9. The oscillators made by [generate_ext_local_oscillators]: every
    entry is an oscillator constructed under its own key (same name, the
    given play time, no pulses or acquisitions); every output of a device
    that names an oscillator finds it in the dictionary under that name,
    with the frequency the output declares, if it declares a number. *)
Theorem ext_local_oscillators_named (total_play_time : Q)
  (hardware_cfg : pydict) (lo_dict : list (value * LocalOscillator)) :
  generate_ext_local_oscillators total_play_time hardware_cfg = Ok lo_dict ->
  (forall k lo, In (k, lo) lo_dict ->
                lo_base lo = InstrumentBase_init k total_play_time)
  /\
  (forall dev device io io_cfg lo_name,
     In (dev, VDict device) hardware_cfg ->
     In (io, VDict io_cfg) device ->
     get "lo_name" io_cfg = Some lo_name ->
     Spec.lo_named lo_name lo_dict /\
     forall v, get "lo_freq" io_cfg = Some (VNum v) ->
               Spec.lo_has lo_name v lo_dict).
Proof.
  intros H. rewrite generate_ext_local_oscillators_loops in H.
  set (Base := fun los : list (value * LocalOscillator) =>
                 forall k lo, In (k, lo) los ->
                              lo_base lo = InstrumentBase_init k total_play_time).
  assert (Hinner : forall device los los',
            Base los ->
            for_each (lo_step total_play_time) device los = Ok los' -> Base los').
  { intros device los los' Hb Hrun.
    refine (for_each_inv Base _ _ _ _ _ Hb Hrun).
    intros x s s' _ Hs Hstep. exact (lo_step_keeps_base _ _ _ _ Hstep Hs). }
  assert (Houter : forall y s s',
            Base s ->
            match y with
            | VDict device => for_each (lo_step total_play_time) (dvalues device) s
            | _ => Ok s
            end = Ok s' -> Base s').
  { intros y s s' Hs Hstep.
    destruct y as [| | | | |device]; try (inversion Hstep; subst; exact Hs).
    exact (Hinner _ _ _ Hs Hstep). }
  assert (Hbase0 : Base []) by (intros k lo []).
  split.
  - refine (for_each_inv Base _ _ _ _ _ Hbase0 H).
    intros y s s' _. apply Houter.
  - intros dev device io io_cfg lo_name Hdev Hio Hname.
    set (P := fun los : list (value * LocalOscillator) =>
                Spec.lo_named lo_name los /\
                forall v, get "lo_freq" io_cfg = Some (VNum v) ->
                          Spec.lo_has lo_name v los).
    assert (Hkeep : forall x s s', P s -> lo_step total_play_time x s = Ok s' -> P s').
    { intros x s s' [Hn Hf] Hstep. split.
      - exact (lo_step_keeps_named _ _ _ _ _ Hstep Hn).
      - intros v Hv. exact (lo_step_keeps_freq _ _ _ _ _ _ Hstep (Hf v Hv)). }
    assert (Hdev' : In (VDict device) (dvalues hardware_cfg)).
    { unfold dvalues. apply in_map_iff. exists (dev, VDict device). auto. }
    assert (Hio' : In (VDict io_cfg) (dvalues device)).
    { unfold dvalues. apply in_map_iff. exists (io, VDict io_cfg). auto. }
    refine (for_each_establish Base P _ _ (VDict device) Hdev' Houter _ _ _ _ Hbase0 H).
    + intros s s' Hs Hrun.
      refine (for_each_establish Base P _ _ (VDict io_cfg) Hio' _ _ Hkeep _ _ Hs Hrun).
      * intros y s0 s1 Hs0 Hstep. exact (lo_step_keeps_base _ _ _ _ Hstep Hs0).
      * intros s0 s1 Hs0 Hstep.
        exact (lo_step_establishes _ _ _ _ _ Hname Hs0 Hstep).
    + intros y s s' Hs Hstep.
      destruct y as [| | | | |dv]; try (inversion Hstep; subst; exact Hs).
      refine (for_each_inv P _ _ _ _ _ Hs Hstep).
      intros x s0 s1 _. apply Hkeep.
Qed.

Lemma ext_local_oscillators_named_witness :
  exists lo_dict,
    generate_ext_local_oscillators (1 # 1000000) lo_only_mapping = Ok lo_dict /\
    Spec.lo_named (VStr "lo0") lo_dict /\
    Spec.lo_has (VStr "lo0") 7000000000 lo_dict.
Proof.
  destruct (generate_ext_local_oscillators (1 # 1000000) lo_only_mapping)
    as [lo_dict|e] eqn:E; [|vm_compute in E; discriminate].
  exists lo_dict. split; [reflexivity|].
  destruct (ext_local_oscillators_named _ _ lo_dict E) as [_ H].
  destruct (H "qcm0" (qcm0_mapping_of lo_only_mapping) "complex_output_0"
              lo_only_output (VStr "lo0")) as [Hn Hf].
  - right. left. reflexivity.
  - right. right. right. left. reflexivity.
  - reflexivity.
  - split; [exact Hn|]. apply Hf. reflexivity.
Defined.

(** *** The distributor of [qblox_backend.py] *)

Lemma legacy_append_at_keeps (pc k : portclock) (op x : OpInfo)
  (d d' : list (portclock * list OpInfo)) (l : list OpInfo) :
  append_at pc op d = Ok d' ->
  dget pc_eqb k d = Some l -> In x l ->
  exists l', dget pc_eqb k d' = Some l' /\ In x l'.
Proof.
  unfold append_at, pc_get, pc_setitem. intros H Hk Hx.
  destruct (pc_hashable pc); simpl in H; [|discriminate].
  inversion H; subst d'; clear H.
  destruct (pc_eqb k pc) eqn:E.
  - rewrite (dget_dset_eq pc_eqb pc_eqb_sym pc_eqb_trans k pc _ d E).
    rewrite <- (dget_respects pc_eqb pc_eqb_sym pc_eqb_trans k pc d E), Hk.
    eexists. split; [reflexivity|]. apply in_or_app. left. exact Hx.
  - rewrite (dget_dset_neq pc_eqb pc_eqb_sym pc_eqb_trans k pc _ d E).
    exists l. split; assumption.
Qed.

Lemma legacy_append_at_adds (pc : portclock) (op : OpInfo)
  (d d' : list (portclock * list OpInfo)) :
  append_at pc op d = Ok d' ->
  exists l', dget pc_eqb pc d' = Some l' /\ In op l'.
Proof.
  unfold append_at, pc_get, pc_setitem. intros H.
  destruct (pc_hashable pc) eqn:Hh; simpl in H; [|discriminate].
  inversion H; subst d'; clear H.
  rewrite (dget_dset_eq pc_eqb pc_eqb_sym pc_eqb_trans pc pc _ d
             (pc_eqb_refl pc Hh)).
  eexists. split; [reflexivity|]. apply in_or_app. right. left. reflexivity.
Qed.

(** What [add_pulse] and [add_acquisition] do to the stored lists. *)
Lemma add_pulse_stored (port clock : value) (op : OpInfo)
  (c c' : InstrumentCompiler) :
  add_pulse port clock op c = Ok c' ->
  append_at (port, clock) op (_pulses (compiler_base c))
  = Ok (_pulses (compiler_base c')) /\
  _acquisitions (compiler_base c') = _acquisitions (compiler_base c).
Proof.
  unfold add_pulse, base_add_pulse. intros H.
  destruct c as [p|lo]; apply bind_Ok in H; destruct H as [b [Hb H]];
    apply bind_Ok in Hb; destruct Hb as [d [Hd Hb]];
    inversion Hb; subst b; inversion H; subst c'; simpl; auto.
Qed.

Lemma add_acquisition_stored (port clock : value) (op : OpInfo)
  (c c' : InstrumentCompiler) :
  add_acquisition port clock op c = Ok c' ->
  append_at (port, clock) op (_acquisitions (compiler_base c))
  = Ok (_acquisitions (compiler_base c')) /\
  _pulses (compiler_base c') = _pulses (compiler_base c).
Proof.
  unfold add_acquisition, base_add_acquisition. intros H.
  destruct c as [p|lo].
  - destruct (pulsar_type p); [discriminate|].
    apply bind_Ok in H; destruct H as [b [Hb H]];
    apply bind_Ok in Hb; destruct Hb as [d [Hd Hb]];
    inversion Hb; subst b; inversion H; subst c'; simpl; auto.
  - apply bind_Ok in H; destruct H as [b [Hb H]];
    apply bind_Ok in Hb; destruct Hb as [d [Hd Hb]];
    inversion Hb; subst b; inversion H; subst c'; simpl; auto.
Qed.

Lemma add_keeps_stored (acq acq_added : bool) (port clock : value) (op x : OpInfo)
  (k : portclock) (c c' : InstrumentCompiler) (l : list OpInfo) :
  (if acq_added then add_acquisition port clock op c
   else add_pulse port clock op c) = Ok c' ->
  dget pc_eqb k (stored acq (compiler_base c)) = Some l -> In x l ->
  exists l', dget pc_eqb k (stored acq (compiler_base c')) = Some l' /\ In x l'.
Proof.
  intros H Hl Hx. destruct acq_added.
  - apply add_acquisition_stored in H. destruct H as [Ha Hp].
    destruct acq; unfold stored in *.
    + exact (legacy_append_at_keeps _ _ _ _ _ _ _ Ha Hl Hx).
    + rewrite Hp. exists l. auto.
  - apply add_pulse_stored in H. destruct H as [Hp Ha].
    destruct acq; unfold stored in *.
    + rewrite Ha. exists l. auto.
    + exact (legacy_append_at_keeps _ _ _ _ _ _ _ Hp Hl Hx).
Qed.

Lemma legacy_update_device_keeps (acq : bool) (dev d' : string) (k : portclock)
  (x : OpInfo) (f : InstrumentCompiler -> result InstrumentCompiler)
  (devs devs' : list (string * InstrumentCompiler)) :
  (forall c c' l, f c = Ok c' ->
     dget pc_eqb k (stored acq (compiler_base c)) = Some l -> In x l ->
     exists l', dget pc_eqb k (stored acq (compiler_base c')) = Some l' /\ In x l') ->
  update_device d' f devs = Ok devs' ->
  device_holds acq dev k x devs -> device_holds acq dev k x devs'.
Proof.
  intros Hf H [c [l [Hc [Hl Hx]]]]. apply update_device_inv in H.
  destruct H as [c0 [c1 [Hd [Hc1 ->]]]].
  unfold device_holds. destruct (String.eqb dev d') eqn:E.
  - apply String.eqb_eq in E. subst d'. rewrite sdget_dset_same.
    rewrite Hd in Hc. inversion Hc; subst c0.
    destruct (Hf c c1 l Hc1 Hl Hx) as [l' [Hl' Hx']].
    exists c1, l'. auto.
  - rewrite (sdget_dset_other _ _ _ _ E). exists c, l. auto.
Qed.

Lemma legacy_update_device_adds (acq : bool) (dev : string) (port clock : value)
  (op : OpInfo) (devs devs' : list (string * InstrumentCompiler)) :
  update_device dev
    (if acq then add_acquisition port clock op else add_pulse port clock op)
    devs = Ok devs' ->
  device_holds acq dev (port, clock) op devs'.
Proof.
  intros H. apply update_device_inv in H.
  destruct H as [c0 [c1 [Hd [Hc1 ->]]]].
  exists c1. unfold stored. destruct acq.
  - apply add_acquisition_stored in Hc1. destruct Hc1 as [Ha _].
    destruct (legacy_append_at_adds _ _ _ _ Ha) as [l' [Hl' Hin]].
    exists l'. split; [apply sdget_dset_same | auto].
  - apply add_pulse_stored in Hc1. destruct Hc1 as [Hp _].
    destruct (legacy_append_at_adds _ _ _ _ Hp) as [l' [Hl' Hin]].
    exists l'. split; [apply sdget_dset_same | auto].
Qed.

Section Distributor.
Variable make_hash : pydict -> Z.
Variable without : pydict -> list string -> result pydict.

Lemma legacy_assign_pulse_keeps (acq : bool) (start : Q)
  (pcm : list (portclock * string)) (pulse_data : pydict)
  (dev : string) (k : portclock) (x : OpInfo)
  (devs devs' : list (string * InstrumentCompiler)) :
  assign_pulse make_hash without start pcm pulse_data devs = Ok devs' ->
  device_holds acq dev k x devs -> device_holds acq dev k x devs'.
Proof.
  unfold assign_pulse. intros H Hh.
  apply bind_Ok in H. destruct H as [t [_ H]].
  apply bind_Ok in H. destruct H as [port [_ H]].
  apply bind_Ok in H. destruct H as [clock [_ H]].
  destruct (is_none port); [inversion H; subst; exact Hh|].
  apply bind_Ok in H. destruct H as [hashed [_ H]].
  apply bind_Ok in H. destruct H as [d [_ H]].
  eapply legacy_update_device_keeps; [|exact H|exact Hh].
  intros c c' l. apply (add_keeps_stored acq false).
Qed.

Lemma legacy_assign_acquisition_keeps (acq : bool) (start : Q)
  (pcm : list (portclock * string)) (acq_data : pydict)
  (dev : string) (k : portclock) (x : OpInfo)
  (devs devs' : list (string * InstrumentCompiler)) :
  assign_acquisition make_hash without start pcm acq_data devs = Ok devs' ->
  device_holds acq dev k x devs -> device_holds acq dev k x devs'.
Proof.
  unfold assign_acquisition. intros H Hh.
  apply bind_Ok in H. destruct H as [t [_ H]].
  apply bind_Ok in H. destruct H as [port [_ H]].
  apply bind_Ok in H. destruct H as [clock [_ H]].
  destruct (is_none port); [inversion H; subst; exact Hh|].
  apply bind_Ok in H. destruct H as [hashed [_ H]].
  apply bind_Ok in H. destruct H as [w [_ H]].
  apply bind_Ok in H. destruct H as [stripped [_ H]].
  apply bind_Ok in H. destruct H as [d [_ H]].
  eapply legacy_update_device_keeps; [|exact H|exact Hh].
  intros c c' l. apply (add_keeps_stored acq true).
Qed.

Lemma legacy_assign_pulse_adds (start : Q)
  (pcm : list (portclock * string)) (pulse_data : pydict) (port clock : value)
  (devs devs' : list (string * InstrumentCompiler)) :
  get "port" pulse_data = Some port -> is_none port = false ->
  get "clock" pulse_data = Some clock ->
  assign_pulse make_hash without start pcm pulse_data devs = Ok devs' ->
  exists dev t hashed,
    pc_getitem (port, clock) pcm = Ok dev /\
    add_t0 start pulse_data = Ok t /\
    without pulse_data ["t0"] = Ok hashed /\
    device_holds false dev (port, clock)
      {| uuid := make_hash hashed; data := pulse_data; timing := t;
         pulse_settings := None |} devs'.
Proof.
  intros Hp Hn Hc H. unfold assign_pulse in H.
  apply bind_Ok in H. destruct H as [t [Ht H]].
  unfold getitem in H. rewrite Hp, Hc in H. cbn [bind] in H. rewrite Hn in H.
  apply bind_Ok in H. destruct H as [hashed [Hh H]].
  apply bind_Ok in H. destruct H as [d [Hd H]].
  exists d, t, hashed. repeat split; try assumption.
  exact (legacy_update_device_adds false _ _ _ _ _ _ H).
Qed.


(** One operation of the schedule keeps what the devices hold. *)
Lemma legacy_operation_keeps (acq : bool) (schedule : Schedule)
  (portclock_mapping : list (portclock * string)) (dev : string)
  (k : portclock) (x : OpInfo) (y : TimingConstraint)
  (s s' : list (string * InstrumentCompiler)) :
  device_holds acq dev k x s ->
  match dget Z.eqb (operation_hash y) (operations schedule) with
  | None => Raise (KeyError "operation_hash")
  | Some op =>
      if negb (valid_pulse op) && negb (valid_acquisition op)
      then Raise (RuntimeError "Operation is not a valid pulse or acquisition")
      else
        ds <- for_each (assign_pulse make_hash without (abs_time y)
                          portclock_mapping) (pulse_info op) s ;;
        for_each (assign_acquisition make_hash without (abs_time y)
                    portclock_mapping) (acquisition_info op) ds
  end = Ok s' ->
  device_holds acq dev k x s'.
Proof.
  intros Hs Hb.
  destruct (dget Z.eqb (operation_hash y) (operations schedule)) as [op|];
    [|discriminate].
  destruct (negb (valid_pulse op) && negb (valid_acquisition op)); [discriminate|].
  apply bind_Ok in Hb. destruct Hb as [ds [Hp Ha]].
  assert (Hds : device_holds acq dev k x ds).
  { refine (for_each_inv (device_holds acq dev k x) _ _ _ _ _ Hs Hp).
    intros z s0 s1 _ Hs0 Hz. exact (legacy_assign_pulse_keeps _ _ _ _ _ _ _ _ _ Hz Hs0). }
  refine (for_each_inv (device_holds acq dev k x) _ _ _ _ _ Hds Ha).
  intros z s0 s1 _ Hs0 Hz.
  exact (legacy_assign_acquisition_keeps _ _ _ _ _ _ _ _ _ Hz Hs0).
Qed.

(** A pulse with a port reaches the device of its (port, clock). *)
Lemma legacy_pulse_reaches_device (schedule : Schedule)
  (device_compilers devs' : list (string * InstrumentCompiler))
  (portclock_mapping : list (portclock * string))
  (tc : TimingConstraint) (op_data : Operation)
  (pulse_data : pydict) (port clock : value) :
  _assign_pulse_and_acq_info_to_devices make_hash without schedule
    device_compilers portclock_mapping = Ok devs' ->
  In tc (timing_constraints schedule) ->
  dget Z.eqb (operation_hash tc) (operations schedule) = Some op_data ->
  In pulse_data (pulse_info op_data) ->
  get "port" pulse_data = Some port -> is_none port = false ->
  get "clock" pulse_data = Some clock ->
  exists dev t hashed,
    pc_getitem (port, clock) portclock_mapping = Ok dev /\
    add_t0 (abs_time tc) pulse_data = Ok t /\
    without pulse_data ["t0"] = Ok hashed /\
    device_holds false dev (port, clock)
      {| uuid := make_hash hashed; data := pulse_data; timing := t;
         pulse_settings := None |} devs'.
Proof.
  intros H Htc Hop Hin Hp Hn Hc.
  unfold _assign_pulse_and_acq_info_to_devices in H.
  pose proof (fun acq dev k x y s s' =>
                legacy_operation_keeps acq schedule portclock_mapping
                  dev k x y s s') as Hkeep.
    set (P := fun s : list (string * InstrumentCompiler) =>
                exists dev t hashed,
                  pc_getitem (port, clock) portclock_mapping = Ok dev /\
                  add_t0 (abs_time tc) pulse_data = Ok t /\
                  without pulse_data ["t0"] = Ok hashed /\
                  device_holds false dev (port, clock)
                    {| uuid := make_hash hashed; data := pulse_data; timing := t;
                       pulse_settings := None |} s).
    assert (HPkeep : forall y s s',
              P s ->
              match dget Z.eqb (operation_hash y) (operations schedule) with
              | None => Raise (KeyError "operation_hash")
              | Some op =>
                  if negb (valid_pulse op) && negb (valid_acquisition op)
                  then Raise (RuntimeError "Operation is not a valid pulse or acquisition")
                  else
                    ds <- for_each (assign_pulse make_hash without (abs_time y)
                                      portclock_mapping) (pulse_info op) s ;;
                    for_each (assign_acquisition make_hash without (abs_time y)
                                portclock_mapping) (acquisition_info op) ds
              end = Ok s' -> P s').
    { intros y s s' [dev [t [hashed [H1 [H2 [H3 H4]]]]]] Hb.
      exists dev, t, hashed. repeat split; try assumption.
      exact (Hkeep _ _ _ _ y s s' H4 Hb). }
    refine (for_each_establish (fun _ => True) P _ _ tc Htc _ _ HPkeep _ _ I H);
      [auto|].
    intros s s' _ Hb. cbv beta in Hb. rewrite Hop in Hb.
    destruct (negb (valid_pulse op_data) && negb (valid_acquisition op_data));
      [discriminate|].
    apply bind_Ok in Hb. destruct Hb as [ds [Hpl Hal]].
    assert (Hds : P ds).
    { refine (for_each_establish (fun _ => True) P _ _ pulse_data Hin _ _ _ _ _ I Hpl);
        [auto| |].
      - intros s0 s1 _ Hz.
        exact (legacy_assign_pulse_adds _ _ _ _ _ _ _ Hp Hn Hc Hz).
      - intros z s0 s1 [dev [t [hashed [H1 [H2 [H3 H4]]]]]] Hz.
        exists dev, t, hashed. repeat split; try assumption.
        exact (legacy_assign_pulse_keeps _ _ _ _ _ _ _ _ _ Hz H4). }
    refine (for_each_inv P _ _ _ _ _ Hds Hal).
    intros z s0 s1 _ [dev [t [hashed [H1 [H2 [H3 H4]]]]]] Hz.
    exists dev, t, hashed. repeat split; try assumption.
    exact (legacy_assign_acquisition_keeps _ _ _ _ _ _ _ _ _ Hz H4).
Qed.


End Distributor.


(** *** The sequencers of a pulsar *)

Lemma output_to_seq_cases (io : string) (k : Z) :
  dget String.eqb io OUTPUT_TO_SEQ = Some k ->
  io = "complex_output_0" /\ k = 0 \/ io = "complex_output_1" /\ k = 1.
Proof.
  unfold OUTPUT_TO_SEQ. simpl.
  destruct (String.eqb_spec io "complex_output_0") as [E0|E0].
  - intros H. inversion H. left. auto.
  - destruct (String.eqb_spec io "complex_output_1") as [E1|E1].
    + intros H. inversion H. right. auto.
    + discriminate.
Qed.

Lemma output_to_seq_inj (io io' : string) (k k' : Z) :
  dget String.eqb io OUTPUT_TO_SEQ = Some k ->
  dget String.eqb io' OUTPUT_TO_SEQ = Some k' ->
  io <> io' -> seq_name_of k <> seq_name_of k'.
Proof.
  intros H H' Hne.
  destruct (output_to_seq_cases io k H) as [[-> ->]|[-> ->]];
    destruct (output_to_seq_cases io' k' H') as [[-> ->]|[-> ->]];
    try (exfalso; apply Hne; reflexivity);
    vm_compute; discriminate.
Qed.

(** Every entry of the port-clock-to-sequencer map comes from an output
    with exactly one port-clock. *)
Lemma portclock_to_seq_map_sound (hw : pydict) :
  forall m0 m,
    for_each
      (fun item mapping =>
         let '(io, data) := item in
         match data with
         | VDict data =>
             port_clocks <- find_all_port_clock_combinations data ;;
             if (1 <? List.length port_clocks)%nat
             then match dget String.eqb io OUTPUT_TO_SEQ with
                  | None => Raise (KeyError io)
                  | Some _ =>
                      Raise (NotImplementedError
                               "Multiple sequencers per output is not yet supported")
                  end
             else
               match port_clocks with
               | port_clock :: _ =>
                   match dget String.eqb io OUTPUT_TO_SEQ with
                   | None =>
                       Raise (NotImplementedError
                                "Attempting to use non-supported output")
                   | Some n => pc_setitem port_clock (seq_name_of n) mapping
                   end
               | [] => Ok mapping
               end
         | _ => Ok mapping
         end) hw m0 = Ok m ->
    forall pc n, In (pc, n) m ->
      In (pc, n) m0 \/
      exists io data pc0 k,
        In (io, VDict data) hw /\
        find_all_port_clock_combinations data = Ok [pc0] /\
        dget String.eqb io OUTPUT_TO_SEQ = Some k /\
        n = seq_name_of k /\ pc_eqb pc0 pc = true.
Proof.
  induction hw as [|[io0 d0] hw IH]; intros m0 m H pc n Hin; cbn [for_each] in H.
  - inversion H; subst. left. exact Hin.
  - match type of H with bind ?c _ = _ => destruct c as [m1|e] eqn:Hx end;
      [|discriminate].
    cbn [bind] in H.
    destruct (IH _ _ H pc n Hin) as [Hin1|[io [data [pc0 [k [Hi Hr]]]]]].
    + destruct d0 as [| | | | |data];
        try (inversion Hx; subst m1; left; exact Hin1).
      apply bind_Ok in Hx. destruct Hx as [pcs [Hf Hx]].
      destruct pcs as [|pc0 [|pc1 rest]].
      * inversion Hx; subst m1. left. exact Hin1.
      * cbn [List.length Nat.ltb Nat.leb] in Hx.
        destruct (dget String.eqb io0 OUTPUT_TO_SEQ) as [k|] eqn:Hk; [|discriminate].
        unfold pc_setitem in Hx. destruct (pc_hashable pc0) eqn:Hh; [|discriminate].
        inversion Hx; subst m1; clear Hx.
        apply dset_In_key in Hin1.
        destruct Hin1 as [Hin0|[-> Hkey]]; [left; exact Hin0|].
        right. exists io0, data, pc0, k.
        split; [left; reflexivity|]. split; [exact Hf|]. split; [exact Hk|].
        split; [reflexivity|].
        destruct Hkey as [->|Hkey]; [apply pc_eqb_refl; exact Hh | exact Hkey].
      * cbn [List.length Nat.ltb Nat.leb] in Hx.
        destruct (dget String.eqb io0 OUTPUT_TO_SEQ); discriminate.
    + right. exists io, data, pc0, k. split; [right; exact Hi | exact Hr].
Qed.

(** What the construction of one sequencer does. *)
Lemma construct_sequencer_inv (fd : value -> result MixerCorrections)
  (c : pulsar_class) (parent io : string) (cfg : pydict)
  (seqs seqs' : list (string * Sequencer)) :
  construct_sequencer fd c parent (io, VDict cfg) seqs = Ok seqs' ->
  exists pd port clock k seq,
    find_inner_dicts_containing_key cfg "port" = [pd] /\
    get "port" pd = Some port /\ get "clock" pd = Some clock /\
    dget String.eqb io OUTPUT_TO_SEQ = Some k /\
    seq_portclock seq = (port, clock) /\
    seqs' = dset String.eqb (seq_name_of k) seq seqs.
Proof.
  unfold construct_sequencer. intros H.
  destruct (find_inner_dicts_containing_key cfg "port") as [|pd [|pd' rest]];
    try discriminate.
  cbn [List.length Nat.ltb Nat.leb] in H.
  apply bind_Ok in H. destruct H as [port [Hp H]].
  apply bind_Ok in H. destruct H as [clock [Hc H]].
  apply bind_Ok in H. destruct H as [freq [_ H]].
  destruct (dget String.eqb io OUTPUT_TO_SEQ) as [k|]; [|discriminate].
  apply bind_Ok in H. destruct H as [seq [Hseq H]].
  inversion H; subst seqs'; clear H.
  apply getitem_inv in Hp. apply getitem_inv in Hc.
  exists pd, port, clock, k, seq.
  repeat split; try assumption; try reflexivity.
  destruct (get "mixer_corrections" cfg) as [mc|].
  - apply bind_Ok in Hseq. destruct Hseq as [mx [_ Hseq]].
    inversion Hseq; subst seq; reflexivity.
  - inversion Hseq; subst seq; reflexivity.
Qed.

Lemma construct_sequencers_has (fd : value -> result MixerCorrections)
  (c : pulsar_class) (parent : string) (hw : pydict) (io : string)
  (cfg : pydict) (k : Z) (seqs : list (string * Sequencer)) :
  NoDup (dkeys hw) ->
  In (io, VDict cfg) hw ->
  dget String.eqb io OUTPUT_TO_SEQ = Some k ->
  for_each (construct_sequencer fd c parent) hw [] = Ok seqs ->
  exists pd port clock seq,
    find_inner_dicts_containing_key cfg "port" = [pd] /\
    get "port" pd = Some port /\ get "clock" pd = Some clock /\
    dget String.eqb (seq_name_of k) seqs = Some seq /\
    seq_portclock seq = (port, clock).
Proof.
  intros Hnd Hin Hk H.
  apply in_split in Hin. destruct Hin as [before [after ->]].
  rewrite for_each_app in H. apply bind_Ok in H. destruct H as [s0 [_ H]].
  cbn [for_each] in H. apply bind_Ok in H. destruct H as [s1 [Hx H]].
  apply construct_sequencer_inv in Hx.
  destruct Hx as [pd [port [clock [k' [seq [Hf [Hp [Hc [Hk' [Hpc ->]]]]]]]]]].
  rewrite Hk in Hk'. inversion Hk'; subst k'; clear Hk'.
  exists pd, port, clock. 
  assert (Hfresh : forall y, In y after -> fst y <> io).
  { unfold dkeys in Hnd. rewrite map_app in Hnd. cbn [map fst] in Hnd.
    apply NoDup_remove_2 in Hnd.
    intros y Hy E. apply Hnd. apply in_or_app. right.
    rewrite <- E. exact (in_map fst after y Hy). }
  set (P := fun s : list (string * Sequencer) =>
              exists seq, dget String.eqb (seq_name_of k) s = Some seq /\
                          seq_portclock seq = (port, clock)).
  assert (Hstep : forall x s s', In x after -> P s ->
                    construct_sequencer fd c parent x s = Ok s' -> P s').
  { intros [io' d'] s s' Hy [sq [Hs Hq]] Hstep.
    destruct d' as [| | | | |cfg'];
      try (inversion Hstep; subst; exists sq; auto; fail).
    apply construct_sequencer_inv in Hstep.
    destruct Hstep as [_ [_ [_ [k' [seq' [_ [_ [_ [Hk' [_ ->]]]]]]]]]].
    exists sq. split; [|exact Hq].
    rewrite (dget_dset_neq String.eqb String.eqb_sym string_eqb_trans); [exact Hs|].
    apply String.eqb_neq.
    apply (output_to_seq_inj io io' k k' Hk Hk').
    intros E. exact (Hfresh (io', VDict cfg') Hy (eq_sym E)). }
  assert (Hstart : P (dset String.eqb (seq_name_of k) seq s0)).
  { exists seq. split; [|exact Hpc].
    apply (dget_dset_eq String.eqb String.eqb_sym string_eqb_trans).
    apply String.eqb_refl. }
  destruct (for_each_inv P _ after Hstep _ _ Hstart H) as [sq [H1 H2]].
  exists sq. auto.
Qed.

(** X11. In a pulsar compiler as constructed, the sequencer that the
    port-clock map names for a (port, clock) exists and is the sequencer
    of that (port, clock); its modulation frequency is not yet set, so a
    first call of [assign_modulation_frequency] for it succeeds. *)
Theorem pulsar_map_names_its_sequencers
  (fd : value -> result MixerCorrections) (c : pulsar_class) (name : string)
  (total_play_time : Q) (hw : pydict) (p : Pulsar) (pc : portclock)
  (seq_name : string) :
  NoDup (dkeys hw) ->
  Pulsar_init fd c name total_play_time hw = Ok p ->
  pc_getitem pc (portclock_map p) = Ok seq_name ->
  (exists seq,
     dget String.eqb seq_name (sequencers p) = Some seq /\
     pc_eqb (seq_portclock seq) pc = true) /\
  forall freq, exists p', assign_modulation_frequency pc freq p = Ok p'.
Proof.
  intros Hnd Hinit Hget.
  assert (Hseq : exists seq,
     dget String.eqb seq_name (sequencers p) = Some seq /\
     pc_eqb (seq_portclock seq) pc = true /\
     modulation_freq (_settings seq) = VNone).
  { unfold Pulsar_init in Hinit.
    apply bind_Ok in Hinit. destruct Hinit as [m [Hm Hinit]].
    apply bind_Ok in Hinit. destruct Hinit as [seqs [Hs Hinit]].
    apply bind_Ok in Hinit. destruct Hinit as [st [_ Hinit]].
    inversion Hinit; subst p; clear Hinit.
    cbn [portclock_map sequencers] in *.
    unfold pc_getitem in Hget. apply bind_Ok in Hget.
    destruct Hget as [o [Ho Hget]]. unfold pc_get in Ho.
    destruct (pc_hashable pc) eqn:Hh; [|discriminate].
    inversion Ho; subst o; clear Ho.
    destruct (dget pc_eqb pc m) as [n|] eqn:Hd; [|discriminate].
    inversion Hget; subst n; clear Hget.
    apply dget_Some_In in Hd. destruct Hd as [pc' [Hin Heq]].
    unfold _generate_portclock_to_seq_map in Hm.
    destruct (portclock_to_seq_map_sound hw [] m Hm pc' seq_name Hin)
      as [[]|[io [data [pc0 [k [Hio [Hf [Hk [-> Heq0]]]]]]]]].
    unfold _construct_sequencers in Hs.
    apply bind_Ok in Hs. destruct Hs as [acc [Hloop Hs]].
    destruct (MAX_SEQUENCERS c <? List.length (dkeys acc))%nat; [discriminate|].
    inversion Hs; subst acc; clear Hs.
    destruct (construct_sequencers_has fd c name hw io data k seqs Hnd Hio Hk Hloop)
      as [pd [port [clock [seq [Hfi [Hp [Hc [Hg Hpc]]]]]]]].
    exists seq. split; [exact Hg|]. split.
    - rewrite Hpc.
      destruct pc0 as [port0 clock0].
      unfold find_all_port_clock_combinations in Hf.
      destruct (proj1 (port_clock_loop_ok _ _ _ Hf (port0, clock0))
                  (or_introl eq_refl)) as [[]|[x [Hxin [Hxp [_ Hxc]]]]].
      cbn [fst snd] in Hxp, Hxc.
      rewrite Hfi in Hxin. destruct Hxin as [<-|[]].
      rewrite Hp in Hxp. rewrite Hc in Hxc. inversion Hxp; inversion Hxc; subst.
      apply (pc_eqb_trans _ pc'); [exact Heq0|].
      rewrite pc_eqb_sym. exact Heq.
    - apply dget_Some_In in Hg. destruct Hg as [n1 [Hin1 _]].
      refine (for_each_inv
                (fun d => forall n s, In (n, s) d ->
                                      modulation_freq (_settings s) = VNone)
                _ _ _ _ _ _ Hloop n1 seq Hin1).
      + intros x s0 s1 _ HP Hb.
        exact (construct_sequencer_keeps_none _ _ _ _ _ _ HP Hb).
      + intros n s []. }
  destruct Hseq as [seq [Hg [Hpc Hnone]]].
  split; [exists seq; auto|].
  intros freq. unfold assign_modulation_frequency. rewrite Hget. cbn [bind].
  rewrite Hg. unfold Sequencer_assign_frequency. rewrite Hnone.
  simpl. rewrite andb_false_r. simpl. eexists. reflexivity.
Qed.

Lemma pulsar_map_names_its_sequencers_witness :
  exists p seq p',
    Pulsar_init example_from_dict Pulsar_QCM "qcm0" (1 # 1000000)
      (qcm_module "qcm0") = Ok p /\
    pc_getitem (VStr "q0:mw", VStr "q0.01") (portclock_map p) = Ok "seq0" /\
    dget String.eqb "seq0" (sequencers p) = Some seq /\
    pc_eqb (seq_portclock seq) (VStr "q0:mw", VStr "q0.01") = true /\
    assign_modulation_frequency (VStr "q0:mw", VStr "q0.01") (VNum 50000000) p = Ok p'.
Proof.
  destruct (Pulsar_init example_from_dict Pulsar_QCM "qcm0" (1 # 1000000)
              (qcm_module "qcm0")) as [p|e] eqn:E;
    [|vm_compute in E; discriminate].
  assert (Hg : pc_getitem (VStr "q0:mw", VStr "q0.01") (portclock_map p)
               = Ok "seq0").
  { vm_compute in E. inversion E. vm_compute. reflexivity. }
  destruct (pulsar_map_names_its_sequencers example_from_dict Pulsar_QCM "qcm0"
              (1 # 1000000) (qcm_module "qcm0") p
              (VStr "q0:mw", VStr "q0.01") "seq0")
    as [[seq [Hs Hpc]] Hf].
  - repeat constructor; simpl; intuition discriminate.
  - exact E.
  - exact Hg.
  - destruct (Hf (VNum 50000000)) as [p' Hp'].
    exists p, seq, p'. repeat split; assumption.
Defined.

(** *** Distribution of the data over the sequencers *)

Section DistinctKeys.
Context {K V : Type} (eqb : K -> K -> bool).
Hypothesis eqb_sym : forall a b, eqb a b = eqb b a.
Hypothesis eqb_trans :
  forall a b c, eqb a b = true -> eqb b c = true -> eqb a c = true.

Lemma distinct_keys_tail (a : K * V) (d : list (K * V)) :
  distinct_keys eqb (a :: d) ->
  Forall (fun b => eqb (fst a) (fst b) = false) d /\ distinct_keys eqb d.
Proof. intros H. inversion H; subst. auto. Qed.

Lemma dget_none_of_distinct (k k0 : K) (d : list (K * V)) :
  eqb k k0 = true ->
  Forall (fun b => eqb k0 (fst b) = false) d ->
  dget eqb k d = None.
Proof.
  intros Hk HF. induction HF as [|[k1 v1] d H1 HF IH]; simpl; [reflexivity|].
  simpl in H1. rewrite (eqb_respects eqb eqb_sym eqb_trans k k0 k1 Hk), H1.
  exact IH.
Qed.

(** With distinct keys the last item with a key equal to [k] is the
    first one. *)
Lemma dget_rev (k : K) (d : list (K * V)) :
  distinct_keys eqb d -> dget eqb k (rev d) = dget eqb k d.
Proof.
  induction d as [|[k0 v0] d IH]; intros Hd; [reflexivity|].
  apply distinct_keys_tail in Hd. destruct Hd as [HF Hd]. simpl in HF.
  cbn [rev dget]. destruct (eqb k k0) eqn:E.
  - rewrite dget_app_r.
    + simpl. rewrite E. reflexivity.
    + rewrite (IH Hd). exact (dget_none_of_distinct k k0 d E HF).
  - destruct (dget eqb k d) as [v|] eqn:Hg.
    + apply dget_app_l. exact (IH Hd).
    + rewrite dget_app_r by exact (IH Hd).
      simpl. rewrite E. reflexivity.
Qed.

Lemma dset_distinct_keys (k : K) (v : V) (d : list (K * V)) :
  distinct_keys eqb d -> distinct_keys eqb (dset eqb k v d).
Proof.
  induction d as [|[k0 v0] d IH]; intros Hd; simpl.
  - constructor; constructor.
  - apply distinct_keys_tail in Hd. destruct Hd as [HF Hd]. simpl in HF.
    destruct (eqb k k0) eqn:E.
    + constructor; assumption.
    + constructor; [|exact (IH Hd)].
      clear IH Hd. induction HF as [|[k1 v1] d H1 HF IH]; simpl.
      * constructor; [|constructor]. simpl. rewrite eqb_sym. exact E.
      * simpl in H1. destruct (eqb k k1); constructor; auto.
Qed.

End DistinctKeys.

(** The loop of [_distribute_data] over the items of [self._pulses] (or
    of [self._acquisitions], with [set]): a sequencer takes the list of
    the last item whose key equals its port-clock. *)
Lemma distribute_loop (set : list OpInfo -> Sequencer -> Sequencer)
  (items : list (portclock * list OpInfo)) :
  (forall l s, seq_portclock (set l s) = seq_portclock s) ->
  (forall l l0 s, set l (set l0 s) = set l s) ->
  forall seqs,
    fold_left
      (fun seqs item =>
         let '(portclock, data_list) := item in
         map (fun kv : string * Sequencer =>
                if pc_eqb (seq_portclock (snd kv)) portclock
                then (fst kv, set data_list (snd kv))
                else kv) seqs)
      items seqs
    = map (fun kv : string * Sequencer =>
             (fst kv,
              match dget pc_eqb (seq_portclock (snd kv)) (rev items) with
              | Some l => set l (snd kv)
              | None => snd kv
              end)) seqs.
Proof.
  intros Hset Hset2.
  induction items as [|[pc l] items IH] using rev_ind; intros seqs.
  - simpl. rewrite <- (map_id seqs) at 1. apply map_ext. intros [n s]. reflexivity.
  - rewrite fold_left_app, IH. cbn [fold_left]. rewrite map_map, rev_app_distr.
    apply map_ext. intros [n s]. cbn [fst snd rev app dget].
    destruct (dget pc_eqb (seq_portclock s) (rev items)) as [l0|]; cbn [fst snd].
    + rewrite Hset. destruct (pc_eqb (seq_portclock s) pc);
        [rewrite Hset2|]; reflexivity.
    + destruct (pc_eqb (seq_portclock s) pc); reflexivity.
Qed.

(** The two loops of [_distribute_data], for stored dictionaries with
    distinct keys. *)
Lemma distribute_data_body (p : Pulsar) :
  distinct_keys pc_eqb (_pulses (base p)) ->
  distinct_keys pc_eqb (_acquisitions (base p)) ->
  exists p',
    (let seqs1 :=
       fold_left
         (fun seqs item =>
            let '(portclock, pulse_data_list) := item in
            map (fun kv : string * Sequencer =>
                   if pc_eqb (seq_portclock (snd kv)) portclock
                   then (fst kv, set_pulses pulse_data_list (snd kv))
                   else kv) seqs)
         (_pulses (base p)) (sequencers p) in
     let seqs2 :=
       fold_left
         (fun seqs item =>
            let '(portclock, acq_data_list) := item in
            map (fun kv : string * Sequencer =>
                   if pc_eqb (seq_portclock (snd kv)) portclock
                   then (fst kv, set_acquisitions acq_data_list (snd kv))
                   else kv) seqs)
         (_acquisitions (base p)) seqs1 in
     Ok (set_sequencers seqs2 p)) = Ok p' /\
    base p' = base p /\
    sequencers p' =
    map (fun kv : string * Sequencer =>
           (fst kv,
            set_acquisitions
              (match dget pc_eqb (seq_portclock (snd kv))
                       (_acquisitions (base p)) with
               | Some l => l
               | None => acquisitions (snd kv)
               end)
              (set_pulses
                 (match dget pc_eqb (seq_portclock (snd kv))
                          (_pulses (base p)) with
                  | Some l => l
                  | None => pulses (snd kv)
                  end)
                 (snd kv))))
        (sequencers p).
Proof.
  intros Hp Ha.
  eexists. split; [reflexivity|]. split; [reflexivity|].
  cbn [sequencers set_sequencers].
  rewrite (distribute_loop set_pulses (_pulses (base p)))
    by (intros; reflexivity).
  rewrite (distribute_loop set_acquisitions (_acquisitions (base p)))
    by (intros; reflexivity).
  rewrite map_map. apply map_ext. intros [n s]. cbn [fst snd].
  rewrite (dget_rev pc_eqb pc_eqb_sym pc_eqb_trans _ _ Hp).
  assert (Hpc : forall x, seq_portclock
            match x with Some l => set_pulses l s | None => s end
            = seq_portclock s) by (intros [l|]; reflexivity).
  rewrite Hpc.
  rewrite (dget_rev pc_eqb pc_eqb_sym pc_eqb_trans _ _ Ha).
  destruct (dget pc_eqb (seq_portclock s) (_pulses (base p))) as [l1|];
    destruct (dget pc_eqb (seq_portclock s) (_acquisitions (base p))) as [l2|];
    destruct s; reflexivity.
Qed.

(** X12. [_distribute_data]: a Pulsar QCM that holds acquisitions is
    refused with a [RuntimeError]; otherwise every sequencer keeps its
    name, port and clock, and receives the pulses and the acquisitions
    stored under its (port, clock), keeping its own lists when nothing is
    stored there. *)
Theorem distribute_data_by_portclock (p : Pulsar) :
  distinct_keys pc_eqb (_pulses (base p)) ->
  distinct_keys pc_eqb (_acquisitions (base p)) ->
  match pulsar_type p, _acquisitions (base p) with
  | Pulsar_QCM, _ :: _ =>
      _distribute_data p
      = Raise (RuntimeError "Attempting to add acquisitions to a QCM")
  | _, _ =>
      exists p',
        _distribute_data p = Ok p' /\
        base p' = base p /\
        sequencers p' =
        map (fun kv : string * Sequencer =>
               (fst kv,
                set_acquisitions
                  (match dget pc_eqb (seq_portclock (snd kv))
                           (_acquisitions (base p)) with
                   | Some l => l
                   | None => acquisitions (snd kv)
                   end)
                  (set_pulses
                     (match dget pc_eqb (seq_portclock (snd kv))
                              (_pulses (base p)) with
                      | Some l => l
                      | None => pulses (snd kv)
                      end)
                     (snd kv))))
            (sequencers p)
  end.
Proof.
  intros Hp Ha. pose proof (distribute_data_body p Hp Ha) as Hgen.
  unfold _distribute_data.
  destruct (pulsar_type p); destruct (_acquisitions (base p)) as [|a0 acqs];
    try exact Hgen; reflexivity.
Qed.

Lemma distribute_data_by_portclock_witness :
  exists p',
    _distribute_data qrm_with_data = Ok p' /\
    sequencers p' =
    [("seq0", set_acquisitions [acquisition_at (1 # 10000000)]
                (qrm_seq_with [pulse_at 0]))].
Proof.
  destruct (distribute_data_by_portclock qrm_with_data) as [p' [Hd [_ Hs]]].
  - repeat constructor.
  - repeat constructor.
  - exists p'. split; [exact Hd|]. rewrite Hs. reflexivity.
Defined.

(** *** File names *)

Lemma replace_char_chars (c n : ascii) (s : string) :
  list_ascii_of_string (replace_char c n s)
  = map (fun a => if Ascii.eqb a c then n else a) (list_ascii_of_string s).
Proof. induction s as [|a s IH]; simpl; [reflexivity | rewrite IH; reflexivity]. Qed.

Lemma replace_chars_fold (cs : list ascii) :
  forall s,
    list_ascii_of_string
      (fold_left (fun sanitized_fn char => replace_char char "_"%char sanitized_fn)
                 cs s)
    = map (fun a => if existsb (Ascii.eqb a) cs then "_"%char else a)
          (list_ascii_of_string s).
Proof.
  induction cs as [|c cs IH]; intros s; cbn [fold_left].
  - cbn [existsb]. rewrite map_id. reflexivity.
  - rewrite IH, replace_char_chars, map_map. apply map_ext. intros a.
    cbn [existsb]. destruct (Ascii.eqb a c); cbn [orb]; [|reflexivity].
    destruct (existsb (Ascii.eqb "_"%char) cs); reflexivity.
Qed.

Lemma length_string_of_map (f : ascii -> ascii) (l : list ascii) :
  String.length (string_of_list_ascii (map f l))
  = String.length (string_of_list_ascii l).
Proof.
  induction l as [|a l IH]; [reflexivity|].
  cbn [map string_of_list_ascii String.length]. rewrite IH. reflexivity.
Qed.

(** X13. [_sanitize_file_name] replaces each of the invalid characters by
    an underscore and keeps every other character, position by position;
    so the result has the length of the file name, contains no invalid
    character, and sanitizing it again changes nothing. *)
Theorem sanitize_file_name_spec (filename : string) :
  list_ascii_of_string (_sanitize_file_name filename)
  = map (fun a => if existsb (Ascii.eqb a) invalid_chars then "_"%char else a)
        (list_ascii_of_string filename)
  /\ String.length (_sanitize_file_name filename) = String.length filename
  /\ Forall (fun a => existsb (Ascii.eqb a) invalid_chars = false)
            (list_ascii_of_string (_sanitize_file_name filename))
  /\ _sanitize_file_name (_sanitize_file_name filename)
     = _sanitize_file_name filename.
Proof.
  assert (Hspec : forall f,
    list_ascii_of_string (_sanitize_file_name f)
    = map (fun a => if existsb (Ascii.eqb a) invalid_chars then "_"%char else a)
          (list_ascii_of_string f)).
  { intros f. unfold _sanitize_file_name. apply replace_chars_fold. }
  assert (Hclean : forall f,
    Forall (fun a => existsb (Ascii.eqb a) invalid_chars = false)
           (list_ascii_of_string (_sanitize_file_name f))).
  { intros f. rewrite Hspec. apply Forall_forall. intros a Ha.
    apply in_map_iff in Ha. destruct Ha as [b [Hb _]]. subst a.
    destruct (existsb (Ascii.eqb b) invalid_chars) eqn:E; [reflexivity | exact E]. }
  split; [apply Hspec|]. split; [|split; [apply Hclean|]].
  - rewrite <- (string_of_list_ascii_of_string (_sanitize_file_name filename)).
    rewrite <- (string_of_list_ascii_of_string filename) at 2.
    rewrite Hspec. apply length_string_of_map.
  - rewrite <- (string_of_list_ascii_of_string
                  (_sanitize_file_name (_sanitize_file_name filename))).
    rewrite <- (string_of_list_ascii_of_string (_sanitize_file_name filename)) at 2.
    f_equal. rewrite (Hspec (_sanitize_file_name filename)).
    rewrite <- (map_id (list_ascii_of_string (_sanitize_file_name filename))) at 2.
    apply map_ext_in. intros a Ha.
    pose proof (Hclean filename) as Hc. rewrite Forall_forall in Hc.
    rewrite (Hc a Ha). reflexivity.
Qed.

(** *** The pulses prepared by [_generate_awg_dict] *)

Lemma gain_in_range (amp volt : Q) :
  (0 < volt)%Q -> (Qabs amp <= volt)%Q -> (Qabs (amp / volt) <= 1)%Q.
Proof.
  intros Hv Ha. apply Qabs_Qle_condition in Ha. destruct Ha as [Hlo Hhi].
  apply Qabs_Qle_condition. split.
  - apply Qle_shift_div_l; [exact Hv | lra].
  - apply Qle_shift_div_r; [exact Hv | lra].
Qed.

Lemma awg_output_volt_pos (c : seq_class) : (0 < AWG_OUTPUT_VOLT c)%Q.
Proof. destruct c; reflexivity. Qed.

Lemma update_runtime_settings_ok (p : OpInfo) (s : QASMRuntimeSettings)
  (q : QASMProgram) :
  pulse_settings p = Some s ->
  (Qabs (awg_gain_0 s) <= 1)%Q -> (Qabs (awg_gain_1 s) <= 1)%Q ->
  exists q', update_runtime_settings p q = Ok q'.
Proof.
  intros Hs H0 H1. unfold update_runtime_settings. rewrite Hs.
  rewrite (expand_from_normalised_range_ok _ H0). cbn [bind].
  rewrite (expand_from_normalised_range_ok _ H1). cbn [bind].
  rewrite emit_ok by (simpl; lia). eexists. reflexivity.
Qed.

Lemma NoDup_snoc {A} (l : list A) (a : A) :
  NoDup l -> ~ In a l -> NoDup (l ++ [a]).
Proof.
  intros Hnd Hn. induction Hnd as [|x l Hx Hnd IH]; simpl.
  - constructor; [intros [] | constructor].
  - constructor.
    + intros Hin. apply in_app_or in Hin. destruct Hin as [Hin|[E|[]]].
      * exact (Hx Hin).
      * apply Hn. left. symmetry. exact E.
    + apply IH. intros Hin. apply Hn. right. exact Hin.
Qed.

Lemma dmem_Z_In {V} (k : Z) (d : list (Z * V)) :
  dmem Z.eqb k d = true <-> In k (map fst d).
Proof.
  unfold dmem. induction d as [|[k0 v0] d IH]; simpl.
  - split; [discriminate | intros []].
  - destruct (Z.eqb_spec k k0) as [->|Hne].
    + split; auto.
    + rewrite IH. split; [auto | intros [E|H]; [congruence | exact H]].
Qed.

(** The state of the loop of [_generate_awg_dict]: the pulses done, with
    their gains, and the waveforms collected so far. *)
Lemma generate_awg_dict_loop
  (nw : Sequencer -> OpInfo -> result (waveform * Q * Q)) (seq : Sequencer)
  (todo : list OpInfo) :
  forall done wfc done' wfc',
    for_each
      (fun pulse st =>
         let '(done, waveforms_complex) := st in
         r <- nw seq pulse ;;
         let '(raw_wf_data, amp_i, amp_q) := r in
         if Qlt_le_dec (AWG_OUTPUT_VOLT (seq_type seq)) (Qabs amp_i)
         then Raise (ValueError
                       "Attempting to set amplitude to invalid value (I)")
         else if Qlt_le_dec (AWG_OUTPUT_VOLT (seq_type seq)) (Qabs amp_q)
         then Raise (ValueError
                       "Attempting to set amplitude to invalid value (Q)")
         else
           let pulse' :=
             set_pulse_settings pulse
               {| awg_gain_0 := amp_i / AWG_OUTPUT_VOLT (seq_type seq);
                  awg_gain_1 := amp_q / AWG_OUTPUT_VOLT (seq_type seq);
                  awg_offset_0 := 0; awg_offset_1 := 0 |} in
           let waveforms_complex' :=
             if dmem Z.eqb (uuid pulse) waveforms_complex
             then waveforms_complex
             else waveforms_complex ++ [(uuid pulse, raw_wf_data)] in
           Ok (done ++ [pulse'], waveforms_complex'))
      todo (done, wfc) = Ok (done', wfc') ->
    NoDup (map fst wfc) ->
    (forall p, In p done ->
       In (uuid p) (map fst wfc) /\
       exists s, pulse_settings p = Some s /\
                 (Qabs (awg_gain_0 s) <= 1)%Q /\ (Qabs (awg_gain_1 s) <= 1)%Q) ->
    NoDup (map fst wfc') /\
    map (fun p => (uuid p, data p, timing p)) done'
    = map (fun p => (uuid p, data p, timing p)) (done ++ todo) /\
    (forall p, In p done' ->
       In (uuid p) (map fst wfc') /\
       exists s, pulse_settings p = Some s /\
                 (Qabs (awg_gain_0 s) <= 1)%Q /\ (Qabs (awg_gain_1 s) <= 1)%Q).
Proof.
  induction todo as [|pulse todo IH]; intros done wfc done' wfc' H Hnd Hdone.
  - inversion H; subst. rewrite app_nil_r. auto.
  - cbn [for_each] in H. apply bind_Ok in H. destruct H as [[d1 w1] [Hstep H]].
    apply bind_Ok in Hstep. destruct Hstep as [[[raw amp_i] amp_q] [Hn Hstep]].
    destruct (Qlt_le_dec (AWG_OUTPUT_VOLT (seq_type seq)) (Qabs amp_i)) as [|Hi];
      [discriminate|].
    destruct (Qlt_le_dec (AWG_OUTPUT_VOLT (seq_type seq)) (Qabs amp_q)) as [|Hq];
      [discriminate|].
    inversion Hstep; subst d1 w1; clear Hstep.
    destruct (IH _ _ _ _ H) as [Hnd' [Hmap Hall]].
    + destruct (dmem Z.eqb (uuid pulse) wfc) eqn:Hm; [exact Hnd|].
      rewrite map_app. cbn [map fst]. apply NoDup_snoc; [exact Hnd|].
      intros Hin. apply dmem_Z_In in Hin. rewrite Hin in Hm. discriminate.
    + intros p Hp. apply in_app_or in Hp. destruct Hp as [Hp|[<-|[]]].
      * destruct (Hdone p Hp) as [Hu Hs]. split; [|exact Hs].
        destruct (dmem Z.eqb (uuid pulse) wfc); [exact Hu|].
        rewrite map_app. apply in_or_app. left. exact Hu.
      * split.
        -- cbn [set_pulse_settings uuid].
           destruct (dmem Z.eqb (uuid pulse) wfc) eqn:Hm.
           ++ apply dmem_Z_In. exact Hm.
           ++ rewrite map_app. apply in_or_app. right. left. reflexivity.
        -- eexists. split; [reflexivity|]. cbn [awg_gain_0 awg_gain_1].
           split; apply gain_in_range; try apply awg_output_volt_pos; assumption.
    + split; [exact Hnd'|]. split; [|exact Hall].
      rewrite Hmap, <- app_assoc, !map_app. reflexivity.
Qed.

(** X14. After [_generate_awg_dict] the pulses of the sequencer are the
    same pulses (identifier, data and start time), and each of them can
    be played: its waveform indices are found in the dictionary, the Q
    index following the I index, and its gains are accepted by
    [update_runtime_settings]. *)
Theorem awg_dict_prepares_pulses
  (nw : Sequencer -> OpInfo -> result (waveform * Q * Q)) (seq seq' : Sequencer)
  (wf : wf_dict) :
  _generate_awg_dict nw seq = Ok (seq', wf) ->
  map (fun p => (uuid p, data p, timing p)) (pulses seq')
  = map (fun p => (uuid p, data p, timing p)) (pulses seq)
  /\
  forall p, In p (pulses seq') ->
    (exists k, get_indices_from_wf_dict (uuid p) (Some wf)
               = Ok (2 * k, 2 * k + 1)) /\
    (forall q, exists q', update_runtime_settings p q = Ok q').
Proof.
  intros H. unfold _generate_awg_dict in H.
  apply bind_Ok in H. destruct H as [[done wfc] [Hloop H]].
  inversion H; subst seq' wf; clear H. cbn [pulses set_pulses fst snd].
  destruct (generate_awg_dict_loop nw seq (pulses seq) [] [] done wfc Hloop)
    as [Hnd [Hmap Hall]]; [constructor | intros p [] |].
  split; [exact Hmap|].
  intros p Hp. destruct (Hall p Hp) as [Hu [s [Hs [H0 H1]]]]. split.
  - apply in_map_iff in Hu. destruct Hu as [[u w] [Hu Hin]]. simpl in Hu. subst u.
    apply In_nth_error in Hin. destruct Hin as [k Hk].
    exists (Z.of_nat k). exact (legacy_indices_of_nth wfc k (uuid p) w Hnd Hk).
  - intros q. exact (update_runtime_settings_ok p s q Hs H0 H1).
Qed.

Lemma awg_dict_prepares_pulses_witness :
  exists seq' wf p q',
    _generate_awg_dict (fun _ _ => Ok ([(1, 0)], 3 # 4, 0)%Q)
      (qcm_seq_with [bare_pulse]) = Ok (seq', wf) /\
    pulses seq' = [p] /\
    get_indices_from_wf_dict (uuid p) (Some wf) = Ok (0, 1) /\
    update_runtime_settings p QASMProgram_new = Ok q'.
Proof.
  destruct (_generate_awg_dict (fun _ _ => Ok ([(1, 0)], 3 # 4, 0)%Q)
              (qcm_seq_with [bare_pulse])) as [[seq' wf]|e] eqn:E;
    [|vm_compute in E; discriminate].
  destruct (awg_dict_prepares_pulses _ _ seq' wf E) as [Hm Hall].
  destruct (pulses seq') as [|p [|p' l]] eqn:Hp; try discriminate.
  destruct (Hall p (or_introl eq_refl)) as [[k Hk] Hq].
  destruct (Hq QASMProgram_new) as [q' Hq'].
  exists seq', wf, p, q'. split; [reflexivity|]. split; [exact Hp|].
  split; [|exact Hq'].
  assert (Hu : uuid p = 7) by (inversion Hm; reflexivity).
  rewrite Hu. vm_compute in E. inversion E; subst wf.
  vm_compute. reflexivity.
Defined.

(** *** The number of sequencers *)

Lemma dmem_string_In {V} (k : string) (d : list (string * V)) :
  dmem String.eqb k d = true <-> In k (dkeys d).
Proof.
  unfold dmem, dkeys. induction d as [|[k0 v0] d IH]; simpl.
  - split; [discriminate | intros []].
  - destruct (String.eqb_spec k k0) as [->|Hne].
    + split; auto.
    + rewrite IH. split; [auto | intros [E|H]; [congruence | exact H]].
Qed.

Lemma dkeys_dset_string {V} (k : string) (v : V) (d : list (string * V)) :
  dkeys (dset String.eqb k v d)
  = if dmem String.eqb k d then dkeys d else dkeys d ++ [k].
Proof.
  unfold dmem, dkeys. induction d as [|[k0 v0] d IH]; simpl; [reflexivity|].
  destruct (String.eqb k k0); simpl; [reflexivity|].
  rewrite IH. destruct (dget String.eqb k d); reflexivity.
Qed.

Lemma two_in_length {A} (a b : A) (l : list A) :
  In a l -> In b l -> a <> b -> (2 <= List.length l)%nat.
Proof.
  intros Ha Hb Hne. destruct l as [|x [|y l]]; simpl in *.
  - destruct Ha.
  - destruct Ha as [<-|[]]. destruct Hb as [<-|[]]. congruence.
  - lia.
Qed.

(** X15. The check on the number of sequencers: a Pulsar QCM never has
    too many (the outputs give at most the two names seq0 and seq1), so
    its construction succeeds whenever every output is accepted; a
    Pulsar QRM whose mapping configures both complex outputs is never
    constructed. *)
Theorem sequencer_count_check (fd : value -> result MixerCorrections)
  (parent : string) (hw : pydict) :
  (forall acc,
     for_each (construct_sequencer fd Pulsar_QCM parent) hw [] = Ok acc ->
     _construct_sequencers fd Pulsar_QCM parent hw = Ok acc)
  /\
  (forall cfg0 cfg1,
     NoDup (dkeys hw) ->
     In ("complex_output_0", VDict cfg0) hw ->
     In ("complex_output_1", VDict cfg1) hw ->
     exists e, _construct_sequencers fd Pulsar_QRM parent hw = Raise e).
Proof.
  split.
  - intros acc H. unfold _construct_sequencers. rewrite H. cbn [bind].
    assert (Hinv : NoDup (dkeys acc) /\
                   incl (dkeys acc) [seq_name_of 0; seq_name_of 1]).
    { refine (for_each_inv
                (fun s : list (string * Sequencer) =>
                   NoDup (dkeys s) /\ incl (dkeys s) [seq_name_of 0; seq_name_of 1])
                _ _ _ _ _ _ H).
      - intros [io d] s s' _ [Hnd Hincl] Hstep.
        destruct d as [| | | | |cfg]; try (inversion Hstep; subst; auto; fail).
        apply construct_sequencer_inv in Hstep.
        destruct Hstep as [_ [_ [_ [k [seq [_ [_ [_ [Hk [_ ->]]]]]]]]]].
        rewrite dkeys_dset_string.
        destruct (dmem String.eqb (seq_name_of k) s) eqn:Hm; [auto|]. split.
        + apply NoDup_snoc; [exact Hnd|]. intros Hin.
          apply dmem_string_In in Hin. rewrite Hin in Hm. discriminate.
        + intros x Hx. apply in_app_or in Hx. destruct Hx as [Hx|[<-|[]]];
            [exact (Hincl x Hx)|].
          destruct (output_to_seq_cases io k Hk) as [[_ ->]|[_ ->]];
            [left | right; left]; reflexivity.
      - split; [constructor | intros x []]. }
    destruct Hinv as [Hnd Hincl].
    pose proof (NoDup_incl_length Hnd Hincl) as Hlen. cbn [List.length] in Hlen.
    cbn [MAX_SEQUENCERS].
    destruct (Nat.ltb_spec 2 (List.length (dkeys acc))); [lia | reflexivity].
  - intros cfg0 cfg1 Hnd H0 H1. unfold _construct_sequencers.
    destruct (for_each (construct_sequencer fd Pulsar_QRM parent) hw [])
      as [acc|e] eqn:Hloop; [|exists e; reflexivity].
    cbn [bind MAX_SEQUENCERS].
    destruct (construct_sequencers_has fd Pulsar_QRM parent hw _ cfg0 0 acc
                Hnd H0 eq_refl Hloop) as [_ [_ [_ [s0 [_ [_ [_ [Hs0 _]]]]]]]].
    destruct (construct_sequencers_has fd Pulsar_QRM parent hw _ cfg1 1 acc
                Hnd H1 eq_refl Hloop) as [_ [_ [_ [s1 [_ [_ [_ [Hs1 _]]]]]]]].
    assert (Hlen : (2 <= List.length (dkeys acc))%nat).
    { apply (two_in_length (seq_name_of 0) (seq_name_of 1)).
      - apply dmem_string_In. unfold dmem. rewrite Hs0. reflexivity.
      - apply dmem_string_In. unfold dmem. rewrite Hs1. reflexivity.
      - vm_compute. discriminate. }
    destruct (Nat.ltb_spec 1 (List.length (dkeys acc))); [|lia].
    eexists. reflexivity.
Qed.

(** *** Times on the grid *)




(** *** Unique waveforms *)

(** X17. [add_to_wf_dict_if_unique] on a dictionary whose indices are 0,
    1, 2, ... in order: the result has such indices again, no entry of
    the dictionary is changed, the index returned is the one stored under
    the uuid returned and is below the size of the result, and adding the
    same waveform again returns the same uuid and index and leaves the
    dictionary as it is. *)
Theorem add_to_wf_dict_if_unique_spec
  (generate_uuid_from_wf_data : list Q -> string)
  (d d' : wf_dict) (waveform : helpers.ndarray)
  (uuid : string) (index : Z) :
  dense_indices d ->
  helpers.add_to_wf_dict_if_unique generate_uuid_from_wf_data d waveform
  = Ok (d', uuid, index) ->
  dense_indices d' /\
  (forall name entry, dget String.eqb name d = Some entry ->
                      dget String.eqb name d' = Some entry) /\
  (exists entry, dget String.eqb uuid d' = Some entry /\
                 wf_index entry = index) /\
  0 <= index < Z.of_nat (List.length d') /\
  helpers.add_to_wf_dict_if_unique generate_uuid_from_wf_data d' waveform
  = Ok (d', uuid, index).
Proof.
  intros Hd H. unfold helpers.add_to_wf_dict_if_unique in *.
  destruct waveform as [samples|samples]; [|discriminate].
  destruct (dget String.eqb (generate_uuid_from_wf_data samples) d)
    as [entry|] eqn:Hg.
  - inversion H; subst d' uuid index; clear H.
    split; [exact Hd|]. split; [auto|]. split; [exists entry; auto|].
    split; [|rewrite Hg; reflexivity].
    apply dget_Some_In in Hg. destruct Hg as [k [Hin _]].
    assert (Hi : In (wf_index entry) (map (fun kv => wf_index (snd kv)) d)).
    { apply in_map_iff. exists (k, entry). auto. }
    unfold dense_indices in Hd. rewrite Hd in Hi.
    apply in_map_iff in Hi. destruct Hi as [n [<- Hn]].
    apply in_seq in Hn. lia.
  - inversion H; subst d' uuid index; clear H.
    rewrite (dset_absent String.eqb _ _ _ Hg).
    split; [|split; [|split; [|split]]].
    + unfold dense_indices in *. rewrite map_app, length_app, Hd.
      cbn [List.length map snd wf_index]. rewrite Nat.add_1_r, seq_S, map_app.
      reflexivity.
    + intros name entry He. apply dget_app_l. exact He.
    + eexists. split.
      * rewrite (dget_app_r String.eqb _ _ _ Hg). cbn [dget].
        rewrite String.eqb_refl. reflexivity.
      * reflexivity.
    + rewrite length_app. cbn [List.length]. lia.
    + rewrite (dget_app_r String.eqb _ _ _ Hg). cbn [dget].
      rewrite String.eqb_refl. reflexivity.
Qed.

Lemma add_to_wf_dict_if_unique_spec_witness :
  exists d' uuid index,
    helpers.add_to_wf_dict_if_unique example_uuid one_waveform
      (helpers.RealArray [1 # 2; 1 # 2; 1 # 2]%Q) = Ok (d', uuid, index) /\
    index = 1 /\
    dget String.eqb "2" d' = Some {| wf_data := [1; 0]%Q; wf_index := 0 |} /\
    helpers.add_to_wf_dict_if_unique example_uuid d'
      (helpers.RealArray [1 # 2; 1 # 2; 1 # 2]%Q) = Ok (d', uuid, index).
Proof.
  destruct (helpers.add_to_wf_dict_if_unique example_uuid one_waveform
              (helpers.RealArray [1 # 2; 1 # 2; 1 # 2]%Q))
    as [[[d' uuid] index]|e] eqn:E; [|vm_compute in E; discriminate].
  destruct (add_to_wf_dict_if_unique_spec example_uuid one_waveform d'
              (helpers.RealArray [1 # 2; 1 # 2; 1 # 2]%Q) uuid index)
    as [_ [Hkeep [_ [_ Hagain]]]].
  - reflexivity.
  - exact E.
  - exists d', uuid, index. split; [reflexivity|]. split.
    + vm_compute in E. inversion E. reflexivity.
    + split; [apply Hkeep; reflexivity | exact Hagain].
Defined.

(** *** Output names and sequencer modes *)

Lemma dget_string_In {V} (k : string) (d : list (string * V)) (v : V) :
  dget String.eqb k d = Some v -> In (k, v) d.
Proof.
  induction d as [|[k0 v0] d IH]; simpl; [discriminate|].
  destruct (String.eqb_spec k k0) as [->|Hne].
  - intros H. inversion H. left. reflexivity.
  - intros H. right. exact (IH H).
Qed.

(** X18. The tuples that [output_name_to_outputs] and
    [input_name_to_inputs] give for the names of their tables are always
    accepted by [io_mode_from_ios] (no exception and no failed
    assertion): the mode is "complex" for a pair, and "real" or "imag"
    for a single even or odd index.  A name without "output" (or
    "input") gives None, any other name outside the table a [KeyError]. *)
Theorem io_names_give_valid_modes (name : string) :
  match helpers.output_name_to_outputs name with
  | Ok (Some io) =>
      helpers.io_mode_from_ios io
      = helpers.Returns
          (match io with
           | [_; _] => "complex"
           | _ => if nth 0 io 0 mod 2 =? 0 then "real" else "imag"
           end)
      /\ (1 <= List.length io <= 2)%nat /\ Forall (fun i => 0 <= i <= 3) io
  | Ok None => helpers.contains "output" name = false
  | Raise e => e = KeyError name /\ helpers.contains "output" name = true
  end
  /\
  match helpers.input_name_to_inputs name with
  | Ok (Some io) =>
      helpers.io_mode_from_ios io
      = helpers.Returns
          (match io with
           | [_; _] => "complex"
           | _ => if nth 0 io 0 mod 2 =? 0 then "real" else "imag"
           end)
      /\ (1 <= List.length io <= 2)%nat /\ Forall (fun i => 0 <= i <= 1) io
  | Ok None => helpers.contains "input" name = false
  | Raise e => e = KeyError name /\ helpers.contains "input" name = true
  end.
Proof.
  split.
  - unfold helpers.output_name_to_outputs.
    destruct (helpers.contains "output" name) eqn:Hc; cbn [negb]; [|reflexivity].
    match goal with
    | |- context [dget String.eqb name ?t] =>
        destruct (dget String.eqb name t) as [io|] eqn:Hg
    end; [|auto].
    apply dget_string_In in Hg. cbn [In] in Hg.
    repeat (destruct Hg as [Hg|Hg];
            [inversion Hg; subst; split; [reflexivity|];
             split; [cbn [List.length]; lia|];
             repeat constructor; lia|]).
    destruct Hg.
  - unfold helpers.input_name_to_inputs.
    destruct (helpers.contains "input" name) eqn:Hc; cbn [negb]; [|reflexivity].
    match goal with
    | |- context [dget String.eqb name ?t] =>
        destruct (dget String.eqb name t) as [io|] eqn:Hg
    end; [|auto].
    apply dget_string_In in Hg. cbn [In] in Hg.
    repeat (destruct Hg as [Hg|Hg];
            [inversion Hg; subst; split; [reflexivity|];
             split; [cbn [List.length]; lia|];
             repeat constructor; lia|]).
    destruct Hg.
Qed.

(** *** Oscillators that are not used *)

Lemma mark_used_inv (dev : string) (pc : portclock) (x : value)
  (devs : list (string * InstrumentCompiler)) (used used' : list value) :
  mark_used dev pc x devs used = Ok used' ->
  used' = used \/
  exists c, dget String.eqb dev devs = Some c /\
            in_portclocks_with_data pc (compiler_base c) = true.
Proof.
  unfold mark_used. destruct (dget String.eqb dev devs) as [c|]; [|discriminate].
  destruct (in_portclocks_with_data pc (compiler_base c)) eqn:E; intros H.
  - right. exists c. auto.
  - left. inversion H. reflexivity.
Qed.

Lemma call_assign_same_data (d' : string) (pc : portclock) (freq : value)
  (devs0 devs devs' : list (string * InstrumentCompiler)) :
  update_device d' (call_assign_modulation_frequency pc freq) devs = Ok devs' ->
  same_data devs0 devs -> same_data devs0 devs'.
Proof.
  intros H Hs dev c' Hc'. apply update_device_inv in H.
  destruct H as [c [c1 [Hc [Hf ->]]]].
  destruct (String.eqb dev d') eqn:E.
  - apply String.eqb_eq in E. subst d'. rewrite sdget_dset_same in Hc'.
    inversion Hc'; subst c1. destruct (Hs dev c Hc) as [c0 [H0 Hb]].
    exists c0. split; [exact H0|]. rewrite <- Hb.
    apply call_assign_inv in Hf.
    destruct Hf as [p [n [s [s' [-> [_ [_ [_ ->]]]]]]]]. reflexivity.
  - rewrite (sdget_dset_other _ _ _ _ E) in Hc'. exact (Hs dev c' Hc').
Qed.

(** The invariant of the loops: the compilers keep their data, and an
    oscillator is marked as used only when some compiler holds data. *)
Lemma assign_from_interm_freq_used (devs0 : list (string * InstrumentCompiler))
  (lo_key : value) (pcm : list (portclock * string))
  (res : list (string * pydict)) (pcd : pydict) (st st' : freq_state) :
  assign_from_interm_freq lo_key pcm res pcd st = Ok st' ->
  same_data devs0 (fst (fst st)) /\ (snd st <> [] -> some_data devs0) ->
  same_data devs0 (fst (fst st')) /\ (snd st' <> [] -> some_data devs0).
Proof.
  destruct st as [[devs los] used]. unfold assign_from_interm_freq.
  intros H [Hs Hu]. cbn [fst snd] in Hs, Hu.
  apply bind_Ok in H. destruct H as [port [_ H]].
  apply bind_Ok in H. destruct H as [clock [_ H]].
  apply bind_Ok in H. destruct H as [i [_ H]].
  apply bind_Ok in H. destruct H as [r [_ H]].
  destruct r as [cr|]; [|inversion H; subst; auto].
  apply bind_Ok in H. destruct H as [cl [_ H]].
  apply bind_Ok in H. destruct H as [dev [_ H]].
  apply bind_Ok in H. destruct H as [lo_obj [_ H]].
  apply bind_Ok in H. destruct H as [u [Hmu H]].
  apply bind_Ok in H. destruct H as [d1 [Hd1 H]].
  apply bind_Ok in H. destruct H as [lf [_ H]].
  apply bind_Ok in H. destruct H as [l1 [_ H]].
  inversion H; subst st'; clear H. cbn [fst snd]. split.
  - exact (call_assign_same_data _ _ _ _ _ _ Hd1 Hs).
  - intros Hne. apply mark_used_inv in Hmu.
    destruct Hmu as [->|[c [Hc Hdata]]]; [exact (Hu Hne)|].
    destruct (Hs dev c Hc) as [c0 [H0 Hb]].
    exists dev, c0, (port, clock). rewrite <- Hb. auto.
Qed.

Lemma assign_from_lo_freq_used (devs0 : list (string * InstrumentCompiler))
  (lo_key lo_freq : value) (pcm : list (portclock * string))
  (res : list (string * pydict)) (pcd : pydict) (st st' : freq_state) :
  assign_from_lo_freq lo_key lo_freq pcm res pcd st = Ok st' ->
  same_data devs0 (fst (fst st)) /\ (snd st <> [] -> some_data devs0) ->
  same_data devs0 (fst (fst st')) /\ (snd st' <> [] -> some_data devs0).
Proof.
  destruct st as [[devs los] used]. unfold assign_from_lo_freq.
  intros H [Hs Hu]. cbn [fst snd] in Hs, Hu.
  apply bind_Ok in H. destruct H as [port [_ H]].
  apply bind_Ok in H. destruct H as [clock [_ H]].
  apply bind_Ok in H. destruct H as [dev [_ H]].
  apply bind_Ok in H. destruct H as [lo_obj [_ H]].
  apply bind_Ok in H. destruct H as [u [Hmu H]].
  assert (Hu' : u <> [] -> some_data devs0).
  { intros Hne. apply mark_used_inv in Hmu.
    destruct Hmu as [->|[c [Hc Hdata]]]; [exact (Hu Hne)|].
    destruct (Hs dev c Hc) as [c0 [H0 Hb]].
    exists dev, c0, (port, clock). rewrite <- Hb. auto. }
  destruct (dget String.eqb dev devs) as [[p|lo]|]; try discriminate.
  apply bind_Ok in H. destruct H as [r [_ H]].
  destruct r as [cr|]; [|inversion H; subst; auto].
  apply bind_Ok in H. destruct H as [cl [_ H]].
  apply bind_Ok in H. destruct H as [i [_ H]].
  apply bind_Ok in H. destruct H as [d1 [Hd1 H]].
  inversion H; subst st'; clear H. cbn [fst snd]. split; [|exact Hu'].
  exact (call_assign_same_data _ _ _ _ _ _ Hd1 Hs).
Qed.

(** X19. [_assign_frequencies] keeps an oscillator only when some device
    compiler holds a pulse or an acquisition: when no compiler holds
    data, every oscillator is removed.  The compilers keep their names,
    play times, pulses and acquisitions. *)
Theorem oscillators_kept_only_with_data
  (device_compilers devs' : list (string * InstrumentCompiler))
  (lo_compilers los' : list (value * LocalOscillator))
  (hw_mapping : pydict) (portclock_mapping : list (portclock * string))
  (schedule_resources : list (string * pydict)) :
  _assign_frequencies device_compilers lo_compilers hw_mapping
    portclock_mapping schedule_resources = Ok (devs', los') ->
  same_data device_compilers devs' /\
  (los' <> [] -> some_data device_compilers).
Proof.
  intros H. unfold _assign_frequencies in H.
  apply bind_Ok in H. destruct H as [[[d1 l1] u1] [Hloop H]].
  inversion H; subst devs' los'; clear H.
  set (J := fun st : freq_state =>
              same_data device_compilers (fst (fst st)) /\
              (snd st <> [] -> some_data device_compilers)).
  assert (HJ : J (d1, l1, u1)).
  { refine (for_each_inv J _ _ _ _ _ _ Hloop).
    - intros d [[dv ls] us] s' _ Hs Hb. unfold assign_for_lo in Hb.
      apply bind_Ok in Hb. destruct Hb as [lo_key [_ Hb]].
      apply bind_Ok in Hb. destruct Hb as [lo_obj [_ Hb]].
      destruct (is_none _).
      + refine (for_each_inv J _ _ _ _ _ Hs Hb).
        intros y s0 s1 _ Hs0 Hy.
        exact (assign_from_interm_freq_used _ _ _ _ _ _ _ Hy Hs0).
      + apply bind_Ok in Hb. destruct Hb as [los1 [_ Hb]].
        refine (for_each_inv J _ _ _ (dv, los1, us) _ Hs Hb).
        intros y s0 s1 _ Hs0 Hy.
        exact (assign_from_lo_freq_used _ _ _ _ _ _ _ _ Hy Hs0).
    - split; [|intros Hne; exfalso; apply Hne; reflexivity].
      intros dev c' Hc'. exists c'. auto. }
  destruct HJ as [Hs Hu]. cbn [fst snd] in Hs, Hu.
  split; [exact Hs|].
  intros Hne. apply Hu. intros ->. apply Hne.
  apply filter_none. intros x _. reflexivity.
Qed.

Lemma oscillators_kept_only_with_data_witness :
  exists devs' los',
    _assign_frequencies if_only_devices if_only_oscillators if_only_mapping
      if_only_index (resources if_only_schedule) = Ok (devs', los') /\
    same_data if_only_devices devs' /\
    (los' <> [] -> some_data if_only_devices).
Proof.
  destruct (_assign_frequencies if_only_devices if_only_oscillators
              if_only_mapping if_only_index (resources if_only_schedule))
    as [[devs' los']|e] eqn:E; [|vm_compute in E; discriminate].
  exists devs', los'. split; [reflexivity|].
  exact (oscillators_kept_only_with_data _ _ _ _ _ _ _ E).
Defined.

(** *** Frequencies are set once *)

(** X20. Once a frequency that is not None has been assigned to a local
    oscillator or to a sequencer, a further assignment is accepted exactly
    when it gives an equal frequency, and raises a [ValueError]
    otherwise; the frequency stored is the last one assigned. *)
Theorem assign_frequency_set_once :
  (forall lo lo1 f g,
     LocalOscillator_assign_frequency f lo = Ok lo1 ->
     is_none f = false ->
     match LocalOscillator_assign_frequency g lo1 with
     | Ok lo2 => py_eqb g f = true /\ _lo_freq lo2 = g
     | Raise e =>
         py_eqb g f = false /\
         e = ValueError "Attempting to set LO to a new frequency"
     end)
  /\
  (forall s s1 f g,
     Sequencer_assign_frequency f s = Ok s1 ->
     is_none f = false ->
     match Sequencer_assign_frequency g s1 with
     | Ok s2 => py_eqb f g = true /\ modulation_freq (_settings s2) = g
     | Raise e =>
         py_eqb f g = false /\
         e = ValueError "Attempting to set the modulation frequency again"
     end).
Proof.
  split.
  - intros lo lo1 f g H Hf. unfold LocalOscillator_assign_frequency in H.
    destruct (negb (is_none (_lo_freq lo)) && negb (py_eqb f (_lo_freq lo)));
      [discriminate|].
    inversion H; subst lo1; clear H.
    unfold LocalOscillator_assign_frequency. cbn [_lo_freq]. rewrite Hf.
    destruct (py_eqb g f); cbn [negb andb]; auto.
  - intros s s1 f g H Hf. apply Sequencer_assign_frequency_inv in H.
    destruct H as [_ Hs1]. unfold Sequencer_assign_frequency. rewrite Hs1, Hf.
    destruct (py_eqb f g); cbn [negb andb]; auto.
Qed.

(** *** An oscillator shared by two outputs *)

(** X21. Two outputs that name the same local oscillator, each with its
    intermodulation frequency and no LO frequency, must ask for the same
    LO frequency: when [_assign_frequencies] succeeds (the oscillator
    being in use for the first output), clock minus IF is the same for
    both; otherwise the set-once rule of the oscillator makes the run
    fail. *)
Theorem shared_oscillator_one_frequency
  (devs devs' : list (string * InstrumentCompiler))
  (los los' : list (value * LocalOscillator))
  (hw : pydict) (pcm : list (portclock * string)) (res : list (string * pydict))
  (d1 pcd1 r1 d2 pcd2 r2 : pydict)
  (lo_name1 p1 c1 i1 f1 lo_name2 p2 c2 i2 f2 : value) (dev : string) :
  _assign_frequencies devs los hw pcm res = Ok (devs', los') ->
  In d1 (find_inner_dicts_containing_key hw "lo_name") ->
  get "lo_name" d1 = Some lo_name1 ->
  is_none (match get "lo_freq" d1 with Some v => v | None => VNone end) = true ->
  In pcd1 (find_inner_dicts_containing_key d1 "port") ->
  get "port" pcd1 = Some p1 -> get "clock" pcd1 = Some c1 ->
  get "interm_freq" pcd1 = Some i1 ->
  resource_lookup c1 res = Ok (Some r1) -> get "freq" r1 = Some f1 ->
  In d2 (find_inner_dicts_containing_key hw "lo_name") ->
  get "lo_name" d2 = Some lo_name2 ->
  is_none (match get "lo_freq" d2 with Some v => v | None => VNone end) = true ->
  In pcd2 (find_inner_dicts_containing_key d2 "port") ->
  get "port" pcd2 = Some p2 -> get "clock" pcd2 = Some c2 ->
  get "interm_freq" pcd2 = Some i2 ->
  resource_lookup c2 res = Ok (Some r2) -> get "freq" r2 = Some f2 ->
  py_eqb lo_name1 lo_name2 = true ->
  pc_getitem (p1, c1) pcm = Ok dev ->
  Spec.dev_active dev (p1, c1) devs ->
  Spec.lo_named lo_name1 los ->
  exists rf1 if1 rf2 if2,
    num_of f1 = Some rf1 /\ num_of i1 = Some if1 /\
    num_of f2 = Some rf2 /\ num_of i2 = Some if2 /\
    (rf1 - if1 == rf2 - if2)%Q.
Proof.
  intros H Hd1 Hn1 Hl1 Hp1 Hport1 Hclock1 Hi1 Hr1 Hf1
         Hd2 Hn2 Hl2 Hp2 Hport2 Hclock2 Hi2 Hr2 Hf2 Heq Hdev Hact Hnamed.
  destruct (assign_frequencies_if_only devs devs' los los' hw pcm res
              d1 pcd1 r1 lo_name1 p1 c1 i1 f1 H Hd1 Hn1 Hl1 Hp1 Hport1 Hclock1
              Hi1 Hr1 Hf1) as [rf1 [if1 [Ha1 [Hb1 Hall1]]]].
  destruct (assign_frequencies_if_only devs devs' los los' hw pcm res
              d2 pcd2 r2 lo_name2 p2 c2 i2 f2 H Hd2 Hn2 Hl2 Hp2 Hport2 Hclock2
              Hi2 Hr2 Hf2) as [rf2 [if2 [Ha2 [Hb2 Hall2]]]].
  destruct (assign_frequencies_lo_kept devs devs' los los' hw pcm res
              d1 pcd1 r1 lo_name1 p1 c1 i1 dev H Hd1 Hn1 Hl1 Hp1 Hport1 Hclock1
              Hr1 Hdev Hact Hnamed) as [lo Hlo].
  exists rf1, if1, rf2, if2. repeat split; try assumption.
  pose proof (Hall1 lo Hlo) as E1.
  rewrite (dget_respects py_eqb py_eqb_sym py_eqb_trans _ _ los' Heq) in Hlo.
  pose proof (Hall2 lo Hlo) as E2.
  rewrite py_eqb_sym in E2.
  pose proof (py_eqb_trans _ _ _ E1 E2) as E. simpl in E.
  apply Qeq_bool_iff in E. exact E.
Qed.

Lemma shared_oscillator_one_frequency_witness :
  exists devs' los',
    _assign_frequencies shared_lo_devices shared_lo_oscillators
      shared_lo_mapping shared_lo_index (resources shared_lo_schedule)
    = Ok (devs', los') /\
    exists rf1 if1 rf2 if2,
      num_of (VNum 5000000000) = Some rf1 /\
      num_of (VNum 50000000) = Some if1 /\
      num_of (VNum 5050000000) = Some rf2 /\
      num_of (VNum 100000000) = Some if2 /\
      (rf1 - if1 == rf2 - if2)%Q.
Proof.
  destruct (_assign_frequencies shared_lo_devices shared_lo_oscillators
              shared_lo_mapping shared_lo_index (resources shared_lo_schedule))
    as [[devs' los']|e] eqn:E; [|vm_compute in E; discriminate].
  exists devs', los'. split; [reflexivity|].
  apply (shared_oscillator_one_frequency
           shared_lo_devices devs' shared_lo_oscillators los'
           shared_lo_mapping shared_lo_index (resources shared_lo_schedule)
           (shared_lo_output "seq0" "q0:mw" "q0.01" 50000000)
           [("port", VStr "q0:mw"); ("clock", VStr "q0.01");
            ("interm_freq", VNum 50000000)]
           [("name", VStr "q0.01"); ("freq", VNum 5000000000)]
           (shared_lo_output "seq1" "q1:mw" "q1.01" 100000000)
           [("port", VStr "q1:mw"); ("clock", VStr "q1.01");
            ("interm_freq", VNum 100000000)]
           [("name", VStr "q1.01"); ("freq", VNum 5050000000)]
           (VStr "lo0") (VStr "q0:mw") (VStr "q0.01") (VNum 50000000)
           (VNum 5000000000)
           (VStr "lo0") (VStr "q1:mw") (VStr "q1.01") (VNum 100000000)
           (VNum 5050000000) "qcm0" E);
    try reflexivity;
    try (left; reflexivity);
    try (right; left; reflexivity);
    try (eexists; split; vm_compute; reflexivity).
Defined.

(** *** The distributor of [helpers.py]: pulses with a port *)

Section HelpersDistributor.
Variable find_all : pydict -> result (list portclock).
Variable without : pydict -> list string -> result pydict.

Lemma helpers_assign_pulse_checks (op_data : helpers.Operation) (start : Q)
  (pcm : list (portclock * string)) (pulse_data : pydict)
  (devs devs' : list (string * helpers.InstrumentCompiler)) :
  helpers.assign_pulse op_data start pcm pulse_data devs = Ok devs' ->
  exists t n,
    helpers.add_t0 start pulse_data = Ok t /\
    helpers.to_grid_time t helpers.GRID_TIME = Ok n /\
    (get "reference_magnitude" pulse_data = None \/
     get "reference_magnitude" pulse_data = Some VNone) /\
    forall port clock,
      get "port" pulse_data = Some port -> is_none port = false ->
      get "clock" pulse_data = Some clock ->
      exists dev,
        pc_getitem (port, clock) pcm = Ok dev /\
        Spec.holds_pulse dev (port, clock)
          {| helpers.name := helpers.op_name op_data;
             helpers.data := pulse_data; helpers.timing := t |} devs'.
Proof.
  unfold helpers.assign_pulse. intros H.
  apply bind_Ok in H. destruct H as [t [Ht H]].
  destruct (helpers.to_grid_time t helpers.GRID_TIME) as [n|e] eqn:Hg;
    [|destruct e; discriminate].
  exists t, n. split; [exact Ht|]. split; [exact Hg|].
  destruct (get "reference_magnitude" pulse_data) as [rm|] eqn:Hrm.
  - destruct rm; try discriminate. split; [right; reflexivity|].
    cbn [is_none negb] in H.
    intros port clock Hp Hn Hc. unfold getitem in H. rewrite Hp, Hc in H.
    cbn [bind] in H. rewrite Hn in H.
    apply bind_Ok in H. destruct H as [found [Hf H]].
    destruct found as [dev|]; [|discriminate].
    exists dev. split.
    + unfold pc_getitem. rewrite Hf. reflexivity.
    + exact (update_device_add_pulse_adds _ _ _ _ _ _ H).
  - split; [left; reflexivity|]. cbn [is_none negb] in H.
    intros port clock Hp Hn Hc. unfold getitem in H. rewrite Hp, Hc in H.
    cbn [bind] in H. rewrite Hn in H.
    apply bind_Ok in H. destruct H as [found [Hf H]].
    destruct found as [dev|]; [|discriminate].
    exists dev. split.
    + unfold pc_getitem. rewrite Hf. reflexivity.
    + exact (update_device_add_pulse_adds _ _ _ _ _ _ H).
Qed.

(** X22. When the distributor of [helpers.py] succeeds, every pulse of
    every operation that is not a window operation starts on the grid of
    4 ns and has no reference magnitude; a pulse with a port is held,
    under its (port, clock), by the device that the port-clock index
    gives for it, as a record with the operation's name, the pulse's data
    and its start time. *)
Theorem helpers_pulses_reach_their_device (schedule : helpers.Schedule)
  (device_compilers devs' : list (string * helpers.InstrumentCompiler))
  (hardware_cfg : pydict) (key : string) (schedulable : helpers.Schedulable)
  (op_data : helpers.Operation) (pulse_data : pydict) :
  helpers.assign_pulse_and_acq_info_to_devices find_all without schedule
    device_compilers hardware_cfg = Ok devs' ->
  In (key, schedulable) (helpers.schedulables schedule) ->
  dget String.eqb (helpers.operation_repr schedulable)
       (helpers.operations schedule) = Some op_data ->
  helpers.is_WindowOperation op_data = false ->
  In pulse_data (helpers.pulse_info op_data) ->
  exists portclock_mapping t n,
    helpers.generate_port_clock_to_device_map find_all hardware_cfg
    = Ok portclock_mapping /\
    helpers.add_t0 (helpers.abs_time schedulable) pulse_data = Ok t /\
    helpers.to_grid_time t helpers.GRID_TIME = Ok n /\
    (get "reference_magnitude" pulse_data = None \/
     get "reference_magnitude" pulse_data = Some VNone) /\
    forall port clock,
      get "port" pulse_data = Some port -> is_none port = false ->
      get "clock" pulse_data = Some clock ->
      exists dev,
        pc_getitem (port, clock) portclock_mapping = Ok dev /\
        Spec.holds_pulse dev (port, clock)
          {| helpers.name := helpers.op_name op_data;
             helpers.data := pulse_data;
             helpers.timing := t |} devs'.
Proof.
  intros H Hsch Hop Hwin Hin.
  unfold helpers.assign_pulse_and_acq_info_to_devices in H.
  apply bind_Ok in H. destruct H as [pcm [Hpcm H]].
  exists pcm.
  set (P := fun s : list (string * helpers.InstrumentCompiler) =>
              exists t n,
                helpers.add_t0 (helpers.abs_time schedulable) pulse_data = Ok t /\
                helpers.to_grid_time t helpers.GRID_TIME = Ok n /\
                (get "reference_magnitude" pulse_data = None \/
                 get "reference_magnitude" pulse_data = Some VNone) /\
                forall port clock,
                  get "port" pulse_data = Some port -> is_none port = false ->
                  get "clock" pulse_data = Some clock ->
                  exists dev,
                    pc_getitem (port, clock) pcm = Ok dev /\
                    Spec.holds_pulse dev (port, clock)
                      {| helpers.name := helpers.op_name op_data;
                         helpers.data := pulse_data;
                         helpers.timing := t |} s).
  assert (Hgrow : forall s s',
            (forall dev k x, Spec.holds_pulse dev k x s ->
                             Spec.holds_pulse dev k x s') ->
            P s -> P s').
  { intros s s' Hk [t [n [H1 [H2 [H3 H4]]]]]. exists t, n.
    split; [exact H1|]. split; [exact H2|]. split; [exact H3|].
    intros port clock Hp Hn Hc. destruct (H4 port clock Hp Hn Hc) as [dev [Hd Hh]].
    exists dev. split; [exact Hd | exact (Hk _ _ _ Hh)]. }
  assert (HP : P devs').
  { assert (Hsch' : In schedulable (dvalues (helpers.schedulables schedule))).
    { unfold dvalues. apply in_map_iff. exists (key, schedulable). auto. }
    refine (for_each_establish (fun _ => True) P _ _ schedulable Hsch' _ _ _ _ _ I H);
      [auto| |].
    - intros s s' _ Hb. cbv beta in Hb. rewrite Hop, Hwin in Hb.
      destruct (negb (helpers.valid_pulse op_data)
                && negb (helpers.valid_acquisition op_data)); [discriminate|].
      apply bind_Ok in Hb. destruct Hb as [ds [Hpl Hal]].
      assert (Hds : P ds).
      { refine (for_each_establish (fun _ => True) P _ _ pulse_data Hin _ _ _ _ _ I Hpl);
          [auto| |].
        - intros s0 s1 _ Hz. exact (helpers_assign_pulse_checks _ _ _ _ _ _ Hz).
        - intros z s0 s1 Hs0 Hz. apply (Hgrow s0 s1); [|exact Hs0].
          intros dev k x Hh.
          exact (helpers_assign_pulse_keeps _ _ _ _ _ _ _ _ _ Hz Hh). }
      refine (for_each_inv P _ _ _ _ _ Hds Hal).
      intros z s0 s1 _ Hs0 Hz. apply (Hgrow s0 s1); [|exact Hs0].
      intros dev k x Hh.
      exact (helpers_assign_acquisition_keeps _ _ _ _ _ _ _ _ _ _ Hz Hh).
    - intros y s s' Hs Hb. apply (Hgrow s s'); [|exact Hs].
      intros dev k x Hh.
      exact (helpers_schedulable_keeps without schedule pcm y dev k x s s' Hb Hh). }
  destruct HP as [t [n HP]]. exists t, n. split; [exact Hpcm | exact HP].
Qed.

End HelpersDistributor.

Lemma helpers_pulses_reach_their_device_witness :
  exists devs',
    helpers.assign_pulse_and_acq_info_to_devices
      find_all_port_clock_combinations example_without square_schedule
      [("qcm0", empty_compiler)] two_ports_one_clock = Ok devs' /\
    Spec.holds_pulse "qcm0" (VStr "q0:mw", VStr "q0.01")
      {| helpers.name := "SquarePulse";
         helpers.data := square_pulse_on "q0:mw" "q0.01";
         helpers.timing := 0 + 0 |} devs'.
Proof.
  destruct (helpers.assign_pulse_and_acq_info_to_devices
              find_all_port_clock_combinations example_without square_schedule
              [("qcm0", empty_compiler)] two_ports_one_clock)
    as [devs'|e] eqn:E; [|vm_compute in E; discriminate].
  exists devs'. split; [reflexivity|].
  destruct (helpers_pulses_reach_their_device
              find_all_port_clock_combinations example_without square_schedule
              [("qcm0", empty_compiler)] devs' two_ports_one_clock
              "s0" square_schedulable square_operation
              (square_pulse_on "q0:mw" "q0.01") E)
    as [pcm [t [n [Hpcm [Ht [_ [_ Hall]]]]]]];
    try reflexivity; try (left; reflexivity).
  destruct (Hall (VStr "q0:mw") (VStr "q0.01")) as [dev [Hd Hh]];
    try reflexivity.
  assert (Hv : helpers.generate_port_clock_to_device_map
                 find_all_port_clock_combinations two_ports_one_clock
               = Ok two_ports_index) by (vm_compute; reflexivity).
  rewrite Hv in Hpcm. inversion Hpcm; subst pcm.
  assert (Hg : pc_getitem (VStr "q0:mw", VStr "q0.01") two_ports_index
               = Ok "qcm0") by (vm_compute; reflexivity).
  rewrite Hg in Hd. inversion Hd; subst dev.
  inversion Ht; subst t. exact Hh.
Defined.

(** *** Downconversion and over-determined frequencies *)


(** *** Immediates of the generated program *)

Lemma spec_wait_expansion_fits (W : Z) :
  0 < W -> forallb row_fits (Spec.spec_wait_expansion W) = true.
Proof.
  intros HW. apply forallb_forall. intros r Hr.
  unfold Spec.spec_wait_expansion in Hr.
  destruct (W <=? 65535) eqn:E.
  - destruct Hr as [<-|[]]. apply Z.leb_le in E.
    unfold row_fits. cbn [instruction args Spec.wait_row].
    change (String.eqb "wait" PulsarInstructions.WAIT) with true. cbv iota.
    apply andb_true_intro. split; apply Z.leb_le; lia.
  - apply in_app_or in Hr. destruct Hr as [Hr|Hr].
    + apply repeat_spec in Hr. subst r. reflexivity.
    + destruct (W mod 65535 =? 0) eqn:E0; [destruct Hr|].
      destruct Hr as [<-|[]]. apply Z.eqb_neq in E0.
      pose proof (Z.mod_pos_bound W 65535 ltac:(lia)) as Hm.
      unfold row_fits. cbn [instruction args Spec.wait_row].
      change (String.eqb "wait" PulsarInstructions.WAIT) with true. cbv iota.
      apply andb_true_intro. split; apply Z.leb_le; lia.
Qed.

Lemma wait_till_start_operation_fits (op : OpInfo) (q q' : QASMProgram) :
  wait_till_start_operation op q = Ok q' ->
  forallb row_fits (instructions q) = true ->
  forallb row_fits (instructions q') = true.
Proof.
  unfold wait_till_start_operation. intros H Hq.
  apply bind_Ok in H. destruct H as [st [_ H]].
  destruct (st - elapsed_time q >? 0).
  - apply auto_wait_rows in H. destruct H as [HW [Hi _]].
    rewrite Hi, forallb_app, Hq. apply spec_wait_expansion_fits. exact HW.
  - destruct (st - elapsed_time q <? 0); [discriminate|].
    inversion H; subst q'. exact Hq.
Qed.

Lemma update_runtime_settings_fits (op : OpInfo) (q q' : QASMProgram) :
  update_runtime_settings op q = Ok q' ->
  forallb row_fits (instructions q) = true ->
  forallb row_fits (instructions q') = true.
Proof.
  unfold update_runtime_settings. intros H Hq.
  destruct (pulse_settings op) as [settings|]; [|discriminate].
  unfold _expand_from_normalised_range, IMMEDIATE_SZ in H.
  change (2 ^ 16 - 1) with 65535 in H.
  destruct (Qlt_le_dec 1 (Qabs (awg_gain_0 settings))) as [|H0]; [discriminate|].
  destruct (Qlt_le_dec 1 (Qabs (awg_gain_1 settings))) as [|H1]; [discriminate|].
  cbn [bind] in H. rewrite emit_ok in H by (simpl; lia).
  inversion H; subst q'; clear H. cbn [instructions].
  rewrite forallb_app, Hq. cbn [forallb andb].
  pose proof (expand_from_normalised_range_int16 _ H0) as [Ha Hb].
  pose proof (expand_from_normalised_range_int16 _ H1) as [Hc Hd].
  unfold row_fits. cbn [instruction args].
  change (String.eqb PulsarInstructions.SET_AWG_GAIN PulsarInstructions.WAIT)
    with false.
  change (String.eqb PulsarInstructions.SET_AWG_GAIN PulsarInstructions.SET_AWG_GAIN)
    with true.
  cbv iota. rewrite andb_true_r.
  repeat (apply andb_true_intro; split); apply Z.leb_le; assumption.
Qed.

Lemma emit_operation_fits (awg_dict acq_dict : option wf_dict) (op : OpInfo)
  (q q' : QASMProgram) :
  emit_operation awg_dict acq_dict op q = Ok q' ->
  forallb row_fits (instructions q) = true ->
  forallb row_fits (instructions q') = true.
Proof.
  unfold emit_operation. intros H Hq.
  destruct (is_acquisition op).
  - apply bind_Ok in H. destruct H as [[i0 i1] [_ H]].
    unfold wait_till_start_then_acquire in H.
    apply bind_Ok in H. destruct H as [q1 [Hw H]].
    pose proof (wait_till_start_operation_fits _ _ _ Hw Hq) as Hq1.
    rewrite emit_ok in H by (simpl; lia). cbn [bind] in H.
    inversion H; subst q'; clear H.
    cbn [instructions add_elapsed]. rewrite forallb_app, Hq1. reflexivity.
  - apply bind_Ok in H. destruct H as [[i0 i1] [_ H]].
    unfold wait_till_start_then_play in H.
    apply bind_Ok in H. destruct H as [q1 [Hw H]].
    pose proof (wait_till_start_operation_fits _ _ _ Hw Hq) as Hq1.
    apply bind_Ok in H. destruct H as [q2 [Hu H]].
    pose proof (update_runtime_settings_fits _ _ _ Hu Hq1) as Hq2.
    rewrite emit_ok in H by (simpl; lia). cbn [bind] in H.
    inversion H; subst q'; clear H.
    cbn [instructions add_elapsed]. rewrite forallb_app, Hq2. reflexivity.
Qed.

(** X24. In a program produced by [generate_qasm_program] the operands
    of every line fit the immediates of the sequencer: every wait is of
    1 to 65535 ns, every gain lies in the signed 16-bit range, and every
    play and acquire lasts one grid step of 4 ns. *)
Theorem program_immediates_fit (total_sequence_time : Q)
  (pulses : option (list OpInfo)) (awg_dict : option wf_dict)
  (acquisitions : option (list OpInfo)) (acq_dict : option wf_dict)
  (repetitions : Z) (q : QASMProgram) :
  generate_qasm_program total_sequence_time pulses awg_dict acquisitions
    acq_dict repetitions = Ok q ->
  forallb row_fits (instructions q) = true.
Proof.
  unfold generate_qasm_program. intros H.
  rewrite emit_ok in H by (simpl; lia). cbn [bind] in H.
  rewrite emit_ok in H by (simpl; lia). cbn [bind] in H.
  rewrite emit_ok in H by (simpl; lia). cbn [bind] in H.
  rewrite emit_ok in H by (simpl; lia). cbn [bind] in H.
  apply bind_Ok in H. destruct H as [q1 [Hbody H]].
  apply bind_Ok in H. destruct H as [end_time [_ H]].
  destruct (end_time - elapsed_time q1 <=? 0); [discriminate|].
  apply bind_Ok in H. destruct H as [q2 [Hw H]].
  apply auto_wait_rows in Hw. destruct Hw as [HW [Hi2 _]].
  rewrite emit_ok in H by (simpl; lia). cbn [bind] in H.
  rewrite emit_ok in H by (simpl; lia). cbn [bind] in H.
  rewrite emit_ok in H by (simpl; lia). cbn [bind] in H.
  rewrite emit_ok in H by (simpl; lia).
  inversion H; subst q; clear H. cbn [instructions].
  assert (Hq1 : forallb row_fits (instructions q1) = true).
  { refine (for_each_inv (fun s => forallb row_fits (instructions s) = true)
              _ _ _ _ _ _ Hbody).
    - intros op s s' _ Hs Hop. exact (emit_operation_fits _ _ _ _ _ Hop Hs).
    - reflexivity. }
  rewrite Hi2, !forallb_app, Hq1, (spec_wait_expansion_fits _ HW). reflexivity.
Qed.

Lemma program_immediates_fit_witness :
  exists q,
    generate_qasm_program (1 # 1000000)
      (Some [pulse_at (1 # 5000000); pulse_at 0]) awg_dict_7
      (Some [acquisition_at (1 # 10000000)]) acq_dict_9 1 = Ok q /\
    forallb row_fits (instructions q) = true.
Proof.
  destruct (generate_qasm_program (1 # 1000000)
              (Some [pulse_at (1 # 5000000); pulse_at 0]) awg_dict_7
              (Some [acquisition_at (1 # 10000000)]) acq_dict_9 1)
    as [q|e] eqn:E; [|vm_compute in E; discriminate].
  exists q. split; [reflexivity|].
  exact (program_immediates_fit _ _ _ _ _ _ q E).
Defined.

(** *** The index and the compilers of one mapping *)

Section Compilers.
Variable from_dict : value -> result MixerCorrections.





End Compilers.


(** *** Mappings a pulsar accepts *)

Lemma construct_sequencer_accepts (fd : value -> result MixerCorrections)
  (c : pulsar_class) (parent io : string) (cfg : pydict)
  (seqs seqs' : list (string * Sequencer)) :
  construct_sequencer fd c parent (io, VDict cfg) seqs = Ok seqs' ->
  (io = "complex_output_0" \/ io = "complex_output_1") /\
  exists pd port clock,
    find_inner_dicts_containing_key cfg "port" = [pd] /\
    get "port" pd = Some port /\ get "clock" pd = Some clock /\
    has_key "interm_freq" pd = true.
Proof.
  unfold construct_sequencer. intros H.
  destruct (find_inner_dicts_containing_key cfg "port") as [|pd [|pd' rest]];
    try discriminate.
  cbn [List.length Nat.ltb Nat.leb] in H.
  apply bind_Ok in H. destruct H as [port [Hp H]].
  apply bind_Ok in H. destruct H as [clock [Hc H]].
  apply bind_Ok in H. destruct H as [freq [Hf H]].
  destruct (dget String.eqb io OUTPUT_TO_SEQ) as [k|] eqn:Hk; [|discriminate].
  apply getitem_inv in Hp. apply getitem_inv in Hc.
  split.
  - destruct (output_to_seq_cases io k Hk) as [[-> _]|[-> _]]; auto.
  - exists pd, port, clock. repeat split; try assumption.
    destruct (has_key "interm_freq" pd) eqn:Hi; [reflexivity|].
    apply getitem_inv in Hf. unfold has_key, dmem in Hi. unfold get in Hf.
    rewrite Hf in Hi. discriminate.
Qed.

(** X26. A pulsar compiler is constructed only for a mapping that has a
    [ref] entry and in which every entry whose value is a dictionary is
    one of the outputs [complex_output_0] and [complex_output_1] and
    contains exactly one dictionary with a [port] key, which also has the
    keys [clock] and [interm_freq]: a real output, an output without a
    port-clock, or any other dictionary among the entries makes the
    construction fail. *)
Theorem pulsar_accepts_only_complex_outputs
  (fd : value -> result MixerCorrections) (c : pulsar_class) (name : string)
  (total_play_time : Q) (hw : pydict) (p : Pulsar) :
  Pulsar_init fd c name total_play_time hw = Ok p ->
  (exists r, get "ref" hw = Some r) /\
  forall io cfg, In (io, VDict cfg) hw ->
    (io = "complex_output_0" \/ io = "complex_output_1") /\
    exists pd port clock,
      find_inner_dicts_containing_key cfg "port" = [pd] /\
      get "port" pd = Some port /\ get "clock" pd = Some clock /\
      has_key "interm_freq" pd = true.
Proof.
  unfold Pulsar_init. intros H.
  apply bind_Ok in H. destruct H as [m [_ H]].
  apply bind_Ok in H. destruct H as [seqs [Hs H]].
  apply bind_Ok in H. destruct H as [st [Hst _]].
  split.
  - unfold extract_settings_from_mapping in Hst.
    apply bind_Ok in Hst. destruct Hst as [r [Hr _]].
    apply getitem_inv in Hr. exists r. exact Hr.
  - intros io cfg Hin. unfold _construct_sequencers in Hs.
    apply bind_Ok in Hs. destruct Hs as [acc [Hloop _]].
    apply in_split in Hin. destruct Hin as [before [after ->]].
    rewrite for_each_app in Hloop.
    apply bind_Ok in Hloop. destruct Hloop as [s0 [_ Hloop]].
    cbn [for_each] in Hloop.
    apply bind_Ok in Hloop. destruct Hloop as [s1 [Hx _]].
    exact (construct_sequencer_accepts _ _ _ _ _ _ _ Hx).
Qed.

Lemma pulsar_accepts_only_complex_outputs_witness :
  exists p pd,
    Pulsar_init example_from_dict Pulsar_QCM "qcm0" (1 # 1000000)
      (qcm_module "qcm0") = Ok p /\
    find_inner_dicts_containing_key
      [("line_gain_db", VNum 0); ("seq0", seq_cfg "q0:mw" "q0.01")] "port"
    = [pd] /\
    has_key "interm_freq" pd = true.
Proof.
  destruct (Pulsar_init example_from_dict Pulsar_QCM "qcm0" (1 # 1000000)
              (qcm_module "qcm0")) as [p|e] eqn:E;
    [|vm_compute in E; discriminate].
  destruct (pulsar_accepts_only_complex_outputs _ _ _ _ _ p E) as [_ H].
  destruct (H "complex_output_0"
              [("line_gain_db", VNum 0); ("seq0", seq_cfg "q0:mw" "q0.01")])
    as [_ [pd [port [clock [Hf [_ [_ Hi]]]]]]].
  - right. right. right. left. reflexivity.
  - exists p, pd. split; [reflexivity|]. split; [exact Hf | exact Hi].
Defined.

(** *** From the schedule to the sequencers *)

Lemma append_at_distinct (pc : portclock) (op : OpInfo)
  (d d' : list (portclock * list OpInfo)) :
  append_at pc op d = Ok d' ->
  distinct_keys pc_eqb d -> distinct_keys pc_eqb d'.
Proof.
  unfold append_at, pc_get, pc_setitem. intros H Hd.
  destruct (pc_hashable pc); simpl in H; [|discriminate].
  inversion H; subst d'.
  apply (dset_distinct_keys pc_eqb pc_eqb_sym). exact Hd.
Qed.

(** Adding a pulse or an acquisition to a compiler leaves a pulsar a
    pulsar with the same sequencers. *)
Lemma add_keeps_pulsar (acq_added : bool) (port clock : value) (op : OpInfo)
  (p : Pulsar) (c' : InstrumentCompiler) :
  (if acq_added then add_acquisition port clock op (IC_Pulsar p)
   else add_pulse port clock op (IC_Pulsar p)) = Ok c' ->
  distinct_keys pc_eqb (_pulses (base p)) ->
  distinct_keys pc_eqb (_acquisitions (base p)) ->
  exists p', c' = IC_Pulsar p' /\ sequencers p' = sequencers p /\
             distinct_keys pc_eqb (_pulses (base p')) /\
             distinct_keys pc_eqb (_acquisitions (base p')).
Proof.
  intros H Hp Ha. destruct acq_added.
  - pose proof (add_acquisition_stored _ _ _ _ _ H) as [Hs Hk].
    unfold add_acquisition in H. destruct (pulsar_type p); [discriminate|].
    apply bind_Ok in H. destruct H as [b [_ H]]. inversion H; subst c'.
    eexists. split; [reflexivity|]. split; [reflexivity|].
    cbn [compiler_base] in Hs, Hk. split.
    + rewrite Hk. exact Hp.
    + exact (append_at_distinct _ _ _ _ Hs Ha).
  - pose proof (add_pulse_stored _ _ _ _ _ H) as [Hs Hk].
    unfold add_pulse in H.
    apply bind_Ok in H. destruct H as [b [_ H]]. inversion H; subst c'.
    eexists. split; [reflexivity|]. split; [reflexivity|].
    cbn [compiler_base] in Hs, Hk. split.
    + exact (append_at_distinct _ _ _ _ Hs Hp).
    + rewrite Hk. exact Ha.
Qed.

Lemma update_device_keeps_pulsar (acq_added : bool) (dev d' : string)
  (seqs : list (string * Sequencer)) (port clock : value) (op : OpInfo)
  (devs devs' : list (string * InstrumentCompiler)) :
  update_device d'
    (if acq_added then add_acquisition port clock op
     else add_pulse port clock op) devs = Ok devs' ->
  pulsar_with dev seqs devs -> pulsar_with dev seqs devs'.
Proof.
  intros H [p [Hd [Hs [Hp Ha]]]]. apply update_device_inv in H.
  destruct H as [c0 [c1 [Hc0 [Hc1 ->]]]].
  unfold pulsar_with. destruct (String.eqb dev d') eqn:E.
  - apply String.eqb_eq in E. subst d'. rewrite sdget_dset_same.
    rewrite Hd in Hc0. inversion Hc0; subst c0.
    assert (Hadd : (if acq_added then add_acquisition port clock op (IC_Pulsar p)
                    else add_pulse port clock op (IC_Pulsar p)) = Ok c1)
      by (destruct acq_added; exact Hc1).
    destruct (add_keeps_pulsar acq_added port clock op p c1 Hadd Hp Ha)
      as [p' [-> [Hs' [Hp' Ha']]]].
    exists p'. split; [reflexivity|]. split; [congruence|]. auto.
  - rewrite (sdget_dset_other _ _ _ _ E). exists p. auto.
Qed.

Section Chain.
Variable make_hash : pydict -> Z.
Variable without : pydict -> list string -> result pydict.
Variable from_dict : value -> result MixerCorrections.

Lemma distributor_keeps_pulsar (schedule : Schedule) (dev : string)
  (seqs : list (string * Sequencer))
  (portclock_mapping : list (portclock * string))
  (devs devs' : list (string * InstrumentCompiler)) :
  _assign_pulse_and_acq_info_to_devices make_hash without schedule devs
    portclock_mapping = Ok devs' ->
  pulsar_with dev seqs devs -> pulsar_with dev seqs devs'.
Proof.
  unfold _assign_pulse_and_acq_info_to_devices. intros H Hstart.
  refine (for_each_inv (pulsar_with dev seqs) _ _ _ _ _ Hstart H).
  intros y s s' _ Hs Hb.
  destruct (dget Z.eqb (operation_hash y) (operations schedule)) as [op|];
    [|discriminate].
  destruct (negb (valid_pulse op) && negb (valid_acquisition op)); [discriminate|].
  apply bind_Ok in Hb. destruct Hb as [ds [Hp Ha]].
  assert (Hds : pulsar_with dev seqs ds).
  { refine (for_each_inv (pulsar_with dev seqs) _ _ _ _ _ Hs Hp).
    intros z s0 s1 _ Hs0 Hz. unfold assign_pulse in Hz.
    apply bind_Ok in Hz. destruct Hz as [t [_ Hz]].
    apply bind_Ok in Hz. destruct Hz as [port [_ Hz]].
    apply bind_Ok in Hz. destruct Hz as [clock [_ Hz]].
    destruct (is_none port); [inversion Hz; subst; exact Hs0|].
    apply bind_Ok in Hz. destruct Hz as [hashed [_ Hz]].
    apply bind_Ok in Hz. destruct Hz as [d [_ Hz]].
    exact (update_device_keeps_pulsar false _ _ _ _ _ _ _ _ Hz Hs0). }
  refine (for_each_inv (pulsar_with dev seqs) _ _ _ _ _ Hds Ha).
  intros z s0 s1 _ Hs0 Hz. unfold assign_acquisition in Hz.
  apply bind_Ok in Hz. destruct Hz as [t [_ Hz]].
  apply bind_Ok in Hz. destruct Hz as [port [_ Hz]].
  apply bind_Ok in Hz. destruct Hz as [clock [_ Hz]].
  destruct (is_none port); [inversion Hz; subst; exact Hs0|].
  apply bind_Ok in Hz. destruct Hz as [hashed [_ Hz]].
  apply bind_Ok in Hz. destruct Hz as [w [_ Hz]].
  apply bind_Ok in Hz. destruct Hz as [stripped [_ Hz]].
  apply bind_Ok in Hz. destruct Hz as [d [_ Hz]].
  exact (update_device_keeps_pulsar true _ _ _ _ _ _ _ _ Hz Hs0).
Qed.

(** X27. From the schedule to the sequencer.  Let a pulsar be
    constructed for a device of the mapping and stored under the name of
    the device, and let a pulse of the schedule have the port and the
    clock of one of the outputs of that device, the index giving this
    device for them.  When the distributor succeeds, the device is still
    a pulsar with the same sequencers, and whenever its data is then
    distributed, one of its sequencers has exactly this port and clock
    and has the pulse (its data, its start time [abs_time + t0], the hash
    of its data without [t0]) among its pulses. *)
Theorem pulses_reach_their_sequencer (c : pulsar_class) (dev : string)
  (total_play_time : Q) (hw : pydict) (p0 : Pulsar) (schedule : Schedule)
  (device_compilers devs' : list (string * InstrumentCompiler))
  (portclock_mapping : list (portclock * string))
  (tc : TimingConstraint) (op_data : Operation) (pulse_data : pydict)
  (port clock : value) (io : string) (cfg pd : pydict) :
  NoDup (dkeys hw) ->
  Pulsar_init from_dict c dev total_play_time hw = Ok p0 ->
  dget String.eqb dev device_compilers = Some (IC_Pulsar p0) ->
  _assign_pulse_and_acq_info_to_devices make_hash without schedule
    device_compilers portclock_mapping = Ok devs' ->
  In tc (timing_constraints schedule) ->
  dget Z.eqb (operation_hash tc) (operations schedule) = Some op_data ->
  In pulse_data (pulse_info op_data) ->
  get "port" pulse_data = Some port -> is_none port = false ->
  get "clock" pulse_data = Some clock ->
  pc_getitem (port, clock) portclock_mapping = Ok dev ->
  In (io, VDict cfg) hw ->
  In pd (find_inner_dicts_containing_key cfg "port") ->
  get "port" pd = Some port -> get "clock" pd = Some clock ->
  exists p' t hashed,
    dget String.eqb dev devs' = Some (IC_Pulsar p') /\
    sequencers p' = sequencers p0 /\
    add_t0 (abs_time tc) pulse_data = Ok t /\
    without pulse_data ["t0"] = Ok hashed /\
    forall p'',
      _distribute_data p' = Ok p'' ->
      exists n seq,
        In (n, seq) (sequencers p'') /\
        seq_portclock seq = (port, clock) /\
        In {| uuid := make_hash hashed; data := pulse_data; timing := t;
              pulse_settings := None |} (pulses seq).
Proof.
  intros Hnd Hinit Hdev Hrun Htc Hop Hin Hp Hn Hc Hidx Hio Hpd Hpp Hpc.
  (* the sequencer of the output *)
  assert (Hseq : exists n seq, In (n, seq) (sequencers p0) /\
                               seq_portclock seq = (port, clock)).
  { unfold Pulsar_init in Hinit.
    apply bind_Ok in Hinit. destruct Hinit as [m [_ Hinit]].
    apply bind_Ok in Hinit. destruct Hinit as [seqs [Hs Hinit]].
    apply bind_Ok in Hinit. destruct Hinit as [st [_ Hinit]].
    inversion Hinit; subst p0; clear Hinit. cbn [sequencers].
    unfold _construct_sequencers in Hs.
    apply bind_Ok in Hs. destruct Hs as [acc [Hloop Hs]].
    destruct (MAX_SEQUENCERS c <? List.length (dkeys acc))%nat; [discriminate|].
    inversion Hs; subst acc; clear Hs.
    assert (Hk : exists k, dget String.eqb io OUTPUT_TO_SEQ = Some k).
    { pose proof Hio as Hio'. apply in_split in Hio'.
      destruct Hio' as [before [after Heq]]. rewrite Heq in Hloop.
      rewrite for_each_app in Hloop.
      apply bind_Ok in Hloop. destruct Hloop as [s0 [_ Hloop]].
      cbn [for_each] in Hloop.
      apply bind_Ok in Hloop. destruct Hloop as [s1 [Hx _]].
      apply construct_sequencer_inv in Hx.
      destruct Hx as [_ [_ [_ [k [_ [_ [_ [_ [Hk _]]]]]]]]].
      exists k. exact Hk. }
    destruct Hk as [k Hk].
    destruct (construct_sequencers_has from_dict c dev hw io cfg k seqs
                Hnd Hio Hk Hloop)
      as [pd0 [port0 [clock0 [seq [Hf [Hp0 [Hc0 [Hg Hsp]]]]]]]].
    rewrite Hf in Hpd. destruct Hpd as [<-|[]].
    rewrite Hpp in Hp0. rewrite Hpc in Hc0.
    inversion Hp0; inversion Hc0; subst port0 clock0.
    apply dget_Some_In in Hg. destruct Hg as [n [Hg _]].
    exists n, seq. auto. }
  destruct Hseq as [n [seq [Hseq Hsp]]].
  (* the device after the distributor *)
  assert (Hstart : pulsar_with dev (sequencers p0) device_compilers).
  { exists p0. split; [exact Hdev|]. split; [reflexivity|].
    unfold Pulsar_init in Hinit.
    apply bind_Ok in Hinit. destruct Hinit as [m [_ Hinit]].
    apply bind_Ok in Hinit. destruct Hinit as [seqs [_ Hinit]].
    apply bind_Ok in Hinit. destruct Hinit as [st [_ Hinit]].
    inversion Hinit. cbn [base InstrumentBase_init _pulses _acquisitions].
    split; constructor. }
  destruct (distributor_keeps_pulsar schedule dev _ _ _ _ Hrun Hstart)
    as [p' [Hd' [Hs' [Hdp Hda]]]].
  destruct (legacy_pulse_reaches_device make_hash without schedule
              device_compilers devs' portclock_mapping tc op_data pulse_data
              port clock Hrun Htc Hop Hin Hp Hn Hc)
    as [dev0 [t [hashed [Hidx0 [Ht [Hh [c0 [l [Hc0 [Hl Hx]]]]]]]]]].
  rewrite Hidx in Hidx0. inversion Hidx0; subst dev0; clear Hidx0.
  rewrite Hd' in Hc0. inversion Hc0; subst c0; clear Hc0.
  cbn [stored compiler_base] in Hl.
  exists p', t, hashed.
  split; [exact Hd'|]. split; [exact Hs'|]. split; [exact Ht|].
  split; [exact Hh|].
  intros p'' Hdist.
  destruct (distribute_data_body p' Hdp Hda) as [q [Hq [_ Hsq]]].
  assert (Heq : p'' = q).
  { unfold _distribute_data in Hdist. revert Hq Hdist.
    destruct (pulsar_type p'); destruct (_acquisitions (base p'));
      intros Hq Hdist; try discriminate;
      pose proof (eq_trans (eq_sym Hdist) Hq) as E; inversion E; reflexivity. }
  subst q. rewrite <- Hs' in Hseq.
  eexists n, _. split.
  - rewrite Hsq. apply in_map_iff. exists (n, seq). split; [reflexivity|exact Hseq].
  - cbn [fst snd]. split; [exact Hsp|].
    rewrite Hsp, Hl. exact Hx.
Qed.

End Chain.

Lemma pulses_reach_their_sequencer_witness :
  exists devs' p' p'' n seq x,
    _assign_pulse_and_acq_info_to_devices example_make_hash example_without
      if_only_schedule if_only_constructed if_only_index = Ok devs' /\
    dget String.eqb "qcm0" devs' = Some (IC_Pulsar p') /\
    _distribute_data p' = Ok p'' /\
    In (n, seq) (sequencers p'') /\
    seq_portclock seq = (VStr "q0:mw", VStr "q0.01") /\
    In x (pulses seq) /\ data x = if_only_pulse.
Proof.
  destruct (_assign_pulse_and_acq_info_to_devices example_make_hash
              example_without if_only_schedule if_only_constructed
              if_only_index) as [devs'|e] eqn:E;
    [|vm_compute in E; discriminate].
  destruct (Pulsar_init example_from_dict Pulsar_QCM "qcm0" (1 # 1000000)
              (qcm0_mapping_of if_only_mapping)) as [p0|e] eqn:Ep;
    [|vm_compute in Ep; discriminate].
  assert (Hdev : dget String.eqb "qcm0" if_only_constructed
                 = Some (IC_Pulsar p0)).
  { vm_compute in Ep. inversion Ep. reflexivity. }
  destruct (pulses_reach_their_sequencer example_make_hash example_without
              example_from_dict Pulsar_QCM "qcm0" (1 # 1000000)
              (qcm0_mapping_of if_only_mapping) p0 if_only_schedule
              if_only_constructed devs' if_only_index
              {| operation_hash := 1; abs_time := 0 |}
              {| valid_pulse := true; valid_acquisition := false;
                 pulse_info := [if_only_pulse]; acquisition_info := [] |}
              if_only_pulse (VStr "q0:mw") (VStr "q0.01")
              "complex_output_0" if_only_output
              [("port", VStr "q0:mw"); ("clock", VStr "q0.01");
               ("interm_freq", VNum 50000000)])
    as [p' [t [hashed [Hd [_ [_ [_ Hall]]]]]]];
    try reflexivity; try exact Ep; try exact Hdev; try exact E;
    try (left; reflexivity).
  - repeat constructor; simpl; intuition discriminate.
  - right. right. right. left. reflexivity.
  - destruct (_distribute_data p') as [p''|e] eqn:Ed.
    + destruct (Hall p'' eq_refl) as [n [seq [Hin [Hpc Hx]]]].
      exists devs', p', p'', n, seq. eexists.
      split; [reflexivity|]. split; [exact Hd|]. split; [exact Ed|].
      split; [exact Hin|]. split; [exact Hpc|]. split; [exact Hx|reflexivity].
    + exfalso. vm_compute in E. inversion E; subst devs'.
      vm_compute in Hd. inversion Hd; subst p'. vm_compute in Ed. discriminate.
Defined.
